(** * ASEA resource import: the VPC resource handler

    A shallow embedding of
    [source/packages/@aws-accelerator/accelerator/lib/asea-resources/vpc-resources.ts]
    (class [VpcResources]) and the properties of its matcher, mergers and
    parameter exporter.

    JavaScript values are modelled by [JsVal]; the class instance together
    with the stack it writes to is the record [World]; methods are functions
    in the state-and-exception monad [M], in which a thrown error keeps the
    mutations made before it. *)

From stdpp Require Import gmap strings list fin_maps pretty.
From Stdlib Require Import ZArith Lia.

Local Open Scope string_scope.
Local Open Scope list_scope.
Local Open Scope Z_scope.

(** ** JavaScript values *)
Module Js.

(* Values are only ever inspected one level deep: no induction principle is
   needed. *)
Local Unset Elimination Schemes.
Inductive JsVal : Type :=
  | JUndef
  | JNull
  | JBool (b : bool)
  | JNum (n : Z)
  | JStr (s : string)
  | JArr (items : list JsVal)
  | JObj (fields : list (string * JsVal)).
Local Set Elimination Schemes.

(** Truthiness, as used by [if], [!], [&&], [||] and [Array.prototype.find]. *)
Definition truthy (v : JsVal) : bool :=
  match v with
  | JUndef | JNull => false
  | JBool b => b
  | JNum n => negb (n =? 0)
  | JStr s => negb (String.eqb s EmptyString)
  | JArr _ | JObj _ => true
  end.

(** [a && b] and [a || b] return one of their operands. *)
Definition js_and (a b : JsVal) : JsVal := if truthy a then b else a.
Definition js_or (a b : JsVal) : JsVal := if truthy a then a else b.

(** [a === b]. Every comparison of the handler has a primitive on its right;
    two object or array values are different references. *)
Definition strict_eq (a b : JsVal) : bool :=
  match a, b with
  | JUndef, JUndef => true
  | JNull, JNull => true
  | JBool x, JBool y => Bool.eqb x y
  | JNum x, JNum y => x =? y
  | JStr x, JStr y => String.eqb x y
  | _, _ => false
  end.

(** Property bags keep the order in which their keys were written. *)
Fixpoint assoc (k : string) (fields : list (string * JsVal)) : option JsVal :=
  match fields with
  | [] => None
  | (k', v) :: rest => if String.eqb k k' then Some v else assoc k rest
  end.

(** [fields[k]] on a property bag: [undefined] when the key is absent. *)
Definition prop (k : string) (fields : list (string * JsVal)) : JsVal :=
  match assoc k fields with
  | Some v => v
  | None => JUndef
  end.

(** [v.k] on a value that is neither [undefined] nor [null]. *)
Definition member (k : string) (v : JsVal) : JsVal :=
  match v with
  | JObj fields => prop k fields
  | _ => JUndef
  end.

(** A [number | undefined] and a [string | undefined] of the configuration
    as values. *)
Definition of_num (o : option Z) : JsVal :=
  match o with Some n => JNum n | None => JUndef end.
Definition of_str (o : option string) : JsVal :=
  match o with Some s => JStr s | None => JUndef end.

(** Interpolation into a template literal. *)
Definition show_num (o : option Z) : string :=
  match o with Some n => pretty n | None => "undefined" end.

(** [Array.prototype.find]: the first element on which the callback is
    truthy. *)
Fixpoint js_find {A : Type} (f : A -> JsVal) (l : list A) : option A :=
  match l with
  | [] => None
  | x :: rest => if truthy (f x) then Some x else js_find f rest
  end.

End Js.
Export Js.

(** ** Errors and the method monad *)

Inductive JsError : Type :=
  | TypeError (msg : string)
  | Error (msg : string).

Inductive Outcome (A : Type) : Type :=
  | Returned (a : A)
  | Thrown (e : JsError).
Arguments Returned {A} a.
Arguments Thrown {A} e.

Definition M (S A : Type) : Type := S -> S * Outcome A.

Definition ret {S A : Type} (a : A) : M S A := fun w => (w, Returned a).
Definition throw {S A : Type} (e : JsError) : M S A := fun w => (w, Thrown e).
Definition bind {S A B : Type} (m : M S A) (k : A -> M S B) : M S B :=
  fun w =>
    match m w with
    | (w', Returned a) => k a w'
    | (w', Thrown e) => (w', Thrown e)
    end.
Definition get {S : Type} : M S S := fun w => (w, Returned w).
Definition modify {S : Type} (f : S -> S) : M S unit := fun w => (f w, Returned tt).

Notation "x <- m ;; k" := (bind m (fun x => k))
  (at level 100, m at next level, right associativity).
Notation "m ;;; k" := (bind m (fun _ => k))
  (at level 100, right associativity).

(** [for (const x of l) body(x)]. *)
Fixpoint for_each {S A : Type} (body : A -> M S unit) (l : list A) : M S unit :=
  match l with
  | [] => ret tt
  | x :: rest => body x ;;; for_each body rest
  end.

(** A loop whose body carries local variables [acc]. *)
Fixpoint for_fold {S A B : Type} (body : B -> A -> M S B) (acc : B) (l : list A)
  : M S B :=
  match l with
  | [] => ret acc
  | x :: rest => acc' <- body acc x ;; for_fold body acc' rest
  end.

(** ** Data model *)

(** [{ Key, Value }] *)
Record Tag : Type := mkTag { Key : string; Value : string }.

(** Modelled from the spec: the record type of the legacy resource mapping
    ([AseaStackInfo.resources], declared in the configuration package) is an
    [ExistingResourceRecord]: resource kind, logical identifier, physical
    identifier, a list of tags and a bag of properties.  The handler reads the
    tags at [resourceMetadata['Properties'].Tags] and the other properties at
    [resourceMetadata['Properties'][key]]. *)
Record CfnResourceType : Type := mkCfnResourceType {
  resourceType : string;
  logicalResourceId : string;
  physicalResourceId : string;
  Tags : list Tag;
  Properties : list (string * JsVal)
}.

(** [NestedAseaStackInfo]: one container, the nested stack of one VPC. *)
Record NestedAseaStackInfo : Type := mkNestedAseaStackInfo {
  stackName : string;
  stackLogicalResourceId : string;
  resources : list CfnResourceType
}.

Module RESOURCE_TYPE.
Definition VPC := "AWS::EC2::VPC".
Definition SUBNET := "AWS::EC2::Subnet".
Definition NAT_GATEWAY := "AWS::EC2::NatGateway".
Definition SECURITY_GROUP_EGRESS := "AWS::EC2::SecurityGroupEgress".
Definition SECURITY_GROUP_INGRESS := "AWS::EC2::SecurityGroupIngress".
Definition NETWORK_FIREWALL := "AWS::NetworkFirewall::Firewall".
Definition NETWORK_FIREWALL_LOGGING := "AWS::NetworkFirewall::LoggingConfiguration".
Definition VPC_ENDPOINT := "AWS::EC2::VPCEndpoint".
End RESOURCE_TYPE.

Inductive LogLevel : Type := INFO | WARN | ERROR.

(** The members of [AseaResourceType] and [SsmResourceType] that the modelled
    methods use (both enumerations are declared outside the handler). *)
Inductive AseaResourceType : Type :=
  | EC2_VPC | EC2_SUBNET | NAT_GATEWAY | EC2_SECURITY_GROUP_INGRESS
  | EC2_SECURITY_GROUP_EGRESS | NFW | VPC_ENDPOINT.

Module SsmResourceType.
Inductive t : Type :=
  | VPC | SUBNET | NAT_GW | NFW_POLICY | NFW | ROUTE_TABLE | VPC_ENDPOINT.
End SsmResourceType.

(** The collaborators the handler calls but does not define: the
    [pascal-case] and [ip-num] packages and the stack's parameter lookup.
    [getExternalResourceParameter] answers [undefined] for a parameter that
    was not exported by an earlier run; [firewallBucketName] is
    [scope.firewallBucket.bucketName]. *)
Record Env : Type := mkEnv {
  pascalCase : string -> string;
  getSsmPath : SsmResourceType.t -> list string -> string;
  getExternalResourceParameter : string -> option string;
  isValidIpv4Cidr : string -> bool;
  isValidIpv6Cidr : string -> bool;
  firewallBucketName : string
}.

(** An entry of [this.ssmParameters]. *)
Record SsmParameterItem : Type := mkSsmParameterItem {
  logicalId : string;
  parameterName : string;
  stringValue : string
}.

(** A [cdk.aws_ssm.StringParameter] construct.  A construct is referred to by
    its address: its rank among the constructs created in the scope.
    [dependencies] are the references passed to [node.addDependency]. *)
Record StringParameter : Type := mkStringParameter {
  sp_id : string;
  sp_parameterName : string;
  sp_stringValue : string;
  sp_dependencies : list nat
}.

(** The instance of [VpcResources] and the stack it works on.
    - [template]: the resources of the included template (what
      [CfnInclude.getResource] returns), by logical identifier, each a bag of
      attributes named as the handler writes them;
    - [constructs]: the parameters created in the template's scope;
    - [logs], [aseaResources]: what [scope.addLogs] and
      [scope.addAseaResource] recorded;
    - [ssmParameters], [nestedStacksInfo]: the fields of the instance. *)
Record World : Type := mkWorld {
  template : gmap string (gmap string JsVal);
  constructs : list StringParameter;
  logs : list (LogLevel * string);
  aseaResources : list (AseaResourceType * string);
  ssmParameters : list SsmParameterItem;
  nestedStacksInfo : list NestedAseaStackInfo
}.

Definition set_template (f : gmap string (gmap string JsVal) -> gmap string (gmap string JsVal))
  (w : World) : World :=
  mkWorld (f (template w)) (constructs w) (logs w) (aseaResources w)
          (ssmParameters w) (nestedStacksInfo w).
Definition set_constructs (f : list StringParameter -> list StringParameter)
  (w : World) : World :=
  mkWorld (template w) (f (constructs w)) (logs w) (aseaResources w)
          (ssmParameters w) (nestedStacksInfo w).
Definition set_logs (f : list (LogLevel * string) -> list (LogLevel * string))
  (w : World) : World :=
  mkWorld (template w) (constructs w) (f (logs w)) (aseaResources w)
          (ssmParameters w) (nestedStacksInfo w).
Definition set_aseaResources
  (f : list (AseaResourceType * string) -> list (AseaResourceType * string))
  (w : World) : World :=
  mkWorld (template w) (constructs w) (logs w) (f (aseaResources w))
          (ssmParameters w) (nestedStacksInfo w).
Definition set_ssmParameters (f : list SsmParameterItem -> list SsmParameterItem)
  (w : World) : World :=
  mkWorld (template w) (constructs w) (logs w) (aseaResources w)
          (f (ssmParameters w)) (nestedStacksInfo w).

(** [this.scope.addLogs(level, message)] *)
Definition addLogs (level : LogLevel) (message : string) : M World unit :=
  modify (set_logs (fun l => l ++ [(level, message)])).

(** [this.scope.addAseaResource(type, identifier)] *)
Definition addAseaResource (type : AseaResourceType) (identifier : string) : M World unit :=
  modify (set_aseaResources (fun l => l ++ [(type, identifier)])).

(** [addSsmParameter(props)] and [this.ssmParameters.push(props)] *)
Definition addSsmParameter (props : SsmParameterItem) : M World unit :=
  modify (set_ssmParameters (fun l => l ++ [props])).

(** [vpcStack.getResource(logicalId)]: the construct library throws when the
    template has no resource of that logical identifier. *)
Definition getResource (logicalId : string) : M World (gmap string JsVal) :=
  w <- get ;;
  match template w !! logicalId with
  | Some r => ret r
  | None => throw (Error ("Resource with logical ID '" +:+ logicalId +:+ "' was not found in the template"))
  end.

(** [resource.attr = v] on the resource of logical identifier [logicalId]. *)
Definition writeAttr (logicalId attr : string) (v : JsVal) (w : World) : World :=
  set_template (fun t =>
    match t !! logicalId with
    | Some r => <[logicalId := <[attr := v]> r]> t
    | None => t
    end) w.

Definition setAttr (logicalId attr : string) (v : JsVal) : M World unit :=
  modify (writeAttr logicalId attr v).

(** ** The reference exporter: [createSsmParameters] *)
Module Ssm.

(** [new cdk.aws_ssm.StringParameter(scope, id, props)]: the construct is
    appended to the scope and its address returned. *)
Definition newStringParameter (item : SsmParameterItem) : M World nat :=
  w <- get ;;
  modify (set_constructs (fun c =>
    c ++ [mkStringParameter (logicalId item) (parameterName item) (stringValue item) []])) ;;;
  ret (length (constructs w)).

(** [parameter.node.addDependency(dependsOnParam)] *)
Definition addDependency (parameter dependsOnParam : nat) : M World unit :=
  modify (set_constructs (fun c =>
    match c !! parameter with
    | Some p => <[parameter :=
        mkStringParameter (sp_id p) (sp_parameterName p) (sp_stringValue p)
                          (sp_dependencies p ++ [dependsOnParam])]> c
    | None => c
    end)).

(** The local variables of the loop: [index] and [parameterMap]. *)
Definition Locals : Type := (Z * gmap Z nat)%type.

Definition createSsmParameters_body (loc : Locals) (parameterItem : SsmParameterItem)
  : M World Locals :=
  let '(index, parameterMap) := loc in
  parameter <- newStringParameter parameterItem ;;
  let parameterMap := <[index := parameter]> parameterMap in
  (if 5 <? index then
     match parameterMap !! (index - index mod 5) with
     | None =>
         addLogs ERROR ("Error creating SSM parameter " +:+ parameterName parameterItem
                        +:+ ": previous SSM parameter undefined") ;;;
         throw (Error "Configuration validation failed at runtime.")
     | Some dependsOnParam => addDependency parameter dependsOnParam
     end
   else ret tt) ;;;
  ret (index + 1, parameterMap).

Definition createSsmParameters : M World unit :=
  w <- get ;;
  for_fold createSsmParameters_body (1, ∅) (ssmParameters w) ;;;
  ret tt.

(** The positions (from 1) that the parameter created at position [i] of a
    flush depends on, when the flush started with [base] constructs in the
    scope. *)
Definition dependsOnPositions (base : nat) (w : World) (i : Z) : option (list Z) :=
  match constructs w !! (base + Z.to_nat (i - 1))%nat with
  | Some p => Some (map (fun a => Z.of_nat a - Z.of_nat base + 1) (sp_dependencies p))
  | None => None
  end.



(** Twelve export calls in one container. *)
Definition twelve : list SsmParameterItem :=
  map (fun n => mkSsmParameterItem ("SsmParam" +:+ pretty n) ("/accelerator/network/p" +:+ pretty n) "id")
      (seqZ 1 12).

Definition emptyWorld : World := mkWorld ∅ [] [] [] [] [].
Definition twelveWorld : World := set_ssmParameters (fun _ => twelve) emptyWorld.

End Ssm.
Export Ssm.

(** [resource.attr] read from a resource of the template. *)
Definition readAttr (r : gmap string JsVal) (attr : string) : JsVal :=
  default JUndef (r !! attr).

(** The double quote, for messages that quote a name. *)
Definition dquote : string := String (Ascii.ascii_of_nat 34) EmptyString.

(** [construct.ref]: the token that stands for [{ Ref: logicalId }]; never
    empty. *)
Definition cfnRef (logicalId : string) : string := "Ref:" +:+ logicalId.

(** ** The matcher *)
Module Matcher.

(** [tag => tag.Key === 'Name' && tag.Value === name] *)
Definition isNameTag (name : string) (tag : Tag) : bool :=
  String.eqb (Key tag) "Name" && String.eqb (Value tag) name.

(** Modelled from the spec: [filterResourcesByType] of the base class
    [AseaResource], which "filters legacy records in the relevant container to
    the given resource kind". *)
Definition filterResourcesByType (cfnResources : list CfnResourceType)
  (type : string) : list CfnResourceType :=
  List.filter (fun cfnResource => String.eqb (resourceType cfnResource) type) cfnResources.

(** Modelled from the spec: [findResourceByTag] of the base class
    [AseaResource], which "selects the one whose Name tag equals the target
    entry's name; first match wins if tags are duplicated". *)
Definition findResourceByTag (cfnResources : list CfnResourceType)
  (name : string) : option CfnResourceType :=
  List.find (fun cfnResource => bool_decide (is_Some (List.find (isNameTag name) (Tags cfnResource))))
            cfnResources.

(** Modelled from the spec: [findResourceByName] of the base class
    [AseaResource], which "matches by a declared property value (e.g. a
    policy's name property) instead of a tag". *)
Definition findResourceByName (cfnResources : list CfnResourceType)
  (propertyName propertyValue : string) : option CfnResourceType :=
  List.find (fun cfnResource =>
               strict_eq (prop propertyName (Properties cfnResource)) (JStr propertyValue))
            cfnResources.

(** [getVpcResourceByTag(vpcName)], over [this.nestedStacksInfo]. *)
Fixpoint getVpcResourceByTag_from (stacks : list NestedAseaStackInfo) (vpcName : string)
  : option (NestedAseaStackInfo * CfnResourceType) :=
  match stacks with
  | [] => None
  | nestedStackInfo :: rest =>
      let vpcResources :=
        List.filter (fun cfnResource => String.eqb (resourceType cfnResource) RESOURCE_TYPE.VPC)
                    (resources nestedStackInfo) in
      let vpcResource :=
        List.find (fun cfnResource =>
                     bool_decide (is_Some (List.find (isNameTag vpcName) (Tags cfnResource))))
                  vpcResources in
      match vpcResource with
      | Some vpcResource => Some (nestedStackInfo, vpcResource)
      | None => getVpcResourceByTag_from rest vpcName
      end
  end.

Definition getVpcResourceByTag (w : World) (vpcName : string)
  : option (NestedAseaStackInfo * CfnResourceType) :=
  getVpcResourceByTag_from (nestedStacksInfo w) vpcName.

(** [getSubnetResourceByTag(subnetName, nestedStackInfo)] *)
Definition getSubnetResourceByTag (subnetName : string) (nestedStackInfo : NestedAseaStackInfo)
  : option CfnResourceType :=
  let subnetResources :=
    List.filter (fun cfnResource => String.eqb (resourceType cfnResource) RESOURCE_TYPE.SUBNET)
                (resources nestedStackInfo) in
  match findResourceByTag subnetResources subnetName with
  | Some subnetResource => Some subnetResource
  | None => None
  end.

(** A record carries the tag [Name = name]. *)
Definition taggedName (name : string) (r : CfnResourceType) : Prop :=
  In (mkTag "Name" name) (Tags r).


(** Two containers, each with a network and a subnet named alike. *)
Definition vpcProd : CfnResourceType :=
  mkCfnResourceType RESOURCE_TYPE.VPC "VpcProd" "vpc-0prod"
    [mkTag "Owner" "net"; mkTag "Name" "Prod"] [("CidrBlock", JStr "10.0.0.0/16")].

End Matcher.
Export Matcher.

(** ** The target specification *)

(** The availability zone of a subnet: a letter or an integer. *)
Inductive AvailabilityZone : Type :=
  | AzLetter (s : string)
  | AzNumber (n : Z).

Definition show_az (az : option AvailabilityZone) : string :=
  match az with
  | Some (AzLetter s) => s
  | Some (AzNumber n) => pretty n
  | None => "undefined"
  end.

Record SubnetConfig : Type := mkSubnetConfig {
  subnet_name : string;
  ipv4CidrBlock : option string;
  availabilityZone : option AvailabilityZone;
  mapPublicIpOnLaunch : option bool
}.

Record NatGatewayConfig : Type := mkNatGatewayConfig {
  nat_name : string;
  nat_subnet : string
}.

(** A route of a route table: only its [target] is read. *)
Record RouteTableEntryConfig : Type := mkRouteTableEntryConfig {
  route_name : string;
  target : option string
}.

Record RouteTableConfig : Type := mkRouteTableConfig {
  rt_name : string;
  routes : option (list RouteTableEntryConfig)
}.

Record GatewayEndpointServiceConfig : Type := mkGatewayEndpointServiceConfig {
  service : string
}.

(** [VpcConfig | VpcTemplatesConfig], with the fields the modelled methods
    read.  [gatewayEndpoints_endpoints] is [gatewayEndpoints?.endpoints]. *)
Record VpcConfig : Type := mkVpcConfig {
  vpc_name : string;
  region : string;
  cidrs : option (list string);
  enableDnsHostnames : option bool;
  enableDnsSupport : option bool;
  instanceTenancy : option string;
  subnets : option (list SubnetConfig);
  natGateways : option (list NatGatewayConfig);
  routeTables : option (list RouteTableConfig);
  gatewayEndpoints_endpoints : option (list GatewayEndpointServiceConfig)
}.

Definition of_bool (o : option bool) : JsVal :=
  match o with Some b => JBool b | None => JUndef end.

(** [l ?? []] *)
Definition orEmpty {A : Type} (l : option (list A)) : list A := default [] l.

(** ** The network and subnet mergers *)
Module Network.

(** The attributes the target specification owns. *)
Definition vpcOwned : list string :=
  ["cidrBlock"; "enableDnsHostnames"; "enableDnsSupport"; "instanceTenancy"].
Definition subnetOwned : list string :=
  ["cidrBlock"; "availabilityZone"; "mapPublicIpOnLaunch"].

(** The constructor, lines 115 and 119 to 122: with [resource] the matched
    network record,
    [vpc = getResource(resource.logicalResourceId)], then the four
    assignments.  [vpcInScope.cidrs![0]] throws when [cidrs] is undefined and
    is [undefined] when it is empty. *)
Definition vpcAttributes (resource : CfnResourceType) (vpcInScope : VpcConfig)
  : M World unit :=
  let id := logicalResourceId resource in
  _ <- getResource id ;;
  match cidrs vpcInScope with
  | None => throw (TypeError "Cannot read properties of undefined (reading '0')")
  | Some cs =>
      setAttr id "cidrBlock" (of_str (head cs)) ;;;
      setAttr id "enableDnsHostnames" (of_bool (enableDnsHostnames vpcInScope)) ;;;
      setAttr id "enableDnsSupport" (of_bool (enableDnsSupport vpcInScope)) ;;;
      setAttr id "instanceTenancy" (of_str (instanceTenancy vpcInScope))
  end.

(** The local object [subnets]: subnet name to the [CfnSubnet] of the
    template, held by its logical identifier. *)
Definition createSubnets_body (env : Env) (vpcItem : VpcConfig)
  (vpcStackInfo : NestedAseaStackInfo) (subnets : gmap string string)
  (subnetItem : SubnetConfig) : M World (gmap string string) :=
  match getSubnetResourceByTag (subnet_name subnetItem) vpcStackInfo with
  | None => ret subnets
  | Some subnetResource =>
      let id := logicalResourceId subnetResource in
      _ <- getResource id ;;
      setAttr id "cidrBlock" (of_str (ipv4CidrBlock subnetItem)) ;;;
      setAttr id "availabilityZone"
        (JStr (region vpcItem +:+ show_az (availabilityZone subnetItem))) ;;;
      setAttr id "mapPublicIpOnLaunch" (of_bool (mapPublicIpOnLaunch subnetItem)) ;;;
      addSsmParameter
        (mkSsmParameterItem
           (pascalCase env ("SsmParam" +:+ pascalCase env (vpc_name vpcItem)
                            +:+ pascalCase env (subnet_name subnetItem) +:+ "SubnetId"))
           (getSsmPath env SsmResourceType.SUBNET [vpc_name vpcItem; subnet_name subnetItem])
           (cfnRef id)) ;;;
      addAseaResource EC2_SUBNET (vpc_name vpcItem +:+ "/" +:+ subnet_name subnetItem) ;;;
      ret (<[subnet_name subnetItem := id]> subnets)
  end.

Definition createSubnets (env : Env) (vpcItem : VpcConfig)
  (vpcStackInfo : NestedAseaStackInfo) : M World (gmap string string) :=
  for_fold (createSubnets_body env vpcItem vpcStackInfo) ∅ (orEmpty (subnets vpcItem)).

(** An attribute of a resource of the template, [None] when the template has
    no such resource. *)
Definition attrOf (w : World) (logicalId attr : string) : option JsVal :=
  r ← template w !! logicalId; Some (readAttr r attr).

End Network.
Export Network.

(** ** The NAT gateway merger *)
Module Nat.

(** A value interpolated where a string is expected. *)
Definition show_val (v : JsVal) : string :=
  match v with
  | JUndef => "undefined"
  | JNull => "null"
  | JBool true => "true"
  | JBool false => "false"
  | JNum n => pretty n
  | JStr s => s
  | JArr _ | JObj _ => "[object Object]"
  end.

(** [subnets[name].ref]: reading [ref] of an absent entry throws. *)
Definition subnetRef (subnets : gmap string string) (name : string) : M World string :=
  match subnets !! name with
  | Some id => ret (cfnRef id)
  | None => throw (TypeError "Cannot read properties of undefined (reading 'ref')")
  end.

(** [!s] for a [string | undefined]. *)
Definition absent (s : option string) : bool := negb (truthy (of_str s)).

Definition createNatGateways_body (env : Env) (natGatewayResources : list CfnResourceType)
  (vpcItem : VpcConfig) (subnets : gmap string string)
  (natGatewayItem : NatGatewayConfig) : M World unit :=
  match findResourceByTag natGatewayResources (nat_name natGatewayItem) with
  | None => ret tt
  | Some natGatewayResource =>
      let id := logicalResourceId natGatewayResource in
      natGateway <- getResource id ;;
      ref <- subnetRef subnets (nat_subnet natGatewayItem) ;;
      let subnetId := Some ref in
      let subnetId :=
        if absent subnetId
        then getExternalResourceParameter env
               (getSsmPath env SsmResourceType.SUBNET
                  [vpc_name vpcItem; show_val (readAttr natGateway "subnetId")])
        else subnetId in
      (if absent subnetId then ret tt
       else setAttr id "subnetId" (of_str subnetId)) ;;;
      addSsmParameter
        (mkSsmParameterItem
           (pascalCase env ("SsmParam" +:+ pascalCase env (vpc_name vpcItem)
                            +:+ pascalCase env (nat_name natGatewayItem) +:+ "NatGatewayId"))
           (getSsmPath env SsmResourceType.NAT_GW [vpc_name vpcItem; nat_name natGatewayItem])
           (cfnRef id)) ;;;
      addAseaResource NAT_GATEWAY (vpc_name vpcItem +:+ "/" +:+ nat_name natGatewayItem)
  end.

Definition createNatGateways (env : Env) (vpcStackInfo : NestedAseaStackInfo)
  (vpcItem : VpcConfig) (subnets : gmap string string) : M World unit :=
  let natGatewayResources :=
    filterResourcesByType (resources vpcStackInfo) RESOURCE_TYPE.NAT_GATEWAY in
  if match natGateways vpcItem with
     | Some l => (Z.of_nat (length l) =? 0) && (0 <? Z.of_nat (length natGatewayResources))
     | None => false
     end
  then addLogs WARN "NAT Gateways are removed from configuration."
  else for_each (createNatGateways_body env natGatewayResources vpcItem subnets)
                (orEmpty (natGateways vpcItem)).

(** The scenario of the specification: a NAT gateway declared in subnet
    [Prod-B], which is neither among the legacy records nor among the subnets
    created in the run. *)
Definition testEnv : Env :=
  mkEnv (fun s => s)
        (fun _ parts => "/accelerator/network/" +:+ String.concat "/" parts)
        (fun _ => None)
        (fun _ => true)
        (fun _ => false)
        "firewall-logs".

Definition natRecord : CfnResourceType :=
  mkCfnResourceType RESOURCE_TYPE.NAT_GATEWAY "NatProd" "nat-0prod" [mkTag "Name" "Nat-Prod"]
    [("SubnetId", JObj [("Ref", JStr "SubnetProdA")])].
Definition natContainer : NestedAseaStackInfo :=
  mkNestedAseaStackInfo "Phase1-VpcStackProd" "VpcStackProd" [vpcProd; natRecord].
Definition natVpc (gateway : string) : VpcConfig :=
  mkVpcConfig "Prod" "us-east-1" (Some ["10.1.0.0/16"]) None None None None
    (Some [mkNatGatewayConfig gateway "Prod-B"]) None None.
Definition natWorld : World :=
  mkWorld {[ "NatProd" := {[ "subnetId" := JStr "Ref:SubnetProdA" ]} ]} [] [] [] []
          [natContainer].

End Nat.
Export Nat.

(** ** The network firewall merger *)
Module Firewall.

Record NfwLoggingConfig : Type := mkNfwLoggingConfig {
  destination : string;
  log_type : string
}.

Record NfwFirewallConfig : Type := mkNfwFirewallConfig {
  fw_name : string;
  fw_description : option string;
  firewallPolicy : string;
  fw_subnets : list string;
  fw_vpc : string;
  deleteProtection : option bool;
  firewallPolicyChangeProtection : option bool;
  subnetChangeProtection : option bool;
  loggingConfiguration : option (list NfwLoggingConfig)
}.

(** What [createNetworkFirewallPolicy] returns: [{ name, arn }]. *)
Record PolicyRef : Type := mkPolicyRef { policy_name : string; policy_arn : string }.

Definition policyErrorMessage (firewallItem : NfwFirewallConfig) : string :=
  "Firewall is managed externally and no SSM Parameter found for policy "
  +:+ dquote +:+ firewallPolicy firewallItem +:+ dquote.

(** Lines 1073 to 1078: the policy created in the run when it is the one the
    firewall names, else the exported parameter. *)
Definition resolvePolicyArn (env : Env) (policy : option PolicyRef)
  (firewallItem : NfwFirewallConfig) : option string :=
  let policyArn :=
    match policy with
    | Some p => if String.eqb (firewallPolicy firewallItem) (policy_name p)
                then Some (policy_arn p) else None
    | None => None
    end in
  if absent policyArn
  then getExternalResourceParameter env
         (getSsmPath env SsmResourceType.NFW_POLICY [firewallPolicy firewallItem])
  else policyArn.

(** The properties handed to [NetworkFirewall.includedCfnResource]. *)
Record NetworkFirewallProps : Type := mkNetworkFirewallProps {
  p_firewallPolicyArn : string;
  p_name : string;
  p_description : option string;
  p_subnets : list string;
  p_vpcId : string;
  p_deleteProtection : option bool;
  p_firewallPolicyChangeProtection : option bool;
  p_subnetChangeProtection : option bool
}.

(** Modelled from the spec: [NetworkFirewall.includedCfnResource] of the
    constructs package is a merger, which "applies target attributes onto the
    matched legacy record": it fetches the record from the template and
    overwrites the attributes named by its properties. *)
Definition includedCfnResource (logicalId : string) (props : NetworkFirewallProps)
  : M World string :=
  _ <- getResource logicalId ;;
  setAttr logicalId "firewallPolicyArn" (JStr (p_firewallPolicyArn props)) ;;;
  setAttr logicalId "firewallName" (JStr (p_name props)) ;;;
  setAttr logicalId "description" (of_str (p_description props)) ;;;
  setAttr logicalId "subnetMappings"
    (JArr (map (fun s => JObj [("subnetId", JStr s)]) (p_subnets props))) ;;;
  setAttr logicalId "vpcId" (JStr (p_vpcId props)) ;;;
  setAttr logicalId "deleteProtection" (of_bool (p_deleteProtection props)) ;;;
  setAttr logicalId "firewallPolicyChangeProtection"
    (of_bool (p_firewallPolicyChangeProtection props)) ;;;
  setAttr logicalId "subnetChangeProtection" (of_bool (p_subnetChangeProtection props)) ;;;
  ret logicalId.

(** [addFirewallLoggingConfiguration].  The filtered array is never falsy,
    so the early [return] is not taken and reading [[0].logicalResourceId]
    of an empty array throws.  The log group created for a
    [cloud-watch-logs] destination is held by the token of its name. *)
Definition logDestinationConfigs (env : Env) (firewallItem : NfwFirewallConfig)
  : list JsVal :=
  flat_map (fun logItem =>
    (if String.eqb (destination logItem) "cloud-watch-logs"
     then [JObj [("logDestination",
                  JObj [("logGroup",
                         JStr (cfnRef (pascalCase env (fw_name firewallItem +:+ log_type logItem
                                                       +:+ "LogGroup"))))]);
                 ("logDestinationType", JStr "CloudWatchLogs");
                 ("logType", JStr (log_type logItem))]]
     else []) ++
    (if String.eqb (destination logItem) "s3"
     then [JObj [("logDestination",
                  JObj [("bucketName", JStr (firewallBucketName env));
                        ("prefix", JStr "firewall")]);
                 ("logDestinationType", JStr "S3");
                 ("logType", JStr (log_type logItem))]]
     else []))
    (orEmpty (loggingConfiguration firewallItem)).

Definition addFirewallLoggingConfiguration (env : Env) (vpcStackInfo : NestedAseaStackInfo)
  (firewallItem : NfwFirewallConfig) : M World unit :=
  let loggingConfigurationResource :=
    filterResourcesByType (resources vpcStackInfo) RESOURCE_TYPE.NETWORK_FIREWALL_LOGGING in
  match loggingConfigurationResource with
  | [] => throw (TypeError "Cannot read properties of undefined (reading 'logicalResourceId')")
  | first :: _ =>
      _ <- getResource (logicalResourceId first) ;;
      setAttr (logicalResourceId first) "loggingConfiguration"
        (JObj [("logDestinationConfigs", JArr (logDestinationConfigs env firewallItem))])
  end.

(** [firewallItem.subnets.forEach(...)], with the local array [subnetIds]. *)
Definition firewallSubnetIds (env : Env) (vpcItem : VpcConfig) (subnets : gmap string string)
  (subnetIds : list string) (subnet : string) : M World (list string) :=
  ref <- subnetRef subnets subnet ;;
  let subnetId := Some ref in
  let subnetId :=
    if absent subnetId
    then getExternalResourceParameter env
           (getSsmPath env SsmResourceType.SUBNET [vpc_name vpcItem; subnet])
    else subnetId in
  match subnetId with
  | Some s => if absent subnetId then ret subnetIds else ret (subnetIds ++ [s])
  | None => ret subnetIds
  end.

Definition createNetworkFirewall_body (env : Env) (vpcItem : VpcConfig)
  (vpcStackInfo : NestedAseaStackInfo) (firewallResources : list CfnResourceType)
  (vpcId : string) (subnets : gmap string string) (policy : option PolicyRef)
  (firewallItem : NfwFirewallConfig) : M World unit :=
  match findResourceByName firewallResources "FirewallName" (fw_name firewallItem) with
  | None => ret tt
  | Some firewallResource =>
      subnetIds <- for_fold (firewallSubnetIds env vpcItem subnets) [] (fw_subnets firewallItem) ;;
      match resolvePolicyArn env policy firewallItem with
      | Some policyArn =>
          if absent (Some policyArn)
          then throw (Error (policyErrorMessage firewallItem))
          else
            firewall <- includedCfnResource (logicalResourceId firewallResource)
              (mkNetworkFirewallProps policyArn (fw_name firewallItem)
                 (fw_description firewallItem) subnetIds vpcId
                 (deleteProtection firewallItem)
                 (firewallPolicyChangeProtection firewallItem)
                 (subnetChangeProtection firewallItem)) ;;
            addFirewallLoggingConfiguration env vpcStackInfo firewallItem ;;;
            addSsmParameter
              (mkSsmParameterItem
                 (pascalCase env ("SsmParam" +:+ pascalCase env (fw_vpc firewallItem)
                                  +:+ pascalCase env (fw_name firewallItem) +:+ "FirewallArn"))
                 (getSsmPath env SsmResourceType.NFW [fw_vpc firewallItem; fw_name firewallItem])
                 ("GetAtt:" +:+ firewall +:+ ".FirewallArn")) ;;;
            addAseaResource NFW (fw_name firewallItem)
      | None => throw (Error (policyErrorMessage firewallItem))
      end
  end.

(** [createNetworkFirewall]; [networkFirewall] is
    [centralNetworkServices?.networkFirewall?.firewalls]. *)
Definition createNetworkFirewall (env : Env) (networkFirewall : option (list NfwFirewallConfig))
  (vpcItem : VpcConfig) (vpcStackInfo : NestedAseaStackInfo) (vpcId : string)
  (subnets : gmap string string) (policy : option PolicyRef) : M World unit :=
  let firewallsConfig :=
    option_map (List.filter (fun firewallConfig => String.eqb (fw_vpc firewallConfig) (vpc_name vpcItem)))
               networkFirewall in
  let firewallResources :=
    filterResourcesByType (resources vpcStackInfo) RESOURCE_TYPE.NETWORK_FIREWALL in
  match firewallResources, firewallsConfig with
  | [], _ => ret tt
  | _, None | _, Some [] =>
      addLogs WARN "No Firewall found in configuration and firewall present in resource mapping"
  | _, Some firewallsConfig =>
      for_each (createNetworkFirewall_body env vpcItem vpcStackInfo firewallResources vpcId
                                           subnets policy)
               firewallsConfig
  end.

End Firewall.
Export Firewall.

(** ** The gateway endpoint merger *)
Module Endpoints.

Definition nullish (v : JsVal) : bool :=
  match v with JUndef | JNull => true | _ => false end.

(** [v[1]] on a value that is neither [undefined] nor [null]. *)
Definition index1 (v : JsVal) : JsVal :=
  match v with
  | JArr l => nth 1 l JUndef
  | JStr s => match String.get 1 s with
              | Some c => JStr (String c EmptyString)
              | None => JUndef
              end
  | JObj fields => prop "1" fields
  | _ => JUndef
  end.

(** [v.at(-1)]: the last element of an array, the last character of a
    string; other values have no [at]. *)
Definition atLast (v : JsVal) : Outcome JsVal :=
  match v with
  | JArr l => Returned (List.last l JUndef)
  | JStr s => Returned (match String.get (String.length s - 1) s with
                        | Some c => JStr (String c EmptyString)
                        | None => JUndef
                        end)
  | JUndef | JNull => Thrown (TypeError "Cannot read properties of undefined (reading 'at')")
  | _ => Thrown (TypeError "at is not a function")
  end.

(** [cfnResource.resourceMetadata['Properties'].ServiceName['Fn::Join'][1].at(-1)] *)
Definition serviceNameLast (cfnResource : CfnResourceType) : Outcome JsVal :=
  let serviceName := prop "ServiceName" (Properties cfnResource) in
  if nullish serviceName
  then Thrown (TypeError "Cannot read properties of undefined (reading 'Fn::Join')")
  else
    let join := member "Fn::Join" serviceName in
    if nullish join
    then Thrown (TypeError "Cannot read properties of undefined (reading '1')")
    else atLast (index1 join).

(** [gatewayEndpointResources.find(...)] with the callback above, which
    may throw. *)
Fixpoint findEndpointResource (gatewayEndpointResources : list CfnResourceType)
  (endpointService : string) : Outcome (option CfnResourceType) :=
  match gatewayEndpointResources with
  | [] => Returned None
  | cfnResource :: rest =>
      match serviceNameLast cfnResource with
      | Thrown e => Thrown e
      | Returned v =>
          if strict_eq v (JStr ("." +:+ endpointService)) then Returned (Some cfnResource)
          else findEndpointResource rest endpointService
      end
  end.

(** [if (!list.find(item => item === routeTableId)) list.push(routeTableId)] *)
Definition pushIfNotFound (routeTableId : string) (l : list string) : list string :=
  if absent (List.find (fun item => String.eqb item routeTableId) l)
  then l ++ [routeTableId] else l.

(** The inner function [getS3DynamoDbRouteTableIds]; the two arrays it
    pushes to are threaded as a pair. *)
Definition getS3DynamoDbRouteTableIds (routeTableItem : RouteTableConfig)
  (routeTableId : string) (tables : list string * list string)
  : list string * list string :=
  fold_left
    (fun '(s3EndpointRouteTables, dynamodbEndpointRouteTables) routeTableEntryItem =>
       let s3EndpointRouteTables :=
         if bool_decide (target routeTableEntryItem = Some "s3")
         then pushIfNotFound routeTableId s3EndpointRouteTables
         else s3EndpointRouteTables in
       let dynamodbEndpointRouteTables :=
         if bool_decide (target routeTableEntryItem = Some "dynamodb")
         then pushIfNotFound routeTableId dynamodbEndpointRouteTables
         else dynamodbEndpointRouteTables in
       (s3EndpointRouteTables, dynamodbEndpointRouteTables))
    (orEmpty (routes routeTableItem)) tables.

(** The first loop of [gatewayEndpoints], over the route tables of the
    target. *)
Definition routeTableStep (env : Env) (vpcItem : VpcConfig)
  (tables : list string * list string) (routeTableItem : RouteTableConfig)
  : list string * list string :=
  let routeTableId :=
    getExternalResourceParameter env
      (getSsmPath env SsmResourceType.ROUTE_TABLE [vpc_name vpcItem; rt_name routeTableItem]) in
  match routeTableId with
  | Some id => if absent routeTableId then tables
               else getS3DynamoDbRouteTableIds routeTableItem id tables
  | None => tables
  end.

Definition endpointRouteTables (env : Env) (vpcItem : VpcConfig)
  (routeTables : list RouteTableConfig) : list string * list string :=
  fold_left (routeTableStep env vpcItem) routeTables ([], []).

(** [routeTableIds.includes(routeTableId)] *)
Definition includes (routeTableIds : list JsVal) (routeTableId : string) : bool :=
  existsb (fun v => strict_eq v (JStr routeTableId)) routeTableIds.

(** The [forEach] that pushes the missing identifiers onto the array the
    endpoint already holds. *)
Definition mergeRouteTableIds (routeTableIds : list JsVal) (accumulated : list string)
  : list JsVal :=
  fold_left (fun ids routeTableId =>
               if includes ids routeTableId then ids else ids ++ [JStr routeTableId])
            accumulated routeTableIds.

Definition gatewayEndpoints_body (env : Env) (vpcItem : VpcConfig)
  (gatewayEndpointResources : list CfnResourceType)
  (tables : list string * list string)
  (endpointItem : GatewayEndpointServiceConfig) : M World unit :=
  match findEndpointResource gatewayEndpointResources (service endpointItem) with
  | Thrown e => throw e
  | Returned None => ret tt
  | Returned (Some gatewayEndpointResource) =>
      let id := logicalResourceId gatewayEndpointResource in
      endpoint <- getResource id ;;
      let routeTableIds := readAttr endpoint "routeTableIds" in
      let accumulated :=
        if String.eqb (service endpointItem) "s3" then fst tables else snd tables in
      (if negb (truthy routeTableIds)
       then setAttr id "routeTableIds" (JArr (map JStr accumulated)) ;;;
            setAttr id "routeTableIds" routeTableIds
       else
         match routeTableIds, accumulated with
         | JArr ids, _ => setAttr id "routeTableIds" (JArr (mergeRouteTableIds ids accumulated))
         | _, [] => setAttr id "routeTableIds" routeTableIds
         | _, _ => throw (TypeError "routeTableIds.push is not a function")
         end) ;;;
      addSsmParameter
        (mkSsmParameterItem
           (pascalCase env ("SsmParam" +:+ pascalCase env (vpc_name vpcItem)
                            +:+ pascalCase env (service endpointItem) +:+ "EndpointId"))
           (getSsmPath env SsmResourceType.VPC_ENDPOINT [vpc_name vpcItem; service endpointItem])
           (cfnRef id)) ;;;
      addAseaResource VPC_ENDPOINT (vpc_name vpcItem +:+ "/" +:+ service endpointItem)
  end.

Definition gatewayEndpoints (env : Env) (vpcItem : VpcConfig)
  (vpcStackInfo : NestedAseaStackInfo) : M World unit :=
  let tables := endpointRouteTables env vpcItem (orEmpty (routeTables vpcItem)) in
  let gatewayEndpointResources :=
    filterResourcesByType (resources vpcStackInfo) RESOURCE_TYPE.VPC_ENDPOINT in
  match gatewayEndpointResources, gatewayEndpoints_endpoints vpcItem with
  | [], _ => ret tt
  | _, None => addLogs WARN "Endpoints are removed from configuration"
  | _, Some endpoints =>
      for_each (gatewayEndpoints_body env vpcItem gatewayEndpointResources tables) endpoints
  end.

End Endpoints.
Export Endpoints.

(** ** Security group rules *)
Module SecurityGroups.

(** The local type [SecurityGroupRuleInfo]. *)
Record SecurityGroupRuleInfo : Type := mkSecurityGroupRuleInfo {
  protocol : string;
  source : string;
  sourceValue : string;
  type : option string;
  to : option Z;
  from : option Z;
  sourceType : option string;
  description : option string
}.

(** [CfnSecurityGroup.IngressProperty], with the fields the handler fills. *)
Record IngressProperty : Type := mkIngressProperty {
  ipProtocol : string;
  ip_description : option string;
  fromPort : option Z;
  toPort : option Z;
  cidrIp : option string;
  cidrIpv6 : option string;
  sourceSecurityGroupId : option string;
  sourcePrefixListId : option string
}.

(** [x && x === y], as a condition. *)
Definition presentAndEqual (x y : JsVal) : bool :=
  truthy (js_and x (JBool (strict_eq x y))).

(** The body of the loop over [ingressRules], lines 487 to 533: the five
    flags and their conjunction. *)
Definition ingressRuleMatches (configIngressRule : SecurityGroupRuleInfo)
  (existingIngressRule : CfnResourceType) : bool :=
  let P := Properties existingIngressRule in
  let ipProtocol := presentAndEqual (prop "IpProtocol" P) (JStr (protocol configIngressRule)) in
  let fromPort :=
    if bool_decide (type configIngressRule = Some "ALL")
    then strict_eq (prop "FromPort" P) (of_num (from configIngressRule))
    else presentAndEqual (prop "FromPort" P) (of_num (from configIngressRule)) in
  let toPort :=
    if bool_decide (type configIngressRule = Some "ALL")
    then strict_eq (prop "ToPort" P) (of_num (to configIngressRule))
    else presentAndEqual (prop "ToPort" P) (of_num (to configIngressRule)) in
  let cidrIp := presentAndEqual (prop "CidrIp" P) (JStr (sourceValue configIngressRule)) in
  let sourceSecurityGroupId :=
    truthy (js_and (prop "SourceSecurityGroupId" P)
                   (JBool (strict_eq (member "Ref" (prop "SourceSecurityGroupId" P))
                                     (JStr (sourceValue configIngressRule))))) in
  ipProtocol && fromPort && toPort && (cidrIp || sourceSecurityGroupId).

(** [existingIngressRuleEntry] after the loop with its [break]. *)
Definition existingIngressRuleEntry (ingressRules : list CfnResourceType)
  (configIngressRule : SecurityGroupRuleInfo) : bool :=
  existsb (ingressRuleMatches configIngressRule) ingressRules.

(** [checkCidrFromSource] *)
Definition checkCidrFromSource (env : Env) (source : string) : option string :=
  let sourceType := if isValidIpv4Cidr env source then Some "cidrIpv4" else None in
  if isValidIpv6Cidr env source then Some "cidrIpv6" else sourceType.

Definition ruleIdentifier (vpcName securityGroupName direction : string)
  (rule : SecurityGroupRuleInfo) : string :=
  vpcName +:+ "/" +:+ securityGroupName +:+ "/" +:+ direction +:+ "/" +:+ source rule
  +:+ "-" +:+ show_num (from rule) +:+ "-" +:+ show_num (to rule) +:+ "-" +:+ protocol rule.

(** The rules pushed onto [existingIngressRulesToBeUpdated] for a rule that
    is not an existing one, lines 561 to 619. *)
Definition newIngressProperties (env : Env) (securityGroupPhysicalIdMap : gmap string string)
  (configIngressRule : SecurityGroupRuleInfo) : list IngressProperty :=
  let r := configIngressRule in
  let sourceCidrType := checkCidrFromSource env (source r) in
  (if bool_decide (type r = Some "ALL") then []
   else [mkIngressProperty (protocol r) (description r) (from r) (to r) None None None None])
  ++ (if bool_decide (sourceType r = Some "sg")
      then [mkIngressProperty (protocol r) (description r) None None None None
              (securityGroupPhysicalIdMap !! source r) None]
      else [])
  ++ (if bool_decide (sourceType r = Some "pl")
      then [mkIngressProperty (protocol r) (description r) None None None None None
              (Some (source r))]
      else [])
  ++ (if bool_decide (sourceType r = Some "subnet")
      then [mkIngressProperty (protocol r) (description r) (from r) (to r)
              (Some (sourceValue r)) None None None]
      else [])
  ++ (if bool_decide (sourceCidrType = Some "cidrIpv4")
      then [mkIngressProperty (protocol r) (description r) (from r) (to r)
              (Some (source r)) None None None]
      else [])
  ++ (if bool_decide (sourceCidrType = Some "cidrIpv6")
      then [mkIngressProperty (protocol r) (description r) (from r) (to r)
              None (Some (source r)) None None]
      else []).

(** The callback of [securityGroupIngressRules.forEach], lines 484 to 621;
    [existingIngressRulesToBeUpdated] is the local array it pushes to. *)
Definition classifyIngressRule (env : Env) (vpcName securityGroupName : string)
  (securityGroupPhysicalIdMap : gmap string string) (ingressRules : list CfnResourceType)
  (existingIngressRulesToBeUpdated : list IngressProperty)
  (configIngressRule : SecurityGroupRuleInfo) : M World (list IngressProperty) :=
  if existingIngressRuleEntry ingressRules configIngressRule
  then
    addAseaResource EC2_SECURITY_GROUP_INGRESS
      (ruleIdentifier vpcName securityGroupName "ingress" configIngressRule) ;;;
    ret existingIngressRulesToBeUpdated
  else
    ret (existingIngressRulesToBeUpdated
         ++ newIngressProperties env securityGroupPhysicalIdMap configIngressRule).

(** [(x && x === y) || true] *)
Definition equalOrTrue (x y : JsVal) : JsVal :=
  js_or (js_and x (JBool (strict_eq x y))) (JBool true).

(** The callback of [egressRules.find], lines 634 to 650. *)
Definition egressRuleMatches (configEgressRule : SecurityGroupRuleInfo)
  (existingEgressRule : CfnResourceType) : JsVal :=
  let P := Properties existingEgressRule in
  js_and
    (js_and
       (js_and
          (js_and (equalOrTrue (prop "IpProtocol" P) (JStr (protocol configEgressRule)))
                  (equalOrTrue (prop "FromPort" P) (of_num (from configEgressRule))))
          (equalOrTrue (prop "ToPort" P) (of_num (to configEgressRule))))
       (equalOrTrue (prop "CidrIp" P) (JStr (sourceValue configEgressRule))))
    (js_or (js_and (prop "SourceSecurityGroupId" P)
                   (JBool (strict_eq (member "Ref" (prop "SourceSecurityGroupId" P))
                                     (JStr (sourceValue configEgressRule)))))
           (JBool true)).

Definition existingEgressRuleEntry (egressRules : list CfnResourceType)
  (configEgressRule : SecurityGroupRuleInfo) : option CfnResourceType :=
  js_find (egressRuleMatches configEgressRule) egressRules.

(** The callback of [securityGroupEgressRules.forEach], lines 632 to 658. *)
Definition classifyEgressRule (vpcName securityGroupName : string)
  (egressRules : list CfnResourceType) (configEgressRule : SecurityGroupRuleInfo)
  : M World unit :=
  match existingEgressRuleEntry egressRules configEgressRule with
  | Some _ =>
      addAseaResource EC2_SECURITY_GROUP_EGRESS
        (ruleIdentifier vpcName securityGroupName "egress" configEgressRule)
  | None => ret tt
  end.

End SecurityGroups.
Export SecurityGroups.

(** ** Statements of the specification and test data *)
Module Spec.





Definition legacyIngress (port : Z) : CfnResourceType :=
  mkCfnResourceType RESOURCE_TYPE.SECURITY_GROUP_INGRESS "WebSgIngress0" "sgr-0web" []
    [("GroupId", JObj [("Ref", JStr "WebSg")]); ("IpProtocol", JStr "tcp");
     ("FromPort", JNum port); ("ToPort", JNum port); ("CidrIp", JStr "10.0.0.0/16")].

(** A record is of kind [kind] and carries the tag [Name = name]. *)
Definition kindAndName (kind name : string) (r : CfnResourceType) : Prop :=
  resourceType r = kind /\ taggedName name r.

(** [r] is the first record of [l] of that kind and name. *)
Definition firstOfKindAndName (kind name : string) (l : list CfnResourceType)
  (r : CfnResourceType) : Prop :=
  exists pre post,
    l = pre ++ r :: post /\ kindAndName kind name r
    /\ forall q, In q pre -> ~ kindAndName kind name q.

(** The frame of a merge of the records [ids]: the legacy records are as
    before, the template has the same resources, every attribute outside
    [owned] of every resource of the template is as before, and so is every
    resource of the template other than [ids]. *)
Definition preserves (ids owned : list string) (w w' : World) : Prop :=
  nestedStacksInfo w' = nestedStacksInfo w
  /\ (forall id, is_Some (template w' !! id) <-> is_Some (template w !! id))
  /\ (forall id attr, ~ In attr owned -> attrOf w' id attr = attrOf w id attr)
  /\ (forall id, ~ In id ids -> template w' !! id = template w !! id).

(** The logical identifiers of the subnet records of a container. *)
Definition subnetRecordIds (vpcStackInfo : NestedAseaStackInfo) : list string :=
  map logicalResourceId (filterResourcesByType (resources vpcStackInfo) RESOURCE_TYPE.SUBNET).

(** The scenario of the specification: a network tagged [Name = Prod] with
    one subnet tagged [Name = Prod-A]. *)
Definition scenarioVpcRecord : CfnResourceType :=
  mkCfnResourceType RESOURCE_TYPE.VPC "VpcProd" "vpc-0prod" [mkTag "Name" "Prod"]
    [("CidrBlock", JStr "10.0.0.0/16")].
Definition scenarioSubnetRecord : CfnResourceType :=
  mkCfnResourceType RESOURCE_TYPE.SUBNET "SubnetProdA" "subnet-0proda"
    [mkTag "Name" "Prod-A"] [("CidrBlock", JStr "10.0.1.0/24")].
Definition scenarioContainer : NestedAseaStackInfo :=
  mkNestedAseaStackInfo "Phase1-VpcStackProd" "VpcStackProd"
    [scenarioVpcRecord; scenarioSubnetRecord].
Definition scenarioVpc : VpcConfig :=
  mkVpcConfig "Prod" "us-east-1" (Some ["10.1.0.0/16"]) (Some true) (Some true)
    (Some "default")
    (Some [mkSubnetConfig "Prod-A" (Some "10.1.1.0/24") (Some (AzLetter "a")) (Some false)])
    None None None.
Definition scenarioWorld : World :=
  mkWorld
    {[ "VpcProd" := {[ "cidrBlock" := JStr "10.0.0.0/16";
                       "tags" := JArr [JObj [("key", JStr "Name"); ("value", JStr "Prod")]] ]};
       "SubnetProdA" := {[ "cidrBlock" := JStr "10.0.1.0/24";
                           "vpcId" := JStr "Ref:VpcProd" ]} ]}
    [] [] [] [] [scenarioContainer].

(** A firewall of the network [Prod] with its logging configuration, the
    policy created in the run, and an environment in which an earlier run
    exported the policy. *)
Definition firewallRecord : CfnResourceType :=
  mkCfnResourceType RESOURCE_TYPE.NETWORK_FIREWALL "FirewallProd" "fw-0prod" []
    [("FirewallName", JStr "fw-prod"); ("FirewallPolicyArn", JStr "arn:legacy")].
Definition firewallLoggingRecord : CfnResourceType :=
  mkCfnResourceType RESOURCE_TYPE.NETWORK_FIREWALL_LOGGING "FirewallProdLogging" "" [] [].
Definition firewallContainer : NestedAseaStackInfo :=
  mkNestedAseaStackInfo "Phase1-VpcStackProd" "VpcStackProd"
    [scenarioVpcRecord; scenarioSubnetRecord; firewallRecord; firewallLoggingRecord].
Definition firewallItemProd (subnet : string) : NfwFirewallConfig :=
  mkNfwFirewallConfig "fw-prod" None "inspect" [subnet] "Prod" (Some true) None None
    (Some [mkNfwLoggingConfig "s3" "ALERT"]).
Definition firewallWorld : World :=
  mkWorld
    {[ "FirewallProd" := {[ "firewallPolicyArn" := JStr "arn:legacy" ]};
       "FirewallProdLogging" := ∅ ]}
    [] [] [] [] [firewallContainer].
Definition policyInRun : PolicyRef := mkPolicyRef "inspect" "Ref:PolicyInspect".
Definition priorExportEnv : Env :=
  mkEnv (fun s => s)
        (fun _ parts => "/accelerator/network/" +:+ String.concat "/" parts)
        (fun name => if String.eqb name "/accelerator/network/inspect"
                     then Some "arn:prior" else None)
        (fun _ => true)
        (fun _ => false)
        "firewall-logs".

(** A route table routes to a service. *)
Definition routesTo (endpointService : string) (routeTableItem : RouteTableConfig) : Prop :=
  exists routeTableEntryItem,
    In routeTableEntryItem (orEmpty (routes routeTableItem))
    /\ target routeTableEntryItem = Some endpointService.

(** [routeTableId] is the resolved identifier of a target route table that
    routes to the service. *)
Definition resolvedFor (env : Env) (vpcItem : VpcConfig) (endpointService routeTableId : string)
  : Prop :=
  exists routeTableItem,
    In routeTableItem (orEmpty (routeTables vpcItem))
    /\ getExternalResourceParameter env
         (getSsmPath env SsmResourceType.ROUTE_TABLE [vpc_name vpcItem; rt_name routeTableItem])
       = Some routeTableId
    /\ routeTableId <> EmptyString
    /\ routesTo endpointService routeTableItem.

(** The list of one service through the routes of a route table. *)
Definition pushForService (endpointService routeTableId : string) (l : list string)
  (routeTableEntryItem : RouteTableEntryConfig) : list string :=
  if bool_decide (target routeTableEntryItem = Some endpointService)
  then pushIfNotFound routeTableId l else l.

(** The pair of lists chosen by service name. *)
Definition tablesFor (endpointService : string) (tables : list string * list string)
  : list string :=
  if String.eqb endpointService "s3" then fst tables else snd tables.

(** The accumulated list of a service, as [gatewayEndpoints] chooses it. *)
Definition accumulatedFor (env : Env) (vpcItem : VpcConfig) (endpointService : string)
  : list string :=
  let tables := endpointRouteTables env vpcItem (orEmpty (routeTables vpcItem)) in
  if String.eqb endpointService "s3" then fst tables else snd tables.

(** The identifiers the merge of an endpoint adds to the list [old] that the
    endpoint record holds: each resolved identifier of the service that [old]
    does not hold, once. *)
Definition addedTo (env : Env) (vpcItem : VpcConfig) (endpointService : string)
  (old : list JsVal) (added : list string) : Prop :=
  NoDup added
  /\ forall routeTableId,
       In routeTableId added
       <-> resolvedFor env vpcItem endpointService routeTableId
           /\ ~ In (JStr routeTableId) old.

(** The value an endpoint record holds after a turn of the merger, from the
    value [v] it held: a list is merged with the accumulated identifiers. *)
Definition mergedValue (accumulated : list string) (v : JsVal) : JsVal :=
  match v with
  | JArr ids => JArr (mergeRouteTableIds ids accumulated)
  | _ => v
  end.

(** What the template holds for an endpoint record lets the merger take its
    turn: a list of route tables, or nothing. *)
Definition listOrNothing (v : JsVal) : Prop :=
  (exists ids, v = JArr ids) \/ truthy v = false.

(** Every endpoint of the target is looked up without error, and the record
    it is matched to, if any, is in the template with a list of route tables
    or nothing. *)
Definition endpointsWellFormed (gatewayEndpointResources : list CfnResourceType)
  (endpoints : list GatewayEndpointServiceConfig) (w : World) : Prop :=
  forall endpointItem, In endpointItem endpoints ->
    findEndpointResource gatewayEndpointResources (service endpointItem) = Returned None
    \/ exists r v,
         findEndpointResource gatewayEndpointResources (service endpointItem)
         = Returned (Some r)
         /\ attrOf w (logicalResourceId r) "routeTableIds" = Some v
         /\ listOrNothing v.

(** A network with two route tables that route to S3, one of which also
    routes to DynamoDB, a third route table that was not exported, and the
    legacy S3 endpoint, which already has a route table. *)
Definition endpointEnv : Env :=
  mkEnv (fun s => s)
        (fun _ parts => "/accelerator/network/" +:+ String.concat "/" parts)
        (fun name => if String.eqb name "/accelerator/network/Prod/Rt-A" then Some "rtb-a"
                     else if String.eqb name "/accelerator/network/Prod/Rt-B" then Some "rtb-b"
                     else None)
        (fun _ => true)
        (fun _ => false)
        "firewall-logs".
Definition endpointVpc (endpoints : list GatewayEndpointServiceConfig) : VpcConfig :=
  mkVpcConfig "Prod" "us-east-1" (Some ["10.1.0.0/16"]) None None None None None
    (Some [mkRouteTableConfig "Rt-A"
             (Some [mkRouteTableEntryConfig "s3" (Some "s3");
                    mkRouteTableEntryConfig "s3-again" (Some "s3");
                    mkRouteTableEntryConfig "ddb" (Some "dynamodb")]);
           mkRouteTableConfig "Rt-B" (Some [mkRouteTableEntryConfig "s3" (Some "s3")]);
           mkRouteTableConfig "Rt-C" (Some [mkRouteTableEntryConfig "s3" (Some "s3")])])
    (Some endpoints).
Definition serviceNameOf (endpointService : string) : JsVal :=
  JObj [("Fn::Join",
         JArr [JStr EmptyString;
               JArr [JStr "com.amazonaws."; JObj [("Ref", JStr "AWS::Region")];
                     JStr ("." +:+ endpointService)]])].
Definition s3EndpointRecord : CfnResourceType :=
  mkCfnResourceType RESOURCE_TYPE.VPC_ENDPOINT "S3Endpoint" "vpce-0s3" []
    [("ServiceName", serviceNameOf "s3")].
Definition endpointContainer : NestedAseaStackInfo :=
  mkNestedAseaStackInfo "Phase1-VpcStackProd" "VpcStackProd"
    [scenarioVpcRecord; s3EndpointRecord].
Definition endpointWorld (routeTableIds : option JsVal) : World :=
  mkWorld
    {[ "S3Endpoint" :=
         match routeTableIds with
         | Some ids => {[ "routeTableIds" := ids; "vpcEndpointType" := JStr "Gateway" ]}
         | None => {[ "vpcEndpointType" := JStr "Gateway" ]}
         end ]}
    [] [] [] [] [endpointContainer].

(** The policy reference of a firewall is resolved by the policy created in
    the run, or by the parameter an earlier run exported. *)
Definition resolvedInRun (policy : option PolicyRef) (firewallItem : NfwFirewallConfig)
  (arn : string) : Prop :=
  exists p, policy = Some p /\ policy_name p = firewallPolicy firewallItem
            /\ policy_arn p = arn /\ arn <> EmptyString.
Definition resolvedByLookup (env : Env) (firewallItem : NfwFirewallConfig) (arn : string)
  : Prop :=
  getExternalResourceParameter env
    (getSsmPath env SsmResourceType.NFW_POLICY [firewallPolicy firewallItem]) = Some arn
  /\ arn <> EmptyString.

(** The identifier the firewall is merged with: that of the policy created
    in the run when it resolves, else the exported one. *)
Definition policyResolves (env : Env) (policy : option PolicyRef)
  (firewallItem : NfwFirewallConfig) (arn : string) : Prop :=
  resolvedInRun policy firewallItem arn
  \/ ((forall a, ~ resolvedInRun policy firewallItem a)
      /\ resolvedByLookup env firewallItem arn).

End Spec.
Export Spec.

(** ** Judgements on methods *)
Module Triples.

(** A method keeps the frame when the world it leaves, returning or
    throwing, is within the frame of the world it was given. *)
Definition keeps {A : Type} (ids owned : list string) (m : M World A) : Prop :=
  forall w, preserves ids owned w (fst (m w)).


(** The template has a resource of that logical identifier. *)
Definition hasResource (logicalId : string) (w : World) : Prop :=
  is_Some (template w !! logicalId).

(** The method does not touch the world. *)
Definition pureAt {A : Type} (m : M World A) (a : A) : Prop :=
  forall w, m w = (w, Returned a).

End Triples.
Export Triples.

(** ** Further statements *)
Module Further.




(** The subnets of the target that a subnet record of the container is named
    after, in the order of the target. *)
Definition matchedSubnets (vpcStackInfo : NestedAseaStackInfo) (items : list SubnetConfig)
  : list SubnetConfig :=
  List.filter (fun subnetItem =>
                 bool_decide (is_Some (getSubnetResourceByTag (subnet_name subnetItem)
                                                              vpcStackInfo)))
              items.

(** The template includes every subnet record that a subnet of the target is
    named after. *)
Definition subnetRecordsIncluded (vpcStackInfo : NestedAseaStackInfo)
  (items : list SubnetConfig) (w : World) : Prop :=
  forall subnetItem r,
    In subnetItem items ->
    getSubnetResourceByTag (subnet_name subnetItem) vpcStackInfo = Some r ->
    hasResource (logicalResourceId r) w.


End Further.
Export Further.

(** ** The rules of the security groups *)
Module Sources.

(** A source of a rule of the target: a CIDR as a string, the subnets of a
    network, security groups of the network, or prefix lists.  The guards
    [subnetSourceConfig.is] and [securityGroupSourceConfig.is] tell the
    objects apart by their keys. *)
Inductive SourceItem : Type :=
  | StringSource (s : string)
  | SubnetSource (account vpc : string) (subnets : list string)
  | SecurityGroupSource (securityGroups : list string)
  | PrefixListSource (prefixLists : list string).

(** [SecurityGroupRuleConfig] and [SecurityGroupConfig], with the fields the
    handler reads. *)
Record SecurityGroupRuleConfig : Type := mkSecurityGroupRuleConfig {
  rule_description : option string;
  types : option (list string);
  tcpPorts : option (list Z);
  udpPorts : option (list Z);
  sources : list SourceItem
}.

Record SecurityGroupConfig : Type := mkSecurityGroupConfig {
  sg_name : string;
  inboundRules : list SecurityGroupRuleConfig;
  outboundRules : list SecurityGroupRuleConfig
}.

(** The collaborators of the rule functions that the handler imports:
    [nonEmptyString.is] of the configuration package; [getVpcConfig] over
    [scope.vpcsInScope] and the expression
    [getSubnetConfig(sourceVpcItem, subnet).ipv4CidrBlock!], a string by its
    declared type, of the getter utilities, which may throw; and
    [filterResourcesByRef] of the base class. *)
Record Getters : Type := mkGetters {
  nonEmptyString_is : string -> bool;
  getVpcConfig : string -> Outcome VpcConfig;
  getSubnetConfig_ipv4CidrBlock : VpcConfig -> string -> Outcome string;
  filterResourcesByRef : list CfnResourceType -> string -> string -> list CfnResourceType
}.

(** The table [TCP_PROTOCOLS_PORT], lines 64 to 74, and a lookup in it: a
    rule type that is not a key of the table gives [undefined]. *)
Definition TCP_PROTOCOLS_PORT : list (string * Z) :=
  [("RDP", 3389); ("SSH", 22); ("HTTP", 80); ("HTTPS", 443); ("MSSQL", 1433);
   ("MYSQL/AURORA", 3306); ("REDSHIFT", 5439); ("POSTGRESQL", 5432); ("ORACLE-RDS", 1521)].

Definition portOf (ruleType : string) : option Z :=
  option_map snd (List.find (fun entry => String.eqb (fst entry) ruleType) TCP_PROTOCOLS_PORT).

(** The values of [cdk.aws_ec2.Protocol]. *)
Definition Protocol_TCP : string := "tcp".
Definition Protocol_UDP : string := "udp".
Definition Protocol_ALL : string := "-1".

(** The parameter [ruleProps]. *)
Record RuleProps : Type := mkRuleProps {
  rp_protocol : string;
  rp_type : option string;
  rp_from : option Z;
  rp_to : option Z
}.

(** A value computed outside the instance, or the error it threw. *)
Definition lift {A : Type} (o : Outcome A) : M World A := fun w => (w, o).

(** [{ ...ruleProps, source, sourceValue, sourceType, description }] *)
Definition ruleOf (ruleProps : RuleProps) (securityGroupRuleItem : SecurityGroupRuleConfig)
  (source sourceValue : string) (sourceType : option string) : SecurityGroupRuleInfo :=
  mkSecurityGroupRuleInfo (rp_protocol ruleProps) source sourceValue (rp_type ruleProps)
    (rp_to ruleProps) (rp_from ruleProps) sourceType (rule_description securityGroupRuleItem).

(** The callback of [securityGroupRuleItem.sources.forEach], lines 352 to
    384; [securityGroupRules] is the local array it pushes to.  No branch
    handles a prefix list. *)
Definition processSource (g : Getters) (securityGroupsMap : gmap string string)
  (securityGroupRuleItem : SecurityGroupRuleConfig) (ruleProps : RuleProps)
  (securityGroupRules : list SecurityGroupRuleInfo) (sourceItem : SourceItem)
  : M World (list SecurityGroupRuleInfo) :=
  match sourceItem with
  | StringSource s =>
      if nonEmptyString_is g s
      then ret (securityGroupRules ++ [ruleOf ruleProps securityGroupRuleItem s s None])
      else ret securityGroupRules
  | SubnetSource _ vpc subnets =>
      sourceVpcItem <- lift (getVpcConfig g vpc) ;;
      for_fold (fun rules subnet =>
                  cidr <- lift (getSubnetConfig_ipv4CidrBlock g sourceVpcItem subnet) ;;
                  ret (rules ++ [ruleOf ruleProps securityGroupRuleItem
                                        (vpc_name sourceVpcItem +:+ "/" +:+ subnet) cidr
                                        (Some "subnet")]))
               securityGroupRules subnets
  | SecurityGroupSource securityGroups =>
      ret (fold_left
             (fun rules securityGroup =>
                match securityGroupsMap !! securityGroup with
                | Some id =>
                    if absent (Some id) then rules
                    else rules ++ [ruleOf ruleProps securityGroupRuleItem securityGroup id
                                          (Some "sg")]
                | None => rules
                end)
             securityGroups securityGroupRules)
  | PrefixListSource _ => ret securityGroupRules
  end.

Definition processSecurityGroupSources (g : Getters) (securityGroupsMap : gmap string string)
  (securityGroupRuleItem : SecurityGroupRuleConfig) (ruleProps : RuleProps)
  : M World (list SecurityGroupRuleInfo) :=
  for_fold (processSource g securityGroupsMap securityGroupRuleItem ruleProps) []
           (sources securityGroupRuleItem).

Definition processTcpSources (g : Getters) (securityGroupsMap : gmap string string)
  (securityGroupRuleItem : SecurityGroupRuleConfig) : M World (list SecurityGroupRuleInfo) :=
  for_fold (fun securityGroupRules tcpPort =>
              rules <- processSecurityGroupSources g securityGroupsMap securityGroupRuleItem
                         (mkRuleProps Protocol_TCP None (Some tcpPort) (Some tcpPort)) ;;
              ret (securityGroupRules ++ rules))
           [] (orEmpty (tcpPorts securityGroupRuleItem)).

Definition processUdpSources (g : Getters) (securityGroupsMap : gmap string string)
  (securityGroupRuleItem : SecurityGroupRuleConfig) : M World (list SecurityGroupRuleInfo) :=
  for_fold (fun securityGroupRules tcpPort =>
              rules <- processSecurityGroupSources g securityGroupsMap securityGroupRuleItem
                         (mkRuleProps Protocol_UDP None (Some tcpPort) (Some tcpPort)) ;;
              ret (securityGroupRules ++ rules))
           [] (orEmpty (udpPorts securityGroupRuleItem)).

(** The properties of the rules of one rule type, lines 414 to 426. *)
Definition typeRuleProps (ruleType : string) : RuleProps :=
  if String.eqb ruleType "ALL"
  then mkRuleProps Protocol_ALL (Some ruleType) None None
  else mkRuleProps Protocol_TCP (Some ruleType) (portOf ruleType) (portOf ruleType).

Definition processTypeSources (g : Getters) (securityGroupsMap : gmap string string)
  (securityGroupRuleItem : SecurityGroupRuleConfig) : M World (list SecurityGroupRuleInfo) :=
  for_fold (fun securityGroupRules ruleType =>
              rules <- processSecurityGroupSources g securityGroupsMap securityGroupRuleItem
                         (typeRuleProps ruleType) ;;
              ret (securityGroupRules ++ rules))
           [] (orEmpty (types securityGroupRuleItem)).

(** [rules.push(...processTcpSources(item), ...processUdpSources(item),
    ...processTypeSources(item))]: what is pushed for one rule of the
    target. *)
Definition rulesOf (g : Getters) (securityGroupsMap : gmap string string)
  (securityGroupRuleItem : SecurityGroupRuleConfig) : M World (list SecurityGroupRuleInfo) :=
  tcp <- processTcpSources g securityGroupsMap securityGroupRuleItem ;;
  udp <- processUdpSources g securityGroupsMap securityGroupRuleItem ;;
  byType <- processTypeSources g securityGroupsMap securityGroupRuleItem ;;
  ret (tcp ++ udp ++ byType).

(** The loop over [securityGroupItem.inboundRules], lines 469 to 475. *)
Definition inboundRulesOf (g : Getters) (securityGroupsMap : gmap string string)
  (securityGroupItem : SecurityGroupConfig) : M World (list SecurityGroupRuleInfo) :=
  for_fold (fun securityGroupIngressRules ingressRuleItem =>
              rules <- rulesOf g securityGroupsMap ingressRuleItem ;;
              ret (securityGroupIngressRules ++ rules))
           [] (inboundRules securityGroupItem).

(** An [IngressProperty] as the value assigned to the template: the keys
    that were given a value. *)
Definition ingressPropertyVal (p : IngressProperty) : JsVal :=
  let field {A : Type} (k : string) (f : A -> JsVal) (o : option A) :=
    match o with Some a => [(k, f a)] | None => [] end in
  JObj ([("ipProtocol", JStr (ipProtocol p))]
        ++ field "description" JStr (ip_description p)
        ++ field "fromPort" JNum (fromPort p)
        ++ field "toPort" JNum (toPort p)
        ++ field "cidrIp" JStr (cidrIp p)
        ++ field "cidrIpv6" JStr (cidrIpv6 p)
        ++ field "sourceSecurityGroupId" JStr (sourceSecurityGroupId p)
        ++ field "sourcePrefixListId" JStr (sourcePrefixListId p)).

(** One turn of the loop over [securityGroupItem.outboundRules], lines 476
    to 659: the rules of the outbound rule are added to the egress rules
    gathered so far; then every ingress rule of the group is classified, the
    new ones are assigned to the security group, and every egress rule
    gathered so far is classified. *)
Definition outboundTurn (env : Env) (g : Getters) (vpcItem : VpcConfig)
  (securityGroupItem : SecurityGroupConfig) (logicalId : string)
  (securityGroupsMap securityGroupPhysicalIdMap : gmap string string)
  (ingressRules egressRules : list CfnResourceType)
  (securityGroupIngressRules securityGroupEgressRules : list SecurityGroupRuleInfo)
  (egressRuleItem : SecurityGroupRuleConfig) : M World (list SecurityGroupRuleInfo) :=
  rules <- rulesOf g securityGroupsMap egressRuleItem ;;
  let securityGroupEgressRules := securityGroupEgressRules ++ rules in
  existingIngressRulesToBeUpdated <-
    for_fold (classifyIngressRule env (vpc_name vpcItem) (sg_name securityGroupItem)
                                  securityGroupPhysicalIdMap ingressRules)
             [] securityGroupIngressRules ;;
  (if 0 <? Z.of_nat (length existingIngressRulesToBeUpdated)
   then _ <- getResource logicalId ;;
        setAttr logicalId "securityGroupIngress"
                (JArr (map ingressPropertyVal existingIngressRulesToBeUpdated))
   else ret tt) ;;;
  for_each (classifyEgressRule (vpc_name vpcItem) (sg_name securityGroupItem) egressRules)
           securityGroupEgressRules ;;;
  ret securityGroupEgressRules.

(** The body of the second loop of [createSecurityGroups], lines 455 to
    659, with the two maps that the first loop filled. *)
Definition securityGroupRules_body (env : Env) (g : Getters) (vpcItem : VpcConfig)
  (vpcStackInfo : NestedAseaStackInfo)
  (securityGroupsMap securityGroupPhysicalIdMap : gmap string string)
  (securityGroupItem : SecurityGroupConfig) : M World unit :=
  let logicalId := securityGroupsMap !! sg_name securityGroupItem in
  match logicalId with
  | Some id =>
      if absent logicalId then ret tt
      else
        let egressRules :=
          filterResourcesByRef g
            (filterResourcesByType (resources vpcStackInfo) RESOURCE_TYPE.SECURITY_GROUP_EGRESS)
            "GroupId" id in
        let ingressRules :=
          filterResourcesByRef g
            (filterResourcesByType (resources vpcStackInfo) RESOURCE_TYPE.SECURITY_GROUP_INGRESS)
            "GroupId" id in
        securityGroupIngressRules <- inboundRulesOf g securityGroupsMap securityGroupItem ;;
        _ <- for_fold (outboundTurn env g vpcItem securityGroupItem id securityGroupsMap
                                    securityGroupPhysicalIdMap ingressRules egressRules
                                    securityGroupIngressRules)
                      [] (outboundRules securityGroupItem) ;;
        ret tt
  | None => ret tt
  end.

(** Where a rule of the group comes from: the properties it was built with
    and a source of the rule of the target, which is a string, the subnets
    of a network, or a security group that the first loop matched. *)
Definition ruleFrom (securityGroupsMap : gmap string string)
  (securityGroupRuleItem : SecurityGroupRuleConfig) (ruleProps : RuleProps)
  (rule : SecurityGroupRuleInfo) : Prop :=
  protocol rule = rp_protocol ruleProps
  /\ type rule = rp_type ruleProps
  /\ from rule = rp_from ruleProps
  /\ to rule = rp_to ruleProps
  /\ description rule = rule_description securityGroupRuleItem
  /\ ((sourceType rule = None
       /\ In (StringSource (source rule)) (sources securityGroupRuleItem)
       /\ sourceValue rule = source rule)
      \/ (sourceType rule = Some "subnet"
          /\ exists account vpc subnets,
               In (SubnetSource account vpc subnets) (sources securityGroupRuleItem))
      \/ (sourceType rule = Some "sg"
          /\ securityGroupsMap !! source rule = Some (sourceValue rule)
          /\ sourceValue rule <> EmptyString
          /\ exists securityGroups,
               In (SecurityGroupSource securityGroups) (sources securityGroupRuleItem)
               /\ In (source rule) securityGroups)).

(** A method leaves the instance and the stack as they are, whether it
    returns or throws. *)
Definition unchanging {A : Type} (m : M World A) : Prop := forall w, fst (m w) = w.

(** The registry entries of the ingress rules. *)
Definition isIngressEntry (entry : AseaResourceType * string) : bool :=
  match fst entry with EC2_SECURITY_GROUP_INGRESS => true | _ => false end.

(** The registry entries of the ingress rules of a group that a legacy rule
    agrees with, and the properties of the others: what one classification
    of the ingress rules registers and what it assigns. *)
Definition existingIngressEntries (vpcItem : VpcConfig) (securityGroupItem : SecurityGroupConfig)
  (ingressRules : list CfnResourceType) (rules : list SecurityGroupRuleInfo)
  : list (AseaResourceType * string) :=
  map (fun rule => (EC2_SECURITY_GROUP_INGRESS,
                    ruleIdentifier (vpc_name vpcItem) (sg_name securityGroupItem) "ingress" rule))
      (List.filter (existingIngressRuleEntry ingressRules) rules).

Definition newIngressRules (env : Env) (securityGroupPhysicalIdMap : gmap string string)
  (ingressRules : list CfnResourceType) (rules : list SecurityGroupRuleInfo)
  : list IngressProperty :=
  flat_map (newIngressProperties env securityGroupPhysicalIdMap)
           (List.filter (fun rule => negb (existingIngressRuleEntry ingressRules rule)) rules).

(** Test data: a security group [Web] with two inbound rules, HTTPS from a
    CIDR that a legacy rule has, SSH from a prefix list and from a security
    group, and two outbound rules. *)
Definition testGetters : Getters :=
  mkGetters (fun s => negb (String.eqb s EmptyString))
            (fun _ => Thrown (Error "Configuration validation failed at runtime."))
            (fun _ _ => Thrown (Error "Configuration validation failed at runtime."))
            (fun l key ref =>
               List.filter (fun r => strict_eq (member "Ref" (prop key (Properties r)))
                                               (JStr ref)) l).
Definition webInbound : list SecurityGroupRuleConfig :=
  [mkSecurityGroupRuleConfig (Some "web") None (Some [443]) None [StringSource "10.0.0.0/16"];
   mkSecurityGroupRuleConfig (Some "admin") (Some ["SSH"]) None None
     [PrefixListSource ["pl-admin"]; SecurityGroupSource ["Mgmt"; "Unknown"]]].
Definition anyOutbound : SecurityGroupRuleConfig :=
  mkSecurityGroupRuleConfig None (Some ["ALL"]) None None [StringSource "0.0.0.0/0"].
Definition webGroup (outbound : list SecurityGroupRuleConfig) : SecurityGroupConfig :=
  mkSecurityGroupConfig "Web" webInbound outbound.
Definition groupsMap : gmap string string := {[ "Web" := "WebSg"; "Mgmt" := "MgmtSg" ]}.
Definition groupsPhysicalIdMap : gmap string string := {[ "Web" := "sg-0web"; "Mgmt" := "sg-0mgmt" ]}.
Definition groupContainer : NestedAseaStackInfo :=
  mkNestedAseaStackInfo "Phase1-VpcStackProd" "VpcStackProd" [legacyIngress 443].
Definition groupWorld : World :=
  mkWorld {[ "WebSg" := {[ "securityGroupIngress" := JArr [JObj [("ipProtocol", JStr "icmp")]] ]} ]}
          [] [] [] [] [groupContainer].

(** The world after [scope.addAseaResource] was called for each of
    [entries]. *)
Definition withRegistered (entries : list (AseaResourceType * string)) (w : World) : World :=
  set_aseaResources (fun l => l ++ entries) w.

(** An environment in which the two CIDRs of the test data are valid. *)
Definition groupEnv : Env :=
  mkEnv (fun s => s)
        (fun _ parts => "/accelerator/network/" +:+ String.concat "/" parts)
        (fun _ => None)
        (fun s => String.eqb s "10.0.0.0/16" || String.eqb s "0.0.0.0/0")
        (fun _ => false)
        "firewall-logs".

End Sources.
Export Sources.

(** ** The references of a firewall policy to its rule groups *)
Module Policy.

(** [NfwStatefulRuleGroupReferenceConfig], and the reference handed to the
    policy construct. *)
Record NfwStatefulRuleGroupReferenceConfig : Type := mkNfwStatefulRuleGroupReferenceConfig {
  reference_name : string;
  priority : option Z
}.

Record RuleGroupReference : Type := mkRuleGroupReference {
  resourceArn : string;
  reference_priority : option Z
}.

(** [getRuleGroupReferences], lines 917 to 931.  [ruleGroupPath name] is
    [this.scope.getSsmPath(SsmResourceType.NFW_RULE_GROUP, [name])]; the map
    is the one [createNetworkFirewallRuleGroups] returned, if any. *)
Definition getRuleGroupReferences (ruleGroupPath : string -> string)
  (ruleGroupReferences : list NfwStatefulRuleGroupReferenceConfig)
  (ruleGroupMap : option (gmap string string)) : list RuleGroupReference :=
  fold_left
    (fun references reference =>
       let groupArn :=
         match ruleGroupMap with
         | Some m => m !! reference_name reference
         | None => None
         end in
       let groupArn :=
         if absent groupArn then Some (ruleGroupPath (reference_name reference))
         else groupArn in
       match groupArn with
       | Some arn =>
           if absent groupArn then references
           else references ++ [mkRuleGroupReference arn (priority reference)]
       | None => references
       end)
    ruleGroupReferences [].

(** The rule group of a reference as created in the run, if any. *)
Definition createdInRun (ruleGroupMap : option (gmap string string)) (name : string)
  : option string :=
  match ruleGroupMap with
  | Some m => match m !! name with
              | Some arn => if String.eqb arn EmptyString then None else Some arn
              | None => None
              end
  | None => None
  end.

End Policy.
Export Policy.

(** * Properties *)

(** ** The reference exporter *)









(** With twelve export calls, writes 6 to 9 depend on write 5, writes 11 and
    12 on write 10, and writes 1 to 5 on none. *)
Example createSsmParameters_twelve :
  exists w',
    createSsmParameters twelveWorld = (w', Returned tt)
    /\ map (dependsOnPositions 0 w') [1; 2; 3; 4; 5] = replicate 5 (Some [])
    /\ map (dependsOnPositions 0 w') [6; 7; 8; 9] = replicate 4 (Some [5])
    /\ map (dependsOnPositions 0 w') [11; 12] = replicate 2 (Some [10]).
Proof. eexists. split; [vm_compute; reflexivity|]. vm_compute. auto. Qed.



(** ** Security group rules *)

Lemma truthy_js_and a b : truthy (js_and a b) = truthy a && truthy b.
Proof. unfold js_and. destruct (truthy a) eqn:Ha; [reflexivity | exact Ha]. Qed.

Lemma truthy_js_or a b : truthy (js_or a b) = truthy a || truthy b.
Proof. unfold js_or. destruct (truthy a) eqn:Ha; [exact Ha | reflexivity]. Qed.

Lemma truthy_or_true a : truthy (js_or a (JBool true)) = true.
Proof. rewrite truthy_js_or. apply orb_true_r. Qed.

Lemma egressRuleMatches_truthy configEgressRule existingEgressRule :
  truthy (egressRuleMatches configEgressRule existingEgressRule) = true.
Proof.
  unfold egressRuleMatches, equalOrTrue.
  by rewrite !truthy_js_and, !truthy_or_true.
Qed.

(** C2: whatever the protocol, ports, CIDR and source security group of the
    first legacy egress rule of the security group, the match predicate is
    truthy on it, [find] returns it, and the configured egress rule is
    registered as an existing one. *)
Theorem egress_rule_always_existing (vpcName securityGroupName : string)
  (configEgressRule : SecurityGroupRuleInfo)
  (firstRule : CfnResourceType) (otherRules : list CfnResourceType) (w : World) :
  truthy (egressRuleMatches configEgressRule firstRule) = true
  /\ existingEgressRuleEntry (firstRule :: otherRules) configEgressRule = Some firstRule
  /\ classifyEgressRule vpcName securityGroupName (firstRule :: otherRules) configEgressRule w
     = (set_aseaResources
          (fun l => l ++ [(EC2_SECURITY_GROUP_EGRESS,
                           ruleIdentifier vpcName securityGroupName "egress" configEgressRule)])
          w,
        Returned tt).
Proof.
  assert (Hfind : existingEgressRuleEntry (firstRule :: otherRules) configEgressRule
                  = Some firstRule).
  { unfold existingEgressRuleEntry. simpl. by rewrite egressRuleMatches_truthy. }
  split; [apply egressRuleMatches_truthy|]. split; [exact Hfind|].
  unfold classifyEgressRule. rewrite Hfind. reflexivity.
Qed.

Lemma strict_eq_str x s : strict_eq x (JStr s) = true <-> x = JStr s.
Proof.
  destruct x; simpl; try (split; [discriminate | congruence]).
  rewrite String.eqb_eq. split; congruence.
Qed.


















(** ** The matcher *)

Lemma nameTag_found name (r : CfnResourceType) :
  bool_decide (is_Some (List.find (isNameTag name) (Tags r))) = true <-> taggedName name r.
Proof.
  rewrite bool_decide_eq_true. unfold taggedName. split.
  - intros [t Ht]. apply find_some in Ht as [Hin Ht].
    unfold isNameTag in Ht. apply andb_true_iff in Ht as [Hk Hv].
    apply String.eqb_eq in Hk, Hv. destruct t as [k v]; simpl in *. by subst.
  - intros Hin. destruct (List.find (isNameTag name) (Tags r)) as [t|] eqn:Hf; [by exists t|].
    apply (find_none _ _ Hf) in Hin. unfold isNameTag in Hin. simpl in Hin.
    by rewrite !String.eqb_refl in Hin.
Qed.

(** [find] over a [filter] returns the first element that passes both. *)
Lemma find_filter_first {A : Type} (f g : A -> bool) (l : list A) (x : A) :
  List.find f (List.filter g l) = Some x ->
  exists pre post,
    l = pre ++ x :: post /\ g x = true /\ f x = true
    /\ forall y, In y pre -> ~ (g y = true /\ f y = true).
Proof.
  induction l as [|a l IH]; simpl; [discriminate|].
  destruct (g a) eqn:Hg; simpl.
  - destruct (f a) eqn:Hf.
    + intros [= ->]. exists [], l. repeat split; auto.
    + intros Hfind. destruct (IH Hfind) as (pre & post & -> & Hgx & Hfx & Hpre).
      exists (a :: pre), post. repeat split; auto.
      intros y [<-|Hin]; [intros [_ H]; congruence | by apply Hpre].
  - intros Hfind. destruct (IH Hfind) as (pre & post & -> & Hgx & Hfx & Hpre).
    exists (a :: pre), post. repeat split; auto.
    intros y [<-|Hin]; [intros [H _]; congruence | by apply Hpre].
Qed.


Lemma kind_eqb kind (r : CfnResourceType) :
  String.eqb (resourceType r) kind = true <-> resourceType r = kind.
Proof. apply String.eqb_eq. Qed.

(** The lookup by kind and name tag that both matchers perform on the
    records of one container. *)
Lemma find_kind_name kind name (l : list CfnResourceType) (x : CfnResourceType) :
  List.find (fun r => bool_decide (is_Some (List.find (isNameTag name) (Tags r))))
            (List.filter (fun r => String.eqb (resourceType r) kind) l) = Some x ->
  firstOfKindAndName kind name l x.
Proof.
  intros Hfind. apply find_filter_first in Hfind as (pre & post & -> & Hk & Hn & Hpre).
  exists pre, post. split; [reflexivity|]. split.
  - split; [by apply kind_eqb | by apply nameTag_found].
  - intros q Hq [Hqk Hqn]. apply (Hpre q Hq). split; [by apply kind_eqb | by apply nameTag_found].
Qed.


Lemma getSubnetResourceByTag_first name (C : NestedAseaStackInfo) (x : CfnResourceType) :
  getSubnetResourceByTag name C = Some x ->
  firstOfKindAndName RESOURCE_TYPE.SUBNET name (resources C) x.
Proof.
  unfold getSubnetResourceByTag, findResourceByTag. intros H.
  apply find_kind_name.
  destruct (List.find _ _) as [y|]; [exact H | discriminate].
Qed.


Lemma firstOfKindAndName_In kind name l x :
  firstOfKindAndName kind name l x -> In x l /\ kindAndName kind name x.
Proof.
  intros (pre & post & -> & Hx & _). split; [|exact Hx].
  apply in_or_app. right. by left.
Qed.






(** ** The network and subnet mergers *)

Lemma preserves_refl ids owned w : preserves ids owned w w.
Proof. by repeat split. Qed.

Lemma preserves_trans ids owned w1 w2 w3 :
  preserves ids owned w1 w2 -> preserves ids owned w2 w3 -> preserves ids owned w1 w3.
Proof.
  intros (Hn & Hd & Ha & Ho) (Hn' & Hd' & Ha' & Ho'). split; [congruence|]. split; [|split].
  - intros id. by rewrite Hd', Hd.
  - intros id attr Hattr. by rewrite Ha', Ha.
  - intros id Hid. by rewrite Ho', Ho.
Qed.

Lemma keeps_ret {A : Type} ids owned (a : A) : keeps ids owned (ret a).
Proof. intros w. apply preserves_refl. Qed.

Lemma keeps_throw {A : Type} ids owned e : keeps ids owned (@throw World A e).
Proof. intros w. apply preserves_refl. Qed.

Lemma keeps_bind {A B : Type} ids owned (m : M World A) (k : A -> M World B) :
  keeps ids owned m -> (forall a, keeps ids owned (k a)) -> keeps ids owned (bind m k).
Proof.
  intros Hm Hk w. unfold bind. specialize (Hm w).
  destruct (m w) as [w1 [a|e]]; simpl in *; [|exact Hm].
  eapply preserves_trans; [exact Hm | apply Hk].
Qed.

Lemma keeps_getResource ids owned id : keeps ids owned (getResource id).
Proof.
  intros w. unfold getResource, bind, get.
  destruct (template w !! id); apply preserves_refl.
Qed.

(** An assignment to an owned attribute of one of the records. *)
Lemma keeps_setAttr ids owned id attr v :
  In id ids -> In attr owned -> keeps ids owned (setAttr id attr v).
Proof.
  intros Hid Hattr w. unfold setAttr, modify, writeAttr, set_template. simpl.
  split; [reflexivity|]. split; [|split]; simpl.
  - intros id'. destruct (template w !! id) as [r|] eqn:Hr; [|reflexivity].
    destruct (decide (id = id')) as [<-|Hne].
    + rewrite lookup_insert_eq, Hr. split; eauto.
    + by rewrite lookup_insert_ne.
  - intros id' attr' Hnot. unfold attrOf. simpl.
    destruct (template w !! id) as [r|] eqn:Hr; [|reflexivity].
    destruct (decide (id = id')) as [<-|Hne].
    + rewrite lookup_insert_eq, Hr. simpl. unfold readAttr.
      rewrite lookup_insert_ne; [reflexivity | congruence].
    + by rewrite lookup_insert_ne.
  - intros id' Hnot. destruct (template w !! id) as [r|] eqn:Hr; [|reflexivity].
    rewrite lookup_insert_ne; [reflexivity | congruence].
Qed.

Lemma keeps_addSsmParameter ids owned props : keeps ids owned (addSsmParameter props).
Proof. intros w. by repeat split. Qed.

Lemma keeps_addAseaResource ids owned type identifier :
  keeps ids owned (addAseaResource type identifier).
Proof. intros w. by repeat split. Qed.

Lemma keeps_for_fold {A B : Type} ids owned (body : B -> A -> M World B) (l : list A) :
  (forall acc x, keeps ids owned (body acc x)) ->
  forall acc, keeps ids owned (for_fold body acc l).
Proof.
  intros Hbody. induction l as [|x l IH]; intros acc; simpl.
  - apply keeps_ret.
  - apply keeps_bind; [apply Hbody | exact IH].
Qed.

Create HintDb frame.
#[local] Hint Resolve keeps_ret keeps_throw keeps_getResource keeps_addSsmParameter
  keeps_addAseaResource : frame.

Ltac frame_step :=
  repeat first
    [ solve [auto with frame]
    | apply keeps_setAttr; [assumption | simpl; tauto]
    | apply keeps_bind; [|intros ?] ].

Lemma keeps_vpcAttributes resource vpcInScope :
  keeps [logicalResourceId resource] vpcOwned (vpcAttributes resource vpcInScope).
Proof.
  assert (Hid : In (logicalResourceId resource) [logicalResourceId resource]) by (by left).
  unfold vpcAttributes. apply keeps_bind; [auto with frame | intros _].
  destruct (cidrs vpcInScope); frame_step.
Qed.

Lemma getSubnetResourceByTag_record name vpcStackInfo subnetResource :
  getSubnetResourceByTag name vpcStackInfo = Some subnetResource ->
  In (logicalResourceId subnetResource) (subnetRecordIds vpcStackInfo).
Proof.
  intros Hfound. apply getSubnetResourceByTag_first, firstOfKindAndName_In in Hfound
    as [Hin [Hkind _]].
  unfold subnetRecordIds, filterResourcesByType. apply in_map, filter_In.
  split; [exact Hin | by apply kind_eqb].
Qed.

Lemma keeps_createSubnets env vpcItem vpcStackInfo :
  keeps (subnetRecordIds vpcStackInfo) subnetOwned (createSubnets env vpcItem vpcStackInfo).
Proof.
  unfold createSubnets. apply keeps_for_fold. intros acc subnetItem.
  unfold createSubnets_body.
  destruct (getSubnetResourceByTag _ _) as [subnetResource|] eqn:Hfound; [|frame_step].
  apply getSubnetResourceByTag_record in Hfound. frame_step.
Qed.

(** C7: merging a matched network record writes its CIDR block, DNS flags and
    tenancy only, and merging the subnets of a container writes the CIDR
    block, availability zone and map-public-IP flag of subnet records only:
    after either merge, whether it returned or threw, the legacy records with
    their physical identifiers and tags are as before, the template has the
    same resources, every other attribute of every resource of the template
    is as before, and so is every other resource of the template. *)
Theorem merge_writes_owned_attributes_only (env : Env) (vpcItem : VpcConfig)
  (vpcStackInfo : NestedAseaStackInfo) (resource : CfnResourceType) (w : World) :
  preserves [logicalResourceId resource] vpcOwned w
            (fst (vpcAttributes resource vpcItem w))
  /\ preserves (subnetRecordIds vpcStackInfo) subnetOwned w
               (fst (createSubnets env vpcItem vpcStackInfo w)).
Proof. split; [apply keeps_vpcAttributes | apply keeps_createSubnets]. Qed.

(** The scenario of the specification: the CIDR of the network becomes
    [10.1.0.0/16], the CIDR of the subnet [10.1.1.0/24] and its availability
    zone [us-east-1a]; two resources are registered and two identifiers
    queued for export; the other attributes are as before. *)
Example scenario_network_and_subnet :
  let w1 := fst (vpcAttributes scenarioVpcRecord scenarioVpc scenarioWorld) in
  let w2 := fst (createSubnets testEnv scenarioVpc scenarioContainer w1) in
  attrOf w2 "VpcProd" "cidrBlock" = Some (JStr "10.1.0.0/16")
  /\ attrOf w2 "SubnetProdA" "cidrBlock" = Some (JStr "10.1.1.0/24")
  /\ attrOf w2 "SubnetProdA" "availabilityZone" = Some (JStr "us-east-1a")
  /\ attrOf w2 "SubnetProdA" "vpcId" = Some (JStr "Ref:VpcProd")
  /\ attrOf w2 "VpcProd" "tags" = attrOf scenarioWorld "VpcProd" "tags"
  /\ aseaResources w2 = [(EC2_SUBNET, "Prod/Prod-A")]
  /\ map stringValue (ssmParameters w2) = ["Ref:SubnetProdA"].
Proof. vm_compute. repeat split. Qed.

(** ** The NAT gateway merger *)





(** When a legacy record is tagged with the name of the NAT gateway, the
    merger does not reach the lookup of the exported subnet: reading the
    reference of the absent subnet throws. *)
Example nat_gateway_absent_subnet_throws :
  getSubnetResourceByTag "Prod-B" natContainer = None
  /\ snd (createNatGateways testEnv natContainer (natVpc "Nat-Prod") ∅ natWorld)
     = Thrown (TypeError "Cannot read properties of undefined (reading 'ref')").
Proof. split; reflexivity. Qed.

(** ** Running a method that returns *)





Lemma hasResource_writeAttr id attr v id' w :
  hasResource id' (writeAttr id attr v w) <-> hasResource id' w.
Proof.
  unfold hasResource, writeAttr, set_template. simpl.
  destruct (template w !! id) as [r|] eqn:Hr; [|reflexivity].
  destruct (decide (id = id')) as [<-|Hne].
  - rewrite lookup_insert_eq, Hr. split; eauto.
  - by rewrite lookup_insert_ne.
Qed.

Lemma attrOf_writeAttr_eq id attr v w :
  hasResource id w -> attrOf (writeAttr id attr v w) id attr = Some v.
Proof.
  intros [r Hr]. unfold attrOf, writeAttr, set_template. simpl.
  rewrite Hr, lookup_insert_eq. simpl. unfold readAttr. by rewrite lookup_insert_eq.
Qed.

Lemma attrOf_writeAttr_ne id attr v id' attr' w :
  id <> id' \/ attr <> attr' ->
  attrOf (writeAttr id attr v w) id' attr' = attrOf w id' attr'.
Proof.
  intros Hne. unfold attrOf, writeAttr, set_template. simpl.
  destruct (template w !! id) as [r|] eqn:Hr; [|reflexivity].
  destruct (decide (id = id')) as [<-|Hid].
  - rewrite lookup_insert_eq, Hr. simpl. unfold readAttr.
    rewrite lookup_insert_ne; [reflexivity | tauto].
  - by rewrite lookup_insert_ne.
Qed.

(** ** The network firewall merger *)

Lemma absent_Some s : absent (Some s) = true <-> s = EmptyString.
Proof.
  unfold absent. simpl. rewrite negb_involutive. apply String.eqb_eq.
Qed.

Lemma absent_Some_false s : absent (Some s) = false <-> s <> EmptyString.
Proof.
  rewrite <- not_true_iff_false, absent_Some. tauto.
Qed.

(** What lines 1073 to 1079 compute is the identifier that resolves. *)
Lemma resolvePolicyArn_resolves env policy firewallItem arn :
  (resolvePolicyArn env policy firewallItem = Some arn /\ arn <> EmptyString)
  <-> policyResolves env policy firewallItem arn.
Proof.
  unfold resolvePolicyArn, policyResolves, resolvedInRun, resolvedByLookup.
  destruct policy as [p|].
  - destruct (String.eqb_spec (firewallPolicy firewallItem) (policy_name p)) as [Hn|Hn].
    + destruct (absent (Some (policy_arn p))) eqn:Habs.
      * apply absent_Some in Habs. split.
        -- intros [Hl Hne]. right. split; [|tauto].
           intros a (q & [= <-] & _ & Hq & Ha). congruence.
        -- intros [(q & [= <-] & _ & Hq & Ha)|[_ H]]; [congruence | exact H].
      * apply absent_Some_false in Habs. split.
        -- intros [[= <-] _]. left. exists p. auto.
        -- intros [(q & [= <-] & _ & Hq & Ha)|[Hno _]]; [by subst|].
           exfalso. apply (Hno (policy_arn p)). exists p. auto.
    + simpl. split.
      * intros H. right. split; [|exact H].
        intros a (q & [= <-] & Hq & _). congruence.
      * intros [(q & [= <-] & Hq & _)|[_ H]]; [congruence | exact H].
  - simpl. split.
    + intros H. right. split; [|exact H]. intros a (q & Hq & _). discriminate.
    + intros [(q & Hq & _)|[_ H]]; [discriminate | exact H].
Qed.

Lemma firewallSubnetIds_present env vpcItem (subnets : gmap string string) names :
  (forall s, In s names -> is_Some (subnets !! s)) ->
  forall acc, exists subnetIds,
    pureAt (for_fold (firewallSubnetIds env vpcItem subnets) acc names) subnetIds.
Proof.
  induction names as [|s names IH]; intros Hall acc.
  - exists acc. intros w. reflexivity.
  - destruct (Hall s ltac:(by left)) as [id Hid].
    destruct (IH (fun s' Hs' => Hall s' (or_intror Hs')) (acc ++ [cfnRef id]))
      as [subnetIds Hrest].
    exists subnetIds. intros w. simpl. unfold bind, firewallSubnetIds, subnetRef.
    rewrite Hid. simpl. apply Hrest.
Qed.

Lemma attrOf_set_aseaResources f w id attr :
  attrOf (set_aseaResources f w) id attr = attrOf w id attr.
Proof. reflexivity. Qed.

Lemma attrOf_set_ssmParameters f w id attr :
  attrOf (set_ssmParameters f w) id attr = attrOf w id attr.
Proof. reflexivity. Qed.




(** A firewall whose subnet [Prod-B] was not created in the run: the merger
    throws on reading the reference of the absent subnet before it comes to
    the policy, although the exported policy resolves. *)
Example firewall_absent_subnet_throws :
  policyResolves priorExportEnv None (firewallItemProd "Prod-B") "arn:prior"
  /\ snd (createNetworkFirewall priorExportEnv (Some [firewallItemProd "Prod-B"]) scenarioVpc
            firewallContainer "Ref:VpcProd" {[ "Prod-A" := "SubnetProdA" ]} None firewallWorld)
     = Thrown (TypeError "Cannot read properties of undefined (reading 'ref')").
Proof.
  split; [|reflexivity].
  right. split.
  - intros a (p & Hp & _). discriminate.
  - split; [reflexivity | discriminate].
Qed.

(** ** The gateway endpoint merger *)

(** Pushing when not found neither loses nor invents an identifier. *)
Lemma pushIfNotFound_In routeTableId l x :
  In x (pushIfNotFound routeTableId l) <-> In x l \/ x = routeTableId.
Proof.
  unfold pushIfNotFound.
  destruct (List.find (fun item => String.eqb item routeTableId) l) as [item|] eqn:Hfind.
  - apply find_some in Hfind as [Hin Heq]. apply String.eqb_eq in Heq. subst item.
    destruct (absent (Some routeTableId)).
    + rewrite in_app_iff. simpl. intuition congruence.
    + intuition congruence.
  - change (absent None) with true. cbv iota. rewrite in_app_iff. simpl. intuition congruence.
Qed.

(** It keeps the list free of duplicates, for an identifier that is not the
    empty string. *)
Lemma pushIfNotFound_NoDup routeTableId (l : list string) :
  routeTableId <> EmptyString -> NoDup l -> NoDup (pushIfNotFound routeTableId l).
Proof.
  intros Hne Hnd. unfold pushIfNotFound.
  destruct (List.find (fun item => String.eqb item routeTableId) l) as [item|] eqn:Hfind.
  - apply find_some in Hfind as [Hin Heq]. apply String.eqb_eq in Heq. subst item.
    by rewrite (proj2 (absent_Some_false routeTableId) Hne).
  - change (absent None) with true. cbv iota.
    apply NoDup_app. split; [exact Hnd|]. split; [|apply NoDup_singleton].
    intros x Hx Hx'. apply list_elem_of_singleton in Hx'. subst x.
    apply list_elem_of_In in Hx. apply (find_none _ _ Hfind) in Hx.
    by rewrite String.eqb_refl in Hx.
Qed.

Lemma getS3DynamoDbRouteTableIds_components routeTableItem routeTableId tables :
  getS3DynamoDbRouteTableIds routeTableItem routeTableId tables
  = (fold_left (pushForService "s3" routeTableId) (orEmpty (routes routeTableItem))
               (fst tables),
     fold_left (pushForService "dynamodb" routeTableId) (orEmpty (routes routeTableItem))
               (snd tables)).
Proof.
  unfold getS3DynamoDbRouteTableIds. destruct tables as [s3 ddb]. simpl.
  generalize (orEmpty (routes routeTableItem)). intros entries.
  revert s3 ddb. induction entries as [|e entries IH]; intros s3 ddb; simpl.
  - reflexivity.
  - apply IH.
Qed.

Lemma pushForService_fold_In endpointService routeTableId entries : forall l x,
  In x (fold_left (pushForService endpointService routeTableId) entries l)
  <-> In x l
      \/ (x = routeTableId
          /\ exists e, In e entries /\ target e = Some endpointService).
Proof.
  induction entries as [|e entries IH]; intros l x; simpl.
  - split; [tauto | intros [H|[_ (e & [] & _)]]; exact H].
  - rewrite IH. unfold pushForService. case_bool_decide as Ht.
    + rewrite pushIfNotFound_In. split.
      * intros [[H| ->]|[-> (e' & He' & Ht')]]; eauto 8.
      * intros [H|[-> (e' & [<-|He'] & Ht')]]; eauto 8.
    + split.
      * intros [H|[-> (e' & He' & Ht')]]; eauto 8.
      * intros [H|[-> (e' & [<-|He'] & Ht')]]; [tauto | contradiction | eauto 8].
Qed.

Lemma pushForService_fold_NoDup endpointService routeTableId entries :
  routeTableId <> EmptyString ->
  forall l : list string,
    NoDup l -> NoDup (fold_left (pushForService endpointService routeTableId) entries l).
Proof.
  intros Hne. induction entries as [|e entries IH]; intros l Hnd; simpl; [exact Hnd|].
  apply IH. unfold pushForService. case_bool_decide; [|exact Hnd].
  by apply pushIfNotFound_NoDup.
Qed.

Lemma routeTableStep_tablesFor env vpcItem endpointService tables routeTableItem :
  endpointService = "s3" \/ endpointService = "dynamodb" ->
  tablesFor endpointService (routeTableStep env vpcItem tables routeTableItem)
  = match getExternalResourceParameter env
            (getSsmPath env SsmResourceType.ROUTE_TABLE
               [vpc_name vpcItem; rt_name routeTableItem]) with
    | Some routeTableId =>
        if absent (Some routeTableId) then tablesFor endpointService tables
        else fold_left (pushForService endpointService routeTableId)
                       (orEmpty (routes routeTableItem)) (tablesFor endpointService tables)
    | None => tablesFor endpointService tables
    end.
Proof.
  intros Hsvc. unfold routeTableStep.
  destruct (getExternalResourceParameter env _) as [routeTableId|]; [|reflexivity].
  destruct (absent (Some routeTableId)); [reflexivity|].
  rewrite getS3DynamoDbRouteTableIds_components.
  destruct Hsvc as [-> | ->]; reflexivity.
Qed.

(** The invariant of the first loop of [gatewayEndpoints]: neither list has a
    duplicate, and a list holds the identifiers it held and the resolved
    identifiers of the route tables seen that route to its service. *)
Lemma endpointRouteTables_fold env vpcItem endpointService routeTables :
  endpointService = "s3" \/ endpointService = "dynamodb" ->
  forall tables,
    NoDup (tablesFor endpointService tables) ->
    let tables' := fold_left (routeTableStep env vpcItem) routeTables tables in
    NoDup (tablesFor endpointService tables')
    /\ forall x,
         In x (tablesFor endpointService tables')
         <-> In x (tablesFor endpointService tables)
             \/ exists routeTableItem,
                  In routeTableItem routeTables
                  /\ getExternalResourceParameter env
                       (getSsmPath env SsmResourceType.ROUTE_TABLE
                          [vpc_name vpcItem; rt_name routeTableItem]) = Some x
                  /\ x <> EmptyString
                  /\ routesTo endpointService routeTableItem.
Proof.
  intros Hsvc. induction routeTables as [|rt rts IH]; intros tables Hnd; simpl.
  - split; [exact Hnd|]. intros x. split; [tauto | intros [H|(rt & [] & _)]; exact H].
  - pose proof (routeTableStep_tablesFor env vpcItem endpointService tables rt Hsvc) as Hstep.
    destruct (IH (routeTableStep env vpcItem tables rt)) as [Hnd' Hin'].
    { rewrite Hstep. destruct (getExternalResourceParameter env _) as [id|]; [|exact Hnd].
      destruct (absent (Some id)) eqn:Habs; [exact Hnd|].
      apply pushForService_fold_NoDup; [by apply absent_Some_false | exact Hnd]. }
    split; [exact Hnd'|]. intros x. rewrite Hin', Hstep. clear Hin' Hnd' IH Hstep.
    destruct (getExternalResourceParameter env
                (getSsmPath env SsmResourceType.ROUTE_TABLE [vpc_name vpcItem; rt_name rt]))
      as [id|] eqn:Hid.
    + destruct (absent (Some id)) eqn:Habs.
      * apply absent_Some in Habs. split.
        -- intros [H|(rt' & Hrt' & H)]; [tauto | eauto 8].
        -- intros [H|(rt' & [<-|Hrt'] & Hx & Hne & Hr)]; [tauto | | eauto 8].
           congruence.
      * apply absent_Some_false in Habs. rewrite pushForService_fold_In. split.
        -- intros [[H|[-> He]]|(rt' & Hrt' & H)]; [tauto | | eauto 8].
           right. exists rt. unfold routesTo. auto.
        -- intros [H|(rt' & [<-|Hrt'] & Hx & Hne & Hr)]; [tauto | | eauto 8].
           left. right. split; [congruence | exact Hr].
    + split.
      * intros [H|(rt' & Hrt' & H)]; [tauto | eauto 8].
      * intros [H|(rt' & [<-|Hrt'] & Hx & Hne & Hr)]; [tauto | congruence | eauto 8].
Qed.

(** The accumulated list of a service holds, once each, the resolved
    identifiers of the target route tables that route to the service. *)
Lemma accumulatedFor_spec env vpcItem endpointService :
  endpointService = "s3" \/ endpointService = "dynamodb" ->
  NoDup (accumulatedFor env vpcItem endpointService)
  /\ forall x, In x (accumulatedFor env vpcItem endpointService)
               <-> resolvedFor env vpcItem endpointService x.
Proof.
  intros Hsvc.
  destruct (endpointRouteTables_fold env vpcItem endpointService
              (orEmpty (routeTables vpcItem)) Hsvc ([], [])) as [Hnd Hin].
  { destruct Hsvc as [-> | ->]; apply NoDup_nil_2. }
  split; [exact Hnd|]. intros x.
  change (accumulatedFor env vpcItem endpointService)
    with (tablesFor endpointService
            (fold_left (routeTableStep env vpcItem) (orEmpty (routeTables vpcItem)) ([], []))).
  rewrite Hin. unfold resolvedFor. split.
  - intros [H|H]; [|exact H]. destruct Hsvc as [-> | ->]; destruct H.
  - intros H. by right.
Qed.

Lemma includes_In (routeTableIds : list JsVal) routeTableId :
  includes routeTableIds routeTableId = true <-> In (JStr routeTableId) routeTableIds.
Proof.
  unfold includes. rewrite existsb_exists. split.
  - intros (v & Hin & Hv). apply strict_eq_str in Hv. by subst v.
  - intros Hin. exists (JStr routeTableId). split; [exact Hin | by apply strict_eq_str].
Qed.

Lemma NoDup_map_JStr (l : list string) : NoDup l -> NoDup (map JStr l).
Proof.
  induction 1 as [|x l Hx Hl IH]; simpl; [apply NoDup_nil_2|].
  apply NoDup_cons_2; [|exact IH].
  intros Hin. apply Hx. apply list_elem_of_In in Hin. apply list_elem_of_In.
  apply in_map_iff in Hin as (y & [= ->] & Hy). exact Hy.
Qed.

(** The merge into the list an endpoint already holds appends, once each,
    the accumulated identifiers that the list does not hold. *)
Lemma mergeRouteTableIds_spec (accumulated : list string) : forall ids : list JsVal,
  exists added : list string,
    mergeRouteTableIds ids accumulated = ids ++ map JStr added
    /\ NoDup added
    /\ forall x, In x added <-> In x accumulated /\ ~ In (JStr x) ids.
Proof.
  unfold mergeRouteTableIds.
  induction accumulated as [|a accumulated IH]; intros ids; simpl.
  - exists []. rewrite app_nil_r. split; [reflexivity|]. split; [apply NoDup_nil_2|].
    intros x. simpl. tauto.
  - destruct (includes ids a) eqn:Hinc.
    + apply includes_In in Hinc. destruct (IH ids) as (added & Heq & Hnd & Hin).
      exists added. split; [exact Heq|]. split; [exact Hnd|].
      intros x. rewrite Hin. split; [tauto|].
      intros [[<-|Hx] Hnot]; [contradiction | tauto].
    + assert (Hnot : ~ In (JStr a) ids).
      { intros Hin. apply includes_In in Hin. congruence. }
      destruct (IH (ids ++ [JStr a])) as (added & Heq & Hnd & Hin).
      exists (a :: added). split; [by rewrite Heq, <- app_assoc|]. split.
      * apply NoDup_cons_2; [|exact Hnd]. intros Ha. apply list_elem_of_In, Hin in Ha.
        apply (proj2 Ha). apply in_or_app. right. by left.
      * intros x. simpl. rewrite Hin, in_app_iff. simpl. split.
        -- intros [<-|[Hx Hn]]; [tauto|]. split; [tauto|]. intros Hx'. apply Hn. by left.
        -- intros [[<-|Hx] Hn]; [by left|].
           destruct (decide (a = x)) as [Hax|Hax]; [by left|].
           right. split; [exact Hx|].
           intros [Hx'|[[= Hxa]|[]]]; [contradiction | congruence].
Qed.

Lemma getResource_Some w id r :
  template w !! id = Some r -> getResource id w = (w, Returned r).
Proof. intros Hr. unfold getResource, bind, get. by rewrite Hr. Qed.

Lemma attrOf_Some_hasResource w id attr v : attrOf w id attr = Some v -> hasResource id w.
Proof.
  unfold attrOf, hasResource. destruct (template w !! id) as [r|]; [eauto | discriminate].
Qed.

Lemma findEndpointResource_Some gatewayEndpointResources endpointService r :
  findEndpointResource gatewayEndpointResources endpointService = Returned (Some r) ->
  In r gatewayEndpointResources
  /\ serviceNameLast r = Returned (JStr ("." +:+ endpointService)).
Proof.
  induction gatewayEndpointResources as [|a rest IH]; simpl; [discriminate|].
  destruct (serviceNameLast a) as [v|e] eqn:Hlast; [|discriminate].
  destruct (strict_eq v (JStr ("." +:+ endpointService))) eqn:Heq.
  - intros [= <-]. apply strict_eq_str in Heq. subst v. auto.
  - intros Hrest. destruct (IH Hrest). auto.
Qed.

(** Two records found for two services are the same record only if the
    services are the same. *)
Lemma findEndpointResource_service gatewayEndpointResources s1 s2 r :
  findEndpointResource gatewayEndpointResources s1 = Returned (Some r) ->
  findEndpointResource gatewayEndpointResources s2 = Returned (Some r) ->
  s1 = s2.
Proof.
  intros H1 H2. apply findEndpointResource_Some in H1 as [_ H1], H2 as [_ H2].
  rewrite H1 in H2. by injection H2.
Qed.

Lemma logicalResourceId_inj (l : list CfnResourceType) a b :
  NoDup (map logicalResourceId l) -> In a l -> In b l ->
  logicalResourceId a = logicalResourceId b -> a = b.
Proof.
  induction l as [|x l IH]; simpl; [tauto|].
  intros Hnd Ha Hb Heq. apply NoDup_cons in Hnd as [Hx Hnd].
  assert (Hnot : forall y, In y l -> logicalResourceId y <> logicalResourceId x).
  { intros y Hy Hyx. apply Hx. rewrite <- Hyx. apply list_elem_of_In. by apply in_map. }
  destruct Ha as [<-|Ha], Hb as [<-|Hb]; [reflexivity | | | by apply IH].
  - exfalso. by apply (Hnot b Hb).
  - exfalso. by apply (Hnot a Ha).
Qed.

(** The turn of the merger for an endpoint that is matched to a record. *)
Lemma gatewayEndpoints_body_turn env vpcItem gatewayEndpointResources tables endpointItem
  r v w :
  findEndpointResource gatewayEndpointResources (service endpointItem)
  = Returned (Some r) ->
  attrOf w (logicalResourceId r) "routeTableIds" = Some v ->
  listOrNothing v ->
  exists w',
    gatewayEndpoints_body env vpcItem gatewayEndpointResources tables endpointItem w
    = (w', Returned tt)
    /\ (forall id, id <> logicalResourceId r ->
          attrOf w' id "routeTableIds" = attrOf w id "routeTableIds")
    /\ attrOf w' (logicalResourceId r) "routeTableIds"
       = Some (mergedValue (tablesFor (service endpointItem) tables) v).
Proof.
  intros Hfind Hv Hshape.
  pose proof (attrOf_Some_hasResource _ _ _ _ Hv) as Hhas.
  unfold attrOf in Hv.
  destruct (template w !! logicalResourceId r) as [rec|] eqn:Hrec; [|discriminate].
  simpl in Hv. injection Hv as Hv.
  unfold gatewayEndpoints_body. rewrite Hfind. cbv zeta.
  unfold bind at 1. rewrite (getResource_Some _ _ _ Hrec), Hv.
  fold (tablesFor (service endpointItem) tables).
  unfold setAttr, addSsmParameter, addAseaResource, bind, modify.
  destruct Hshape as [[ids ->]|Hfalsy].
  - cbn [truthy negb]. eexists. split; [reflexivity|]. split.
    + intros id Hid. rewrite attrOf_set_aseaResources, attrOf_set_ssmParameters.
      apply attrOf_writeAttr_ne. left. congruence.
    + rewrite attrOf_set_aseaResources, attrOf_set_ssmParameters.
      by apply attrOf_writeAttr_eq.
  - rewrite Hfalsy. cbn [negb]. eexists. split; [reflexivity|]. split.
    + intros id Hid. rewrite attrOf_set_aseaResources, attrOf_set_ssmParameters.
      rewrite !attrOf_writeAttr_ne by (left; congruence). reflexivity.
    + rewrite attrOf_set_aseaResources, attrOf_set_ssmParameters.
      rewrite attrOf_writeAttr_eq by (by apply hasResource_writeAttr).
      by destruct v.
Qed.

Lemma listOrNothing_mergedValue accumulated v :
  listOrNothing v -> listOrNothing (mergedValue accumulated v).
Proof.
  intros [[ids ->]|Hfalsy]; [left; by eexists|].
  right. by destruct v.
Qed.

(** Merging a second time adds nothing. *)
Lemma mergeRouteTableIds_again (old : list JsVal) accumulated added :
  mergeRouteTableIds old accumulated = old ++ map JStr added ->
  (forall x, In x added <-> In x accumulated /\ ~ In (JStr x) old) ->
  mergeRouteTableIds (old ++ map JStr added) accumulated = old ++ map JStr added.
Proof.
  intros _ Hin.
  destruct (mergeRouteTableIds_spec accumulated (old ++ map JStr added))
    as (again & Heq & _ & Hagain).
  destruct again as [|x again]; [by rewrite Heq, app_nil_r|].
  exfalso. destruct (proj1 (Hagain x) ltac:(by left)) as [Hacc Hnot].
  apply Hnot. apply in_or_app.
  destruct (includes old x) eqn:Hinc.
  - left. by apply includes_In.
  - right. apply in_map. apply Hin. split; [exact Hacc|].
    intros Hold. apply includes_In in Hold. congruence.
Qed.

(** The loop of the merger over the endpoints of the target, seen from one
    endpoint record [r] of service [endpointService]: its list is the list
    it held until the turn of an endpoint of that service, and the merged
    list from then on. *)
Lemma gatewayEndpoints_loop env vpcItem gatewayEndpointResources tables endpointService
  r (old : list JsVal) added :
  NoDup (map logicalResourceId gatewayEndpointResources) ->
  findEndpointResource gatewayEndpointResources endpointService = Returned (Some r) ->
  mergeRouteTableIds old (tablesFor endpointService tables) = old ++ map JStr added ->
  (forall x, In x added <-> In x (tablesFor endpointService tables) /\ ~ In (JStr x) old) ->
  forall endpoints w cur,
    endpointsWellFormed gatewayEndpointResources endpoints w ->
    attrOf w (logicalResourceId r) "routeTableIds" = Some (JArr cur) ->
    cur = old \/ cur = old ++ map JStr added ->
    exists w' cur',
      for_each (gatewayEndpoints_body env vpcItem gatewayEndpointResources tables) endpoints w
      = (w', Returned tt)
      /\ attrOf w' (logicalResourceId r) "routeTableIds" = Some (JArr cur')
      /\ (cur' = old \/ cur' = old ++ map JStr added)
      /\ (cur = old ++ map JStr added
          \/ (exists endpointItem, In endpointItem endpoints
                                   /\ service endpointItem = endpointService) ->
          cur' = old ++ map JStr added).
Proof.
  intros Hnd Hr Hmerge Hadded.
  destruct (findEndpointResource_Some _ _ _ Hr) as [Hrin _].
  induction endpoints as [|it rest IH]; intros w cur Hwf Hcur Hshape.
  - exists w, cur. split; [reflexivity|]. split; [exact Hcur|]. split; [exact Hshape|].
    intros [H|(it & [] & _)]. exact H.
  - cbn [for_each]. unfold bind.
    destruct (Hwf it ltac:(by left)) as [Hnone|(r' & v & Hit & Hv & Hlist)].
    + assert (Hbody : gatewayEndpoints_body env vpcItem gatewayEndpointResources tables it w
                      = (w, Returned tt)).
      { unfold gatewayEndpoints_body. by rewrite Hnone. }
      rewrite Hbody.
      destruct (IH w cur (fun it' Hit' => Hwf it' (or_intror Hit')) Hcur Hshape)
        as (w' & cur' & Hrun & Hcur' & Hshape' & Hfinal).
      exists w', cur'. repeat (split; [assumption|]).
      intros [H|(it' & [<-|Hit'] & Hsvc)]; [by apply Hfinal; left | | apply Hfinal; eauto].
      rewrite Hsvc in Hnone. congruence.
    + destruct (gatewayEndpoints_body_turn env vpcItem gatewayEndpointResources tables it
                  r' v w Hit Hv Hlist) as (w1 & Hbody & Hothers & Hmine).
      rewrite Hbody.
      destruct (findEndpointResource_Some _ _ _ Hit) as [Hr'in _].
      assert (Hwf1 : endpointsWellFormed gatewayEndpointResources rest w1).
      { intros it2 Hit2.
        destruct (Hwf it2 (or_intror Hit2)) as [Hnone2|(r2 & v2 & Hfind2 & Hv2 & Hlist2)];
          [by left | right].
        destruct (decide (logicalResourceId r2 = logicalResourceId r')) as [Hsame|Hdiff].
        - exists r2, (mergedValue (tablesFor (service it) tables) v).
          split; [exact Hfind2|]. rewrite Hsame. split; [exact Hmine|].
          by apply listOrNothing_mergedValue.
        - exists r2, v2. split; [exact Hfind2|]. split; [|exact Hlist2].
          by rewrite Hothers. }
      destruct (decide (logicalResourceId r' = logicalResourceId r)) as [Hsame|Hdiff].
      * assert (r' = r) by (by apply (logicalResourceId_inj gatewayEndpointResources)).
        subst r'.
        assert (Hsvc : service it = endpointService)
          by (by apply (findEndpointResource_service gatewayEndpointResources _ _ r)).
        assert (v = JArr cur) by congruence. subst v.
        assert (Hnew : attrOf w1 (logicalResourceId r) "routeTableIds"
                       = Some (JArr (old ++ map JStr added))).
        { rewrite Hmine, Hsvc. simpl. do 2 f_equal.
          destruct Hshape as [-> | ->];
            [exact Hmerge | by apply mergeRouteTableIds_again]. }
        destruct (IH w1 _ Hwf1 Hnew (or_intror eq_refl))
          as (w' & cur' & Hrun & Hcur' & Hshape' & Hfinal).
        exists w', cur'. repeat (split; [assumption|]).
        intros _. apply Hfinal. by left.
      * assert (Hkeep : attrOf w1 (logicalResourceId r) "routeTableIds" = Some (JArr cur)).
        { rewrite Hothers; [exact Hcur | congruence]. }
        destruct (IH w1 cur Hwf1 Hkeep Hshape)
          as (w' & cur' & Hrun & Hcur' & Hshape' & Hfinal).
        exists w', cur'. repeat (split; [assumption|]).
        intros [H|(it' & [<-|Hit'] & Hsvc)]; [by apply Hfinal; left | | apply Hfinal; eauto].
        exfalso. apply Hdiff. f_equal. rewrite Hsvc in Hit. congruence.
Qed.

(** C5, as the code has it: when the record of a gateway endpoint of service
    s3 or dynamodb already holds a list of route tables, then after the
    endpoint merger has run over the endpoints of the target the list is the
    list it held followed by, once each, the resolved identifiers of the
    target route tables that route to the service and that the list did not
    hold; these identifiers were gathered across all route tables before the
    first write.  (The records of the legacy endpoints have distinct logical
    identifiers, and each endpoint of the target is matched to none or to one
    that holds a list or nothing.) *)
Theorem endpoint_route_tables_merged (env : Env) (vpcItem : VpcConfig)
  (vpcStackInfo : NestedAseaStackInfo) (endpoints : list GatewayEndpointServiceConfig)
  (endpointItem : GatewayEndpointServiceConfig) (r : CfnResourceType)
  (old : list JsVal) (w : World) :
  let gatewayEndpointResources :=
    filterResourcesByType (resources vpcStackInfo) RESOURCE_TYPE.VPC_ENDPOINT in
  gatewayEndpoints_endpoints vpcItem = Some endpoints ->
  In endpointItem endpoints ->
  service endpointItem = "s3" \/ service endpointItem = "dynamodb" ->
  NoDup (map logicalResourceId gatewayEndpointResources) ->
  endpointsWellFormed gatewayEndpointResources endpoints w ->
  findEndpointResource gatewayEndpointResources (service endpointItem)
  = Returned (Some r) ->
  attrOf w (logicalResourceId r) "routeTableIds" = Some (JArr old) ->
  let run := gatewayEndpoints env vpcItem vpcStackInfo w in
  snd run = Returned tt
  /\ exists added,
       attrOf (fst run) (logicalResourceId r) "routeTableIds"
       = Some (JArr (old ++ map JStr added))
       /\ addedTo env vpcItem (service endpointItem) old added.
Proof.
  intros gatewayEndpointResources Hcfg Hitem Hsvc Hnd Hwf Hfind Hold run.
  destruct (accumulatedFor_spec env vpcItem (service endpointItem) Hsvc) as [_ Hacc].
  destruct (mergeRouteTableIds_spec (accumulatedFor env vpcItem (service endpointItem)) old)
    as (added & Hmerge & Hadd & Hin).
  destruct (gatewayEndpoints_loop env vpcItem gatewayEndpointResources
              (endpointRouteTables env vpcItem (orEmpty (routeTables vpcItem)))
              (service endpointItem) r old added Hnd Hfind Hmerge Hin
              endpoints w old Hwf Hold (or_introl eq_refl))
    as (w' & cur' & Hrun & Hcur' & _ & Hfinal).
  assert (Hwhole : run = (w', Returned tt)).
  { subst run. unfold gatewayEndpoints. fold gatewayEndpointResources. rewrite Hcfg.
    destruct (findEndpointResource_Some _ _ _ Hfind) as [Hrin _].
    destruct gatewayEndpointResources as [|first others]; [destruct Hrin | exact Hrun]. }
  rewrite Hwhole. split; [reflexivity|]. exists added. split.
  - cbn [fst]. rewrite Hcur', Hfinal; [reflexivity|]. right. by exists endpointItem.
  - split; [exact Hadd|]. intros x. by rewrite Hin, Hacc.
Qed.

(** The target declares the S3 and the DynamoDB endpoint; the S3 endpoint
    holds a legacy route table and [rtb-b]; the route tables [Rt-A] and
    [Rt-B] of the target route to S3. *)
Lemma endpoint_route_tables_merged_witness :
  let old := [JStr "rtb-legacy"; JStr "rtb-b"] in
  let endpoints := [mkGatewayEndpointServiceConfig "s3";
                    mkGatewayEndpointServiceConfig "dynamodb"] in
  let run :=
    gatewayEndpoints endpointEnv (endpointVpc endpoints) endpointContainer
                     (endpointWorld (Some (JArr old))) in
  snd run = Returned tt
  /\ exists added,
       attrOf (fst run) "S3Endpoint" "routeTableIds" = Some (JArr (old ++ map JStr added))
       /\ addedTo endpointEnv (endpointVpc endpoints) "s3" old added.
Proof.
  intros old endpoints.
  apply (endpoint_route_tables_merged endpointEnv (endpointVpc endpoints) endpointContainer
           endpoints (mkGatewayEndpointServiceConfig "s3") s3EndpointRecord old
           (endpointWorld (Some (JArr old)))).
  - reflexivity.
  - by left.
  - left. reflexivity.
  - apply (bool_decide_unpack _). vm_compute. exact I.
  - intros it [<-|[<-|[]]].
    + right. exists s3EndpointRecord, (JArr old). split; [reflexivity|].
      split; [reflexivity|]. left. by eexists.
    + left. reflexivity.
  - reflexivity.
  - reflexivity.
Defined.

(** C5 as stated fails: the record of the S3 endpoint holds a legacy route
    table, and after the merger its list is not the accumulated list: the
    legacy route table is still in it. *)
Lemma endpoint_route_tables_not_the_accumulation :
  ~ (forall (env : Env) (vpcItem : VpcConfig) (vpcStackInfo : NestedAseaStackInfo)
            (endpointItem : GatewayEndpointServiceConfig) (r : CfnResourceType) (w : World),
       service endpointItem = "s3" \/ service endpointItem = "dynamodb" ->
       gatewayEndpoints_endpoints vpcItem = Some [endpointItem] ->
       findEndpointResource
         (filterResourcesByType (resources vpcStackInfo) RESOURCE_TYPE.VPC_ENDPOINT)
         (service endpointItem) = Returned (Some r) ->
       hasResource (logicalResourceId r) w ->
       attrOf (fst (gatewayEndpoints env vpcItem vpcStackInfo w))
              (logicalResourceId r) "routeTableIds"
       = Some (JArr (map JStr (accumulatedFor env vpcItem (service endpointItem))))).
Proof.
  intros H.
  specialize (H endpointEnv (endpointVpc [mkGatewayEndpointServiceConfig "s3"])
                endpointContainer (mkGatewayEndpointServiceConfig "s3") s3EndpointRecord
                (endpointWorld (Some (JArr [JStr "rtb-legacy"])))).
  assert (Hattr := H ltac:(by left) eq_refl eq_refl ltac:(by eexists)).
  vm_compute in Hattr. discriminate.
Qed.

(** When the record of the endpoint holds no list, the accumulated list is
    assigned and then overwritten by the value read before: the record is
    left without route tables. *)
Example endpoint_without_route_tables :
  let run :=
    gatewayEndpoints endpointEnv (endpointVpc [mkGatewayEndpointServiceConfig "s3"])
      endpointContainer (endpointWorld None) in
  accumulatedFor endpointEnv (endpointVpc []) "s3" = ["rtb-a"; "rtb-b"]
  /\ snd run = Returned tt
  /\ attrOf (fst run) "S3Endpoint" "routeTableIds" = Some JUndef.
Proof. vm_compute. repeat split. Qed.

(** C10: after any number of turns of the loop over the route tables, neither
    accumulated list has a duplicate; and the merge into the list an endpoint
    already holds appends only identifiers that this list does not hold, each
    once, so that a list without duplicates stays without duplicates. *)
Theorem endpoint_route_tables_no_duplicates (env : Env) (vpcItem : VpcConfig) (turns : nat)
  (old : list JsVal) (accumulated : list string) :
  let tables := endpointRouteTables env vpcItem (take turns (orEmpty (routeTables vpcItem))) in
  NoDup (fst tables) /\ NoDup (snd tables)
  /\ (exists added,
        mergeRouteTableIds old accumulated = old ++ map JStr added
        /\ NoDup added
        /\ forall x, In x added -> In x accumulated /\ ~ In (JStr x) old)
  /\ (NoDup old -> NoDup (mergeRouteTableIds old accumulated)).
Proof.
  intros tables.
  assert (Hs3 : NoDup (fst tables)).
  { apply (endpointRouteTables_fold env vpcItem "s3" _ ltac:(by left) ([], [])).
    apply NoDup_nil_2. }
  assert (Hddb : NoDup (snd tables)).
  { apply (endpointRouteTables_fold env vpcItem "dynamodb" _ ltac:(by right) ([], [])).
    apply NoDup_nil_2. }
  destruct (mergeRouteTableIds_spec accumulated old) as (added & Heq & Hnd & Hin).
  split; [exact Hs3|]. split; [exact Hddb|]. split.
  - exists added. split; [exact Heq|]. split; [exact Hnd|]. intros x Hx. by apply Hin.
  - intros Hold. rewrite Heq. apply NoDup_app. split; [exact Hold|].
    split; [|by apply NoDup_map_JStr].
    intros v Hv Hv'. apply list_elem_of_In in Hv, Hv'.
    apply in_map_iff in Hv' as (x & <- & Hx). apply Hin in Hx. tauto.
Qed.

(** The lists accumulated over the three route tables of the network and the
    merge into a list that has [rtb-b] already. *)
Lemma endpoint_route_tables_no_duplicates_witness :
  NoDup (fst (endpointRouteTables endpointEnv (endpointVpc [])
                (take 3 (orEmpty (routeTables (endpointVpc []))))))
  /\ NoDup (mergeRouteTableIds [JStr "rtb-legacy"; JStr "rtb-b"] ["rtb-a"; "rtb-b"]).
Proof.
  destruct (endpoint_route_tables_no_duplicates endpointEnv (endpointVpc []) 3
              [JStr "rtb-legacy"; JStr "rtb-b"] ["rtb-a"; "rtb-b"])
    as (Hs3 & _ & _ & Hmerge).
  split; [exact Hs3|]. apply Hmerge.
  apply NoDup_cons_2; [|apply NoDup_singleton].
  intros Hin. apply list_elem_of_singleton in Hin. discriminate.
Defined.


(** * Further properties *)

(** ** The reference exporter *)





(** ** The matcher *)



(** ** The NAT gateway merger *)


Lemma for_each_skip_all {A : Type} (body : A -> M World unit) (before rest : list A) :
  (forall x, In x before -> pureAt (body x) tt) ->
  forall w, for_each body (before ++ rest) w = for_each body rest w.
Proof.
  induction before as [|x before IH]; intros Hpure w; simpl; [reflexivity|].
  unfold bind. rewrite (Hpure x) by (by left).
  apply IH. intros y Hy. apply Hpure. by right.
Qed.




(** The turn of the merger for a declared NAT gateway that a legacy record
    is tagged with, in a subnet of the run: the record gets the reference of
    that subnet as its subnet, one export entry with the reference of the NAT
    gateway is queued, and one entry is registered; nothing else changes. *)
Theorem createNatGateways_subnet_of_run (env : Env) (natGatewayResources : list CfnResourceType)
  (vpcItem : VpcConfig) (subnets : gmap string string) (natGatewayItem : NatGatewayConfig)
  (natGatewayResource : CfnResourceType) (subnetId : string) (w : World) :
  findResourceByTag natGatewayResources (nat_name natGatewayItem) = Some natGatewayResource ->
  hasResource (logicalResourceId natGatewayResource) w ->
  subnets !! nat_subnet natGatewayItem = Some subnetId ->
  let id := logicalResourceId natGatewayResource in
  createNatGateways_body env natGatewayResources vpcItem subnets natGatewayItem w
  = (set_aseaResources
       (fun l => l ++ [(NAT_GATEWAY, vpc_name vpcItem +:+ "/" +:+ nat_name natGatewayItem)])
       (set_ssmParameters
          (fun l => l ++ [mkSsmParameterItem
             (pascalCase env ("SsmParam" +:+ pascalCase env (vpc_name vpcItem)
                              +:+ pascalCase env (nat_name natGatewayItem)
                              +:+ "NatGatewayId"))
             (getSsmPath env SsmResourceType.NAT_GW
                [vpc_name vpcItem; nat_name natGatewayItem])
             (cfnRef id)])
          (writeAttr id "subnetId" (JStr (cfnRef subnetId)) w)),
     Returned tt)
  /\ attrOf (fst (createNatGateways_body env natGatewayResources vpcItem subnets
                                         natGatewayItem w)) id "subnetId"
     = Some (JStr (cfnRef subnetId)).
Proof.
  intros Hfound Hhas Hsubnet id.
  assert (Hrun : createNatGateways_body env natGatewayResources vpcItem subnets
                                        natGatewayItem w
                 = (set_aseaResources
       (fun l => l ++ [(NAT_GATEWAY, vpc_name vpcItem +:+ "/" +:+ nat_name natGatewayItem)])
       (set_ssmParameters
          (fun l => l ++ [mkSsmParameterItem
             (pascalCase env ("SsmParam" +:+ pascalCase env (vpc_name vpcItem)
                              +:+ pascalCase env (nat_name natGatewayItem)
                              +:+ "NatGatewayId"))
             (getSsmPath env SsmResourceType.NAT_GW
                [vpc_name vpcItem; nat_name natGatewayItem])
             (cfnRef id)])
          (writeAttr id "subnetId" (JStr (cfnRef subnetId)) w)),
     Returned tt)).
  { destruct Hhas as [rec Hrec]. unfold createNatGateways_body. rewrite Hfound. cbv zeta.
    unfold bind at 1. rewrite (getResource_Some _ _ _ Hrec).
    unfold bind, subnetRef. rewrite Hsubnet. reflexivity. }
  split; [exact Hrun|]. rewrite Hrun. cbn [fst].
  rewrite attrOf_set_aseaResources, attrOf_set_ssmParameters.
  by apply attrOf_writeAttr_eq.
Qed.

Lemma createNatGateways_subnet_of_run_witness :
  attrOf (fst (createNatGateways_body testEnv
                 (filterResourcesByType (resources natContainer) RESOURCE_TYPE.NAT_GATEWAY)
                 (natVpc "Nat-Prod") {[ "Prod-B" := "SubnetProdB" ]}
                 (mkNatGatewayConfig "Nat-Prod" "Prod-B") natWorld))
         "NatProd" "subnetId"
  = Some (JStr (cfnRef "SubnetProdB")).
Proof.
  apply (createNatGateways_subnet_of_run testEnv
           (filterResourcesByType (resources natContainer) RESOURCE_TYPE.NAT_GATEWAY)
           (natVpc "Nat-Prod") {[ "Prod-B" := "SubnetProdB" ]}
           (mkNatGatewayConfig "Nat-Prod" "Prod-B") natRecord "SubnetProdB" natWorld).
  - reflexivity.
  - by eexists.
  - reflexivity.
Defined.

(** ** The network firewall merger *)




(** When none of the firewalls declared for the network has a legacy record
    named after it, the merger returns, and the template, the pending
    exports and the registry are as before, whatever the subnets and the
    policies of these firewalls: an unresolved policy is not an error
    then. *)
Theorem createNetworkFirewall_unmatched_untouched (env : Env)
  (networkFirewall : option (list NfwFirewallConfig)) (vpcItem : VpcConfig)
  (vpcStackInfo : NestedAseaStackInfo) (vpcId : string) (subnets : gmap string string)
  (policy : option PolicyRef) (w : World) :
  (forall item, In item (orEmpty networkFirewall) ->
     fw_vpc item = vpc_name vpcItem ->
     findResourceByName
       (filterResourcesByType (resources vpcStackInfo) RESOURCE_TYPE.NETWORK_FIREWALL)
       "FirewallName" (fw_name item) = None) ->
  let run := createNetworkFirewall env networkFirewall vpcItem vpcStackInfo vpcId subnets
                                   policy w in
  snd run = Returned tt
  /\ template (fst run) = template w
  /\ ssmParameters (fst run) = ssmParameters w
  /\ aseaResources (fst run) = aseaResources w.
Proof.
  intros Hnone run. subst run. unfold createNetworkFirewall.
  destruct (filterResourcesByType (resources vpcStackInfo) RESOURCE_TYPE.NETWORK_FIREWALL)
    as [|first others] eqn:Hres; [by repeat split|].
  destruct networkFirewall as [firewalls|]; [|by repeat split].
  cbn [option_map].
  destruct (List.filter _ firewalls) as [|x mine] eqn:Hmine; [by repeat split|].
  rewrite <- Hmine.
  rewrite <- (app_nil_r (List.filter _ firewalls)), for_each_skip_all; [by repeat split|].
  intros item Hitem w0. apply filter_In in Hitem as [Hin Hvpc].
  apply String.eqb_eq in Hvpc.
  unfold createNetworkFirewall_body. by rewrite (Hnone item Hin Hvpc).
Qed.

(** A firewall of the network that no legacy firewall is named after, with
    a subnet that is not in the run and a policy that does not resolve. *)
Lemma createNetworkFirewall_unmatched_untouched_witness :
  let other :=
    mkNfwFirewallConfig "fw-other" None "missing" ["Prod-B"] "Prod" None None None None in
  let run := createNetworkFirewall testEnv (Some [other]) scenarioVpc firewallContainer
               "Ref:VpcProd" ∅ None firewallWorld in
  snd run = Returned tt
  /\ template (fst run) = template firewallWorld
  /\ ssmParameters (fst run) = ssmParameters firewallWorld
  /\ aseaResources (fst run) = aseaResources firewallWorld.
Proof.
  intros other.
  apply (createNetworkFirewall_unmatched_untouched testEnv (Some [other]) scenarioVpc
           firewallContainer "Ref:VpcProd" ∅ None firewallWorld).
  intros item [<-|[]] _. reflexivity.
Defined.

Lemma includedCfnResource_returns logicalId props w :
  hasResource logicalId w ->
  exists w', includedCfnResource logicalId props w = (w', Returned logicalId)
             /\ ssmParameters w' = ssmParameters w
             /\ aseaResources w' = aseaResources w
             /\ logs w' = logs w.
Proof.
  intros [r Hr]. eexists. split.
  - unfold includedCfnResource. unfold bind at 1. rewrite (getResource_Some _ _ _ Hr).
    unfold bind, setAttr, modify, ret. reflexivity.
  - by repeat split.
Qed.

(** A matched firewall whose subnets are in the run and whose policy
    resolves, in a container that holds no logging configuration record: the
    guard of [addFirewallLoggingConfiguration] does not return (a filtered
    array is never falsy), and the merger throws a type error on reading the
    first logging record.  This is after the firewall record was handed to
    the construct, and before the firewall is exported or registered. *)
Theorem createNetworkFirewall_no_logging_record_throws (env : Env) (vpcItem : VpcConfig)
  (vpcStackInfo : NestedAseaStackInfo) (firewallResources : list CfnResourceType)
  (vpcId : string) (subnets : gmap string string) (policy : option PolicyRef)
  (firewallItem : NfwFirewallConfig) (firewallResource : CfnResourceType) (arn : string)
  (w : World) :
  findResourceByName firewallResources "FirewallName" (fw_name firewallItem)
  = Some firewallResource ->
  (forall s, In s (fw_subnets firewallItem) -> is_Some (subnets !! s)) ->
  policyResolves env policy firewallItem arn ->
  hasResource (logicalResourceId firewallResource) w ->
  filterResourcesByType (resources vpcStackInfo) RESOURCE_TYPE.NETWORK_FIREWALL_LOGGING = [] ->
  let run :=
    createNetworkFirewall_body env vpcItem vpcStackInfo firewallResources vpcId subnets
                               policy firewallItem w in
  snd run = Thrown (TypeError "Cannot read properties of undefined (reading 'logicalResourceId')")
  /\ ssmParameters (fst run) = ssmParameters w
  /\ aseaResources (fst run) = aseaResources w.
Proof.
  intros Hmatch Hsubnets Hres Hfw Hlogging run. subst run.
  destruct (firewallSubnetIds_present env vpcItem subnets _ Hsubnets []) as [subnetIds Hids].
  apply resolvePolicyArn_resolves in Hres as [Hres Hne].
  destruct (includedCfnResource_returns (logicalResourceId firewallResource)
              (mkNetworkFirewallProps arn (fw_name firewallItem) (fw_description firewallItem)
                 subnetIds vpcId (deleteProtection firewallItem)
                 (firewallPolicyChangeProtection firewallItem)
                 (subnetChangeProtection firewallItem)) w Hfw)
    as (w' & Hrun & Hssm & Hasea & _).
  assert (Hbody : createNetworkFirewall_body env vpcItem vpcStackInfo firewallResources vpcId
                    subnets policy firewallItem w
                  = (w', Thrown (TypeError
                       "Cannot read properties of undefined (reading 'logicalResourceId')"))).
  { unfold createNetworkFirewall_body. rewrite Hmatch. unfold bind at 1. rewrite (Hids w).
    rewrite Hres, (proj2 (absent_Some_false arn) Hne).
    unfold bind at 1. rewrite Hrun.
    unfold bind at 1, addFirewallLoggingConfiguration. rewrite Hlogging. reflexivity. }
  rewrite Hbody. auto.
Qed.

Lemma createNetworkFirewall_no_logging_record_throws_witness :
  let container := mkNestedAseaStackInfo "Network-Prod" "NetworkProdStack" [firewallRecord] in
  snd (createNetworkFirewall_body testEnv scenarioVpc container [firewallRecord] "Ref:VpcProd"
         {[ "Prod-A" := "SubnetProdA" ]} (Some policyInRun) (firewallItemProd "Prod-A")
         firewallWorld)
  = Thrown (TypeError "Cannot read properties of undefined (reading 'logicalResourceId')").
Proof.
  intros container.
  apply (createNetworkFirewall_no_logging_record_throws testEnv scenarioVpc container
           [firewallRecord] "Ref:VpcProd" {[ "Prod-A" := "SubnetProdA" ]} (Some policyInRun)
           (firewallItemProd "Prod-A") firewallRecord "Ref:PolicyInspect" firewallWorld).
  - reflexivity.
  - intros s [<-|[]]. by eexists.
  - left. exists policyInRun. repeat split. discriminate.
  - by eexists.
  - reflexivity.
Defined.

(** ** The gateway endpoint merger *)

(** A matched endpoint whose record holds no list of route tables (an
    attribute that is falsy): after its turn the attribute is the value it
    was, whatever the identifiers accumulated for the service, since line
    1213 assigns the value read before over the list assigned at line 1205;
    the endpoint is nevertheless exported and registered. *)
Theorem gatewayEndpoints_body_no_list (env : Env) (vpcItem : VpcConfig)
  (gatewayEndpointResources : list CfnResourceType) (tables : list string * list string)
  (endpointItem : GatewayEndpointServiceConfig) (r : CfnResourceType) (v : JsVal) (w : World) :
  findEndpointResource gatewayEndpointResources (service endpointItem)
  = Returned (Some r) ->
  attrOf w (logicalResourceId r) "routeTableIds" = Some v ->
  truthy v = false ->
  let run := gatewayEndpoints_body env vpcItem gatewayEndpointResources tables endpointItem w in
  snd run = Returned tt
  /\ attrOf (fst run) (logicalResourceId r) "routeTableIds" = Some v
  /\ ssmParameters (fst run)
     = ssmParameters w
       ++ [mkSsmParameterItem
             (pascalCase env ("SsmParam" +:+ pascalCase env (vpc_name vpcItem)
                              +:+ pascalCase env (service endpointItem) +:+ "EndpointId"))
             (getSsmPath env SsmResourceType.VPC_ENDPOINT
                         [vpc_name vpcItem; service endpointItem])
             (cfnRef (logicalResourceId r))]
  /\ aseaResources (fst run)
     = aseaResources w ++ [(VPC_ENDPOINT, vpc_name vpcItem +:+ "/" +:+ service endpointItem)].
Proof.
  intros Hfind Hv Hfalsy run.
  pose proof (attrOf_Some_hasResource _ _ _ _ Hv) as Hhas.
  unfold attrOf in Hv.
  destruct (template w !! logicalResourceId r) as [rec|] eqn:Hrec; [|discriminate].
  simpl in Hv. injection Hv as Hv.
  assert (Hbody : run
    = (set_aseaResources
         (fun l => l ++ [(VPC_ENDPOINT, vpc_name vpcItem +:+ "/" +:+ service endpointItem)])
         (set_ssmParameters
            (fun l => l ++ [mkSsmParameterItem
               (pascalCase env ("SsmParam" +:+ pascalCase env (vpc_name vpcItem)
                                +:+ pascalCase env (service endpointItem) +:+ "EndpointId"))
               (getSsmPath env SsmResourceType.VPC_ENDPOINT
                           [vpc_name vpcItem; service endpointItem])
               (cfnRef (logicalResourceId r))])
            (writeAttr (logicalResourceId r) "routeTableIds" v
               (writeAttr (logicalResourceId r) "routeTableIds"
                  (JArr (map JStr (if String.eqb (service endpointItem) "s3"
                                   then fst tables else snd tables))) w))),
       Returned tt)).
  { subst run. unfold gatewayEndpoints_body. rewrite Hfind. cbv zeta.
    unfold bind at 1. rewrite (getResource_Some _ _ _ Hrec), Hv, Hfalsy. reflexivity. }
  rewrite Hbody. split; [reflexivity|]. split; [|by split].
  cbn [fst]. rewrite attrOf_set_aseaResources, attrOf_set_ssmParameters.
  apply attrOf_writeAttr_eq. by apply hasResource_writeAttr.
Qed.

Lemma gatewayEndpoints_body_no_list_witness :
  let run :=
    gatewayEndpoints_body endpointEnv (endpointVpc [mkGatewayEndpointServiceConfig "s3"])
      [s3EndpointRecord] (["rtb-a"; "rtb-b"], ["rtb-a"]) (mkGatewayEndpointServiceConfig "s3")
      (endpointWorld None) in
  snd run = Returned tt
  /\ attrOf (fst run) "S3Endpoint" "routeTableIds" = Some JUndef.
Proof.
  intros run.
  destruct (gatewayEndpoints_body_no_list endpointEnv
              (endpointVpc [mkGatewayEndpointServiceConfig "s3"]) [s3EndpointRecord]
              (["rtb-a"; "rtb-b"], ["rtb-a"]) (mkGatewayEndpointServiceConfig "s3")
              s3EndpointRecord JUndef (endpointWorld None) eq_refl eq_refl eq_refl)
    as (Hret & Hattr & _).
  split; [exact Hret | exact Hattr].
Defined.

Lemma findEndpointResource_throws before bad after endpointService e :
  (forall r, In r before ->
     exists v, serviceNameLast r = Returned v
               /\ strict_eq v (JStr ("." +:+ endpointService)) = false) ->
  serviceNameLast bad = Thrown e ->
  findEndpointResource (before ++ bad :: after) endpointService = Thrown e.
Proof.
  intros Hbefore Hbad. induction before as [|a before IH]; simpl.
  - by rewrite Hbad.
  - destruct (Hbefore a ltac:(by left)) as (v & -> & ->).
    apply IH. intros r Hr. apply Hbefore. by right.
Qed.

(** The lookup of the record of an endpoint reads the service name of each
    endpoint record in turn, as a join of parts.  When a record whose
    service name is a plain string comes before any record of the service of
    the first endpoint of the target, the merger throws a type error and
    nothing is written, also when a later record is of that service. *)
Theorem gatewayEndpoints_plain_service_name_throws (env : Env) (vpcItem : VpcConfig)
  (vpcStackInfo : NestedAseaStackInfo) (endpointItem : GatewayEndpointServiceConfig)
  (others : list GatewayEndpointServiceConfig) (before after : list CfnResourceType)
  (bad : CfnResourceType) (name : string) (w : World) :
  gatewayEndpoints_endpoints vpcItem = Some (endpointItem :: others) ->
  filterResourcesByType (resources vpcStackInfo) RESOURCE_TYPE.VPC_ENDPOINT
  = before ++ bad :: after ->
  (forall r, In r before ->
     exists v, serviceNameLast r = Returned v
               /\ strict_eq v (JStr ("." +:+ service endpointItem)) = false) ->
  prop "ServiceName" (Properties bad) = JStr name ->
  gatewayEndpoints env vpcItem vpcStackInfo w
  = (w, Thrown (TypeError "Cannot read properties of undefined (reading '1')")).
Proof.
  intros Hcfg Hres Hbefore Hname.
  unfold gatewayEndpoints. rewrite Hcfg, Hres.
  destruct (before ++ bad :: after) as [|first rest] eqn:Happ; [by destruct before|].
  rewrite <- Happ. cbn [for_each]. unfold bind, gatewayEndpoints_body.
  rewrite (findEndpointResource_throws before bad after (service endpointItem)
             (TypeError "Cannot read properties of undefined (reading '1')") Hbefore).
  - reflexivity.
  - unfold serviceNameLast. rewrite Hname. reflexivity.
Qed.

Lemma gatewayEndpoints_plain_service_name_throws_witness :
  let plain :=
    mkCfnResourceType RESOURCE_TYPE.VPC_ENDPOINT "DynamoEndpoint" "vpce-0ddb" []
      [("ServiceName", JStr "com.amazonaws.us-east-1.dynamodb")] in
  let container :=
    mkNestedAseaStackInfo "Phase1-VpcStackProd" "VpcStackProd" [plain; s3EndpointRecord] in
  gatewayEndpoints endpointEnv (endpointVpc [mkGatewayEndpointServiceConfig "s3"]) container
                   (endpointWorld None)
  = (endpointWorld None,
     Thrown (TypeError "Cannot read properties of undefined (reading '1')")).
Proof.
  intros plain container.
  apply (gatewayEndpoints_plain_service_name_throws endpointEnv
           (endpointVpc [mkGatewayEndpointServiceConfig "s3"]) container
           (mkGatewayEndpointServiceConfig "s3") [] [] [s3EndpointRecord] plain
           "com.amazonaws.us-east-1.dynamodb" (endpointWorld None)).
  - reflexivity.
  - reflexivity.
  - intros r [].
  - reflexivity.
Defined.

(** Merging the same accumulated identifiers a second time adds nothing: a
    second run of the merger leaves the list of an endpoint as the first run
    left it. *)
Theorem mergeRouteTableIds_idempotent (routeTableIds : list JsVal) (accumulated : list string) :
  mergeRouteTableIds (mergeRouteTableIds routeTableIds accumulated) accumulated
  = mergeRouteTableIds routeTableIds accumulated.
Proof.
  destruct (mergeRouteTableIds_spec accumulated routeTableIds) as (added & Heq & _ & Hin).
  rewrite Heq. by apply mergeRouteTableIds_again.
Qed.

(** ** The network and subnet mergers *)

Lemma for_fold_app {A B : Type} (body : B -> A -> M World B) (l1 l2 : list A) :
  forall acc w,
    for_fold body acc (l1 ++ l2) w
    = match for_fold body acc l1 w with
      | (w1, Returned acc1) => for_fold body acc1 l2 w1
      | (w1, Thrown e) => (w1, Thrown e)
      end.
Proof.
  induction l1 as [|x l1 IH]; intros acc w; simpl; [reflexivity|].
  unfold bind. destruct (body acc x w) as [w1 [acc1|e]]; [apply IH | reflexivity].
Qed.

(** The turn of the subnet merger for a subnet that is matched to a record
    of the template. *)
Lemma createSubnets_body_turn env vpcItem vpcStackInfo acc subnetItem r w :
  getSubnetResourceByTag (subnet_name subnetItem) vpcStackInfo = Some r ->
  hasResource (logicalResourceId r) w ->
  exists w',
    createSubnets_body env vpcItem vpcStackInfo acc subnetItem w
    = (w', Returned (<[subnet_name subnetItem := logicalResourceId r]> acc))
    /\ (forall id, hasResource id w' <-> hasResource id w)
    /\ aseaResources w'
       = aseaResources w ++ [(EC2_SUBNET, vpc_name vpcItem +:+ "/" +:+ subnet_name subnetItem)]
    /\ map parameterName (ssmParameters w')
       = map parameterName (ssmParameters w)
         ++ [getSsmPath env SsmResourceType.SUBNET [vpc_name vpcItem; subnet_name subnetItem]]
    /\ (attrOf w' (logicalResourceId r) "cidrBlock" = Some (of_str (ipv4CidrBlock subnetItem))
        /\ attrOf w' (logicalResourceId r) "availabilityZone"
           = Some (JStr (region vpcItem +:+ show_az (availabilityZone subnetItem)))
        /\ attrOf w' (logicalResourceId r) "mapPublicIpOnLaunch"
           = Some (of_bool (mapPublicIpOnLaunch subnetItem)))
    /\ (forall id attr, id <> logicalResourceId r -> attrOf w' id attr = attrOf w id attr).
Proof.
  intros Hfound Hhas. pose proof Hhas as [rec Hrec].
  unfold createSubnets_body. rewrite Hfound. cbv zeta.
  unfold bind at 1. rewrite (getResource_Some _ _ _ Hrec).
  unfold setAttr, addSsmParameter, addAseaResource, bind, modify, ret.
  eexists. split; [reflexivity|]. split; [|split; [|split; [|split]]].
  - intros id. unfold hasResource at 1. cbn [template set_aseaResources set_ssmParameters].
    fold (hasResource id (writeAttr (logicalResourceId r) "mapPublicIpOnLaunch"
                            (of_bool (mapPublicIpOnLaunch subnetItem))
                            (writeAttr (logicalResourceId r) "availabilityZone"
                               (JStr (region vpcItem +:+ show_az (availabilityZone subnetItem)))
                               (writeAttr (logicalResourceId r) "cidrBlock"
                                  (of_str (ipv4CidrBlock subnetItem)) w)))).
    by rewrite !hasResource_writeAttr.
  - reflexivity.
  - cbn [ssmParameters set_aseaResources set_ssmParameters writeAttr set_template].
    by rewrite map_app.
  - rewrite !attrOf_set_aseaResources, !attrOf_set_ssmParameters. split; [|split].
    + rewrite !attrOf_writeAttr_ne by (right; discriminate). by apply attrOf_writeAttr_eq.
    + rewrite attrOf_writeAttr_ne by (right; discriminate).
      apply attrOf_writeAttr_eq. by apply hasResource_writeAttr.
    + apply attrOf_writeAttr_eq. by rewrite !hasResource_writeAttr.
  - intros id attr Hid. rewrite attrOf_set_aseaResources, attrOf_set_ssmParameters.
    rewrite !attrOf_writeAttr_ne by (left; congruence). reflexivity.
Qed.

(** The loop of the subnet merger, from any map and any world in which the
    matched records are included. *)
Lemma createSubnets_loop env vpcItem vpcStackInfo items :
  forall acc w,
    subnetRecordsIncluded vpcStackInfo items w ->
    exists w' subs,
      for_fold (createSubnets_body env vpcItem vpcStackInfo) acc items w = (w', Returned subs)
      /\ (forall id, hasResource id w' <-> hasResource id w)
      /\ aseaResources w'
         = aseaResources w
           ++ map (fun subnetItem =>
                     (EC2_SUBNET, vpc_name vpcItem +:+ "/" +:+ subnet_name subnetItem))
                  (matchedSubnets vpcStackInfo items)
      /\ map parameterName (ssmParameters w')
         = map parameterName (ssmParameters w)
           ++ map (fun subnetItem =>
                     getSsmPath env SsmResourceType.SUBNET
                                [vpc_name vpcItem; subnet_name subnetItem])
                  (matchedSubnets vpcStackInfo items)
      /\ (forall name id,
            subs !! name = Some id
            <-> (exists subnetItem r,
                   In subnetItem items /\ subnet_name subnetItem = name
                   /\ getSubnetResourceByTag name vpcStackInfo = Some r
                   /\ logicalResourceId r = id)
                \/ ((forall subnetItem, In subnetItem items -> subnet_name subnetItem = name ->
                       getSubnetResourceByTag name vpcStackInfo = None)
                    /\ acc !! name = Some id))
      /\ (forall id attr,
            (forall subnetItem r, In subnetItem items ->
               getSubnetResourceByTag (subnet_name subnetItem) vpcStackInfo = Some r ->
               logicalResourceId r <> id) ->
            attrOf w' id attr = attrOf w id attr).
Proof.
  induction items as [|it rest IH]; intros acc w Hincl.
  - exists w, acc. split; [reflexivity|]. split; [tauto|].
    split; [by rewrite app_nil_r|]. split; [by rewrite app_nil_r|]. split; [|reflexivity].
    intros name id. split.
    + intros Hacc. right. split; [intros ? []|exact Hacc].
    + intros [(? & ? & [] & _)|[_ Hacc]]. exact Hacc.
  - cbn [for_fold]. unfold bind, matchedSubnets. cbn [List.filter].
    fold (matchedSubnets vpcStackInfo rest).
    destruct (getSubnetResourceByTag (subnet_name it) vpcStackInfo) as [r|] eqn:Hfound.
    + destruct (createSubnets_body_turn env vpcItem vpcStackInfo acc it r w Hfound
                  (Hincl it r (or_introl eq_refl) Hfound))
        as (w1 & Hturn & Hhas1 & Hasea1 & Hssm1 & _ & Hframe1).
      rewrite Hturn.
      destruct (IH (<[subnet_name it := logicalResourceId r]> acc) w1)
        as (w' & subs & Hrun & Hhas & Hasea & Hssm & Hmap & Hframe).
      { intros it' r' Hin' Hfound'. apply Hhas1. apply (Hincl it' r'); [by right | exact Hfound']. }
      exists w', subs. split; [exact Hrun|]. split; [intros id; by rewrite Hhas, Hhas1|].
      rewrite bool_decide_eq_true_2 by eauto. cbn [map].
      split; [by rewrite Hasea, Hasea1, <- app_assoc|].
      split; [by rewrite Hssm, Hssm1, <- app_assoc|]. split.
      * intros name id. rewrite Hmap. split.
        -- intros [(it' & r' & Hin' & Hname & Hget & Hid)|[Hnone Hacc]].
           ++ left. exists it', r'. repeat split; auto. by right.
           ++ destruct (decide (subnet_name it = name)) as [Heq|Hne].
              ** rewrite Heq, lookup_insert_eq in Hacc. injection Hacc as <-.
                 left. exists it, r. split; [by left|]. split; [exact Heq|].
                 split; [by rewrite <- Heq | reflexivity].
              ** rewrite lookup_insert_ne in Hacc by exact Hne.
                 right. split; [|exact Hacc].
                 intros it' [<-|Hin'] Hname; [contradiction | by apply (Hnone it')].
        -- intros [(it' & r' & [<-|Hin'] & Hname & Hget & Hid)|[Hnone Hacc]].
           ++ rewrite <- Hname, Hfound in Hget. injection Hget as <-.
              destruct (decide (name ∈ map subnet_name rest)) as [Hin|Hnotin].
              ** apply list_elem_of_In, in_map_iff in Hin as (it2 & Hname2 & Hin2).
                 left. exists it2, r. repeat split; auto. by rewrite <- Hname.
              ** right. split.
                 --- intros it2 Hin2 Hname2. exfalso. apply Hnotin.
                     apply list_elem_of_In, in_map_iff. eauto.
                 --- by rewrite Hname, lookup_insert_eq, Hid.
           ++ left. exists it', r'. auto.
           ++ assert (Hne : subnet_name it <> name).
              { intros Heq. specialize (Hnone it (or_introl eq_refl) Heq).
                rewrite <- Heq in Hnone. congruence. }
              right. split; [intros it' Hin'; apply Hnone; by right|].
              by rewrite lookup_insert_ne.
      * intros id attr Hother. rewrite Hframe.
        -- apply Hframe1. intros Heq. apply (Hother it r (or_introl eq_refl) Hfound). by symmetry.
        -- intros it' r' Hin'. apply Hother. by right.
    + destruct (IH acc w) as (w' & subs & Hrun & Hhas & Hasea & Hssm & Hmap & Hframe).
      { intros it' r' Hin'. apply Hincl. by right. }
      assert (Hbody : createSubnets_body env vpcItem vpcStackInfo acc it w = (w, Returned acc))
        by (unfold createSubnets_body; by rewrite Hfound).
      rewrite Hbody.
      exists w', subs. split; [exact Hrun|]. split; [exact Hhas|].
      rewrite bool_decide_eq_false_2 by (by intros [? ?]).
      split; [exact Hasea|]. split; [exact Hssm|]. split.
      * intros name id. rewrite Hmap. split.
        -- intros [(it' & r' & Hin' & Hrest)|[Hnone Hacc]].
           ++ left. exists it', r'. split; [by right | exact Hrest].
           ++ right. split; [|exact Hacc].
              intros it' [<-|Hin'] Hname; [by rewrite <- Hname | by apply (Hnone it')].
        -- intros [(it' & r' & [<-|Hin'] & Hname & Hget & Hid)|[Hnone Hacc]].
           ++ rewrite <- Hname in Hget. congruence.
           ++ left. exists it', r'. auto.
           ++ right. split; [intros it' Hin'; apply Hnone; by right | exact Hacc].
      * intros id attr Hother. apply Hframe. intros it' r' Hin'. apply Hother. by right.
Qed.

(** When the template includes the subnet records that the subnets of the
    target are named after, the subnet merger returns, and the map it hands
    to the mergers that follow holds exactly the names of the matched
    subnets, each with the logical identifier of its record: a subnet of the
    target without a record has no entry. *)
Theorem createSubnets_returned_map (env : Env) (vpcItem : VpcConfig)
  (vpcStackInfo : NestedAseaStackInfo) (w : World) :
  subnetRecordsIncluded vpcStackInfo (orEmpty (subnets vpcItem)) w ->
  exists subs,
    snd (createSubnets env vpcItem vpcStackInfo w) = Returned subs
    /\ forall name id,
         subs !! name = Some id
         <-> exists subnetItem r,
               In subnetItem (orEmpty (subnets vpcItem))
               /\ subnet_name subnetItem = name
               /\ getSubnetResourceByTag name vpcStackInfo = Some r
               /\ logicalResourceId r = id.
Proof.
  intros Hincl.
  destruct (createSubnets_loop env vpcItem vpcStackInfo _ ∅ w Hincl)
    as (w' & subs & Hrun & _ & _ & _ & Hmap & _).
  exists subs. unfold createSubnets. rewrite Hrun. split; [reflexivity|].
  intros name id. rewrite Hmap. split; [|by left].
  intros [Hex|[_ Hempty]]; [exact Hex|]. by rewrite lookup_empty in Hempty.
Qed.

Lemma createSubnets_returned_map_witness :
  exists subs,
    snd (createSubnets testEnv scenarioVpc scenarioContainer scenarioWorld) = Returned subs
    /\ subs !! "Prod-A" = Some "SubnetProdA".
Proof.
  destruct (createSubnets_returned_map testEnv scenarioVpc scenarioContainer scenarioWorld)
    as (subs & Hret & Hmap).
  { intros subnetItem r [<-|[]] Hfound. vm_compute in Hfound. injection Hfound as <-.
    by eexists. }
  exists subs. split; [exact Hret|]. apply Hmap.
  exists (mkSubnetConfig "Prod-A" (Some "10.1.1.0/24") (Some (AzLetter "a")) (Some false)),
         scenarioSubnetRecord.
  split; [by left|]. by repeat split.
Defined.

(** Under the same condition the subnet merger registers one subnet and
    queues one export per matched subnet of the target, in the order of the
    target, after what was registered and queued before; an unmatched subnet
    is neither registered nor exported. *)
Theorem createSubnets_registers_matched (env : Env) (vpcItem : VpcConfig)
  (vpcStackInfo : NestedAseaStackInfo) (w : World) :
  subnetRecordsIncluded vpcStackInfo (orEmpty (subnets vpcItem)) w ->
  let w' := fst (createSubnets env vpcItem vpcStackInfo w) in
  let matched := matchedSubnets vpcStackInfo (orEmpty (subnets vpcItem)) in
  aseaResources w'
  = aseaResources w
    ++ map (fun subnetItem => (EC2_SUBNET, vpc_name vpcItem +:+ "/" +:+ subnet_name subnetItem))
           matched
  /\ map parameterName (ssmParameters w')
     = map parameterName (ssmParameters w)
       ++ map (fun subnetItem =>
                 getSsmPath env SsmResourceType.SUBNET [vpc_name vpcItem; subnet_name subnetItem])
              matched.
Proof.
  intros Hincl.
  destruct (createSubnets_loop env vpcItem vpcStackInfo _ ∅ w Hincl)
    as (w1 & subs & Hrun & _ & Hasea & Hssm & _).
  unfold createSubnets. rewrite Hrun. by split.
Qed.

Lemma createSubnets_registers_matched_witness :
  aseaResources (fst (createSubnets testEnv scenarioVpc scenarioContainer scenarioWorld))
  = [(EC2_SUBNET, "Prod/Prod-A")].
Proof.
  apply (createSubnets_registers_matched testEnv scenarioVpc scenarioContainer scenarioWorld).
  intros subnetItem r [<-|[]] Hfound. vm_compute in Hfound. injection Hfound as <-.
  by eexists.
Defined.

(** The attributes of a matched subnet record after the subnet merger are
    those of the last subnet of the target that is matched to it: its CIDR
    block (undefined when the target gives none), the region followed by the
    availability zone as written in the target (the text [undefined] when the
    target gives none), and its map-public-IP flag. *)
Theorem createSubnets_last_item_wins (env : Env) (vpcItem : VpcConfig)
  (vpcStackInfo : NestedAseaStackInfo) (before after : list SubnetConfig)
  (subnetItem : SubnetConfig) (r : CfnResourceType) (w : World) :
  subnets vpcItem = Some (before ++ subnetItem :: after) ->
  subnetRecordsIncluded vpcStackInfo (before ++ subnetItem :: after) w ->
  getSubnetResourceByTag (subnet_name subnetItem) vpcStackInfo = Some r ->
  (forall later r', In later after ->
     getSubnetResourceByTag (subnet_name later) vpcStackInfo = Some r' ->
     logicalResourceId r' <> logicalResourceId r) ->
  let w' := fst (createSubnets env vpcItem vpcStackInfo w) in
  attrOf w' (logicalResourceId r) "cidrBlock" = Some (of_str (ipv4CidrBlock subnetItem))
  /\ attrOf w' (logicalResourceId r) "availabilityZone"
     = Some (JStr (region vpcItem +:+ show_az (availabilityZone subnetItem)))
  /\ attrOf w' (logicalResourceId r) "mapPublicIpOnLaunch"
     = Some (of_bool (mapPublicIpOnLaunch subnetItem)).
Proof.
  intros Hcfg Hincl Hfound Hlater.
  destruct (createSubnets_loop env vpcItem vpcStackInfo before ∅ w)
    as (w1 & subs1 & Hrun1 & Hhas1 & _).
  { intros it r' Hin. apply Hincl. apply in_or_app. by left. }
  destruct (createSubnets_body_turn env vpcItem vpcStackInfo subs1 subnetItem r w1 Hfound)
    as (w2 & Hturn & Hhas2 & _ & _ & Hattrs & _).
  { apply Hhas1. apply (Hincl subnetItem r); [|exact Hfound]. apply in_or_app. right. by left. }
  destruct (createSubnets_loop env vpcItem vpcStackInfo after
              (<[subnet_name subnetItem := logicalResourceId r]> subs1) w2)
    as (w3 & subs3 & Hrun3 & _ & _ & _ & _ & Hframe).
  { intros it r' Hin Hfound'. apply Hhas2, Hhas1. apply (Hincl it r'); [|exact Hfound'].
    apply in_or_app. right. by right. }
  unfold createSubnets. rewrite Hcfg. cbn [orEmpty default from_option id].
  rewrite for_fold_app, Hrun1. cbn [for_fold]. unfold bind. rewrite Hturn, Hrun3. cbn [fst].
  rewrite !Hframe by exact Hlater. exact Hattrs.
Qed.

(** The subnet [Prod-A] is declared twice, the second time without an
    availability zone. *)
Lemma createSubnets_last_item_wins_witness :
  let first := mkSubnetConfig "Prod-A" (Some "10.1.1.0/24") (Some (AzLetter "a")) (Some false) in
  let second := mkSubnetConfig "Prod-A" (Some "10.1.9.0/24") None None in
  let vpcItem :=
    mkVpcConfig "Prod" "us-east-1" (Some ["10.1.0.0/16"]) None None None
                (Some [first; second]) None None None in
  let w' := fst (createSubnets testEnv vpcItem scenarioContainer scenarioWorld) in
  attrOf w' "SubnetProdA" "cidrBlock" = Some (JStr "10.1.9.0/24")
  /\ attrOf w' "SubnetProdA" "availabilityZone" = Some (JStr "us-east-1undefined")
  /\ attrOf w' "SubnetProdA" "mapPublicIpOnLaunch" = Some JUndef.
Proof.
  intros first second vpcItem.
  apply (createSubnets_last_item_wins testEnv vpcItem scenarioContainer [first] [] second
           scenarioSubnetRecord scenarioWorld).
  - reflexivity.
  - intros it r [<-|[<-|[]]] Hfound; vm_compute in Hfound; injection Hfound as <-;
      by eexists.
  - reflexivity.
  - intros later r' [].
Defined.

(** On a network record that the template includes, the assignments of the
    constructor throw a type error, with nothing written, when the target
    gives no list of CIDR blocks; otherwise they return and the record holds
    the first CIDR block of the target (undefined when the list is empty),
    its DNS flags and its tenancy, an attribute the target leaves out being
    overwritten by undefined. *)
Theorem vpcAttributes_target_values (resource : CfnResourceType) (vpcInScope : VpcConfig)
  (w : World) :
  hasResource (logicalResourceId resource) w ->
  let run := vpcAttributes resource vpcInScope w in
  let id := logicalResourceId resource in
  (cidrs vpcInScope = None ->
   run = (w, Thrown (TypeError "Cannot read properties of undefined (reading '0')")))
  /\ (forall cs, cidrs vpcInScope = Some cs ->
        snd run = Returned tt
        /\ attrOf (fst run) id "cidrBlock" = Some (of_str (head cs))
        /\ attrOf (fst run) id "enableDnsHostnames"
           = Some (of_bool (enableDnsHostnames vpcInScope))
        /\ attrOf (fst run) id "enableDnsSupport" = Some (of_bool (enableDnsSupport vpcInScope))
        /\ attrOf (fst run) id "instanceTenancy" = Some (of_str (instanceTenancy vpcInScope))).
Proof.
  intros Hhas run id. pose proof Hhas as [rec Hrec]. subst run. split.
  - intros Hnone. unfold vpcAttributes. cbv zeta. unfold bind.
    by rewrite (getResource_Some _ _ _ Hrec), Hnone.
  - intros cs Hcs.
    assert (Hrun : vpcAttributes resource vpcInScope w
                   = (writeAttr id "instanceTenancy" (of_str (instanceTenancy vpcInScope))
                        (writeAttr id "enableDnsSupport" (of_bool (enableDnsSupport vpcInScope))
                           (writeAttr id "enableDnsHostnames"
                              (of_bool (enableDnsHostnames vpcInScope))
                              (writeAttr id "cidrBlock" (of_str (head cs)) w))),
                      Returned tt)).
    { unfold vpcAttributes. cbv zeta. unfold bind at 1.
      by rewrite (getResource_Some _ _ _ Hrec), Hcs. }
    rewrite Hrun. cbn [fst snd].
    split; [reflexivity|]. split; [|split; [|split]].
    + rewrite !attrOf_writeAttr_ne by (right; discriminate). by apply attrOf_writeAttr_eq.
    + rewrite !attrOf_writeAttr_ne by (right; discriminate).
      apply attrOf_writeAttr_eq. by rewrite !hasResource_writeAttr.
    + rewrite !attrOf_writeAttr_ne by (right; discriminate).
      apply attrOf_writeAttr_eq. by rewrite !hasResource_writeAttr.
    + apply attrOf_writeAttr_eq. by rewrite !hasResource_writeAttr.
Qed.

Lemma vpcAttributes_target_values_witness :
  let noCidr := mkVpcConfig "Prod" "us-east-1" (Some []) None (Some true) None None None None
                            None in
  attrOf (fst (vpcAttributes scenarioVpcRecord noCidr scenarioWorld)) "VpcProd" "cidrBlock"
  = Some JUndef
  /\ attrOf (fst (vpcAttributes scenarioVpcRecord scenarioVpc scenarioWorld)) "VpcProd"
            "cidrBlock"
     = Some (JStr "10.1.0.0/16").
Proof.
  intros noCidr.
  assert (Hhas : hasResource (logicalResourceId scenarioVpcRecord) scenarioWorld)
    by (by eexists).
  split.
  - exact (proj1 (proj2 (proj2 (vpcAttributes_target_values scenarioVpcRecord noCidr
                                  scenarioWorld Hhas) [] eq_refl))).
  - exact (proj1 (proj2 (proj2 (vpcAttributes_target_values scenarioVpcRecord scenarioVpc
                                  scenarioWorld Hhas) ["10.1.0.0/16"] eq_refl))).
Defined.

(** ** The rules of the security groups *)

Lemma unchanging_ret {A : Type} (a : A) : unchanging (ret a).
Proof. intros w. reflexivity. Qed.

Lemma unchanging_lift {A : Type} (o : Outcome A) : unchanging (lift o).
Proof. intros w. reflexivity. Qed.

Lemma unchanging_bind {A B : Type} (m : M World A) (k : A -> M World B) :
  unchanging m -> (forall a, unchanging (k a)) -> unchanging (bind m k).
Proof.
  intros Hm Hk w. unfold bind. specialize (Hm w).
  destruct (m w) as [w1 [a|e]]; simpl in *; subst w1; [apply Hk | reflexivity].
Qed.

Lemma unchanging_for_fold {A B : Type} (body : B -> A -> M World B) (l : list A) :
  (forall acc x, unchanging (body acc x)) -> forall acc, unchanging (for_fold body acc l).
Proof.
  intros Hbody. induction l as [|x l IH]; intros acc; simpl.
  - apply unchanging_ret.
  - apply unchanging_bind; [apply Hbody | exact IH].
Qed.

Create HintDb pure.
#[local] Hint Resolve unchanging_ret unchanging_lift : pure.

Ltac pure_step :=
  repeat first
    [ solve [auto with pure]
    | apply unchanging_for_fold; intros ? ?
    | apply unchanging_bind; [|intros ?] ].

Lemma unchanging_processSecurityGroupSources g securityGroupsMap securityGroupRuleItem
  ruleProps :
  unchanging (processSecurityGroupSources g securityGroupsMap securityGroupRuleItem ruleProps).
Proof.
  unfold processSecurityGroupSources. apply unchanging_for_fold. intros acc sourceItem.
  destruct sourceItem as [s|account vpc subnets|securityGroups|prefixLists]; simpl.
  - destruct (nonEmptyString_is g s); auto with pure.
  - pure_step.
  - auto with pure.
  - auto with pure.
Qed.

#[local] Hint Resolve unchanging_processSecurityGroupSources : pure.

Lemma unchanging_rulesOf g securityGroupsMap securityGroupRuleItem :
  unchanging (rulesOf g securityGroupsMap securityGroupRuleItem).
Proof.
  unfold rulesOf, processTcpSources, processUdpSources, processTypeSources. pure_step.
Qed.

#[local] Hint Resolve unchanging_rulesOf : pure.

Lemma unchanging_inboundRulesOf g securityGroupsMap securityGroupItem :
  unchanging (inboundRulesOf g securityGroupsMap securityGroupItem).
Proof. unfold inboundRulesOf. pure_step. Qed.

(** The inbound rules of a security group are classified in the turns of
    the loop over its outbound rules only: for a group of the target that
    declares no outbound rule, the second loop registers nothing and writes
    nothing, whatever its inbound rules and the legacy rules, and also when
    it throws on a source of an inbound rule. *)
Theorem securityGroupRules_body_no_outbound (env : Env) (g : Getters) (vpcItem : VpcConfig)
  (vpcStackInfo : NestedAseaStackInfo)
  (securityGroupsMap securityGroupPhysicalIdMap : gmap string string)
  (securityGroupItem : SecurityGroupConfig) (w : World) :
  outboundRules securityGroupItem = [] ->
  fst (securityGroupRules_body env g vpcItem vpcStackInfo securityGroupsMap
                               securityGroupPhysicalIdMap securityGroupItem w) = w.
Proof.
  intros Hout. unfold securityGroupRules_body. cbv zeta.
  destruct (securityGroupsMap !! sg_name securityGroupItem) as [id|]; [|reflexivity].
  destruct (absent (Some id)); [reflexivity|].
  rewrite Hout. apply unchanging_bind; [apply unchanging_inboundRulesOf|].
  intros rules. cbn [for_fold]. pure_step.
Qed.

Lemma securityGroupRules_body_no_outbound_witness :
  fst (securityGroupRules_body testEnv testGetters scenarioVpc groupContainer groupsMap
                               groupsPhysicalIdMap (webGroup []) groupWorld) = groupWorld.
Proof.
  apply (securityGroupRules_body_no_outbound testEnv testGetters scenarioVpc groupContainer
           groupsMap groupsPhysicalIdMap (webGroup []) groupWorld).
  reflexivity.
Defined.

Lemma for_fold_invariant {A B : Type} (body : B -> A -> M World B) (P : B -> Prop)
  (l : list A) :
  (forall acc x w w' acc',
     In x l -> P acc -> body acc x w = (w', Returned acc') -> P acc') ->
  forall acc w w' res,
    P acc -> for_fold body acc l w = (w', Returned res) -> P res.
Proof.
  induction l as [|x l IH]; intros Hbody acc w w' res Hacc Hrun; simpl in Hrun.
  - injection Hrun as _ <-. exact Hacc.
  - unfold bind in Hrun. destruct (body acc x w) as [w1 [acc1|e]] eqn:Hx; [|discriminate].
    apply (IH (fun a y v v' a' Hy => Hbody a y v v' a' (or_intror Hy)) acc1 w1 w' res);
      [|exact Hrun].
    apply (Hbody acc x w w1 acc1); [by left | exact Hacc | exact Hx].
Qed.

Lemma ruleFrom_app securityGroupsMap securityGroupRuleItem ruleProps rules rule :
  Forall (ruleFrom securityGroupsMap securityGroupRuleItem ruleProps) rules ->
  ruleFrom securityGroupsMap securityGroupRuleItem ruleProps rule ->
  Forall (ruleFrom securityGroupsMap securityGroupRuleItem ruleProps) (rules ++ [rule]).
Proof. intros Hrules Hrule. apply Forall_app. split; [exact Hrules | by apply Forall_singleton]. Qed.

Lemma processSource_rules g securityGroupsMap securityGroupRuleItem ruleProps acc sourceItem
  w w' rules :
  In sourceItem (sources securityGroupRuleItem) ->
  Forall (ruleFrom securityGroupsMap securityGroupRuleItem ruleProps) acc ->
  processSource g securityGroupsMap securityGroupRuleItem ruleProps acc sourceItem w
  = (w', Returned rules) ->
  Forall (ruleFrom securityGroupsMap securityGroupRuleItem ruleProps) rules.
Proof.
  intros Hin Hacc Hrun.
  destruct sourceItem as [s|account vpc subnets|securityGroups|prefixLists]; simpl in Hrun.
  - destruct (nonEmptyString_is g s); injection Hrun as _ <-; [|exact Hacc].
    apply ruleFrom_app; [exact Hacc|]. repeat split. left. by repeat split.
  - unfold bind, lift in Hrun.
    destruct (getVpcConfig g vpc) as [sourceVpcItem|e]; [|discriminate].
    revert Hrun. apply for_fold_invariant; [|exact Hacc].
    intros rules0 subnet v v' rules1 _ Hrules0 Hstep. unfold bind, lift in Hstep.
    destruct (getSubnetConfig_ipv4CidrBlock g sourceVpcItem subnet) as [cidr|e];
      [|discriminate].
    injection Hstep as _ <-. apply ruleFrom_app; [exact Hrules0|].
    repeat split. right. left. split; [reflexivity | eauto].
  - injection Hrun as _ <-.
    assert (Hsub : forall x, In x securityGroups -> In x securityGroups) by auto.
    revert acc Hacc Hsub. generalize securityGroups at 1 3.
    intros l. induction l as [|securityGroup l IH]; intros acc Hacc Hsub; [exact Hacc|].
    simpl. apply IH; [|intros x Hx; apply Hsub; by right].
    destruct (securityGroupsMap !! securityGroup) as [id|] eqn:Hid; [|exact Hacc].
    destruct (absent (Some id)) eqn:Habs; [exact Hacc|].
    apply ruleFrom_app; [exact Hacc|]. repeat split. right. right.
    split; [reflexivity|]. split; [exact Hid|].
    split; [by apply absent_Some_false|].
    exists securityGroups. split; [exact Hin|]. apply Hsub. by left.
  - injection Hrun as _ <-. exact Hacc.
Qed.

Lemma processSecurityGroupSources_rules g securityGroupsMap securityGroupRuleItem ruleProps
  w w' rules :
  processSecurityGroupSources g securityGroupsMap securityGroupRuleItem ruleProps w
  = (w', Returned rules) ->
  Forall (ruleFrom securityGroupsMap securityGroupRuleItem ruleProps) rules.
Proof.
  unfold processSecurityGroupSources. apply for_fold_invariant; [|apply Forall_nil_2].
  intros acc sourceItem v v' acc'. apply processSource_rules.
Qed.

(** The three loops over the ports and the rule types have one shape. *)
Lemma perKey_rules {K : Type} g securityGroupsMap securityGroupRuleItem (keys : list K)
  (ruleProps : K -> RuleProps) w w' rules :
  for_fold (fun securityGroupRules key =>
              rs <- processSecurityGroupSources g securityGroupsMap securityGroupRuleItem
                      (ruleProps key) ;;
              ret (securityGroupRules ++ rs))
           [] keys w = (w', Returned rules) ->
  Forall (fun rule => exists key,
            In key keys
            /\ ruleFrom securityGroupsMap securityGroupRuleItem (ruleProps key) rule) rules.
Proof.
  apply for_fold_invariant; [|apply Forall_nil_2].
  intros acc key v v' acc' Hkey Hacc Hstep. unfold bind in Hstep.
  destruct (processSecurityGroupSources _ _ _ _ v) as [v1 [rs|e]] eqn:Hrs; [|discriminate].
  injection Hstep as _ <-. apply Forall_app. split; [exact Hacc|].
  apply processSecurityGroupSources_rules in Hrs.
  eapply Forall_impl; [exact Hrs|]. intros rule Hrule. by exists key.
Qed.

Lemma rulesOf_rules g securityGroupsMap securityGroupRuleItem w w' rules :
  rulesOf g securityGroupsMap securityGroupRuleItem w = (w', Returned rules) ->
  Forall (fun rule => exists ruleProps,
            ruleFrom securityGroupsMap securityGroupRuleItem ruleProps rule) rules.
Proof.
  unfold rulesOf, bind. intros Hrun.
  destruct (processTcpSources _ _ _ w) as [w1 [tcp|e]] eqn:Htcp; [|discriminate].
  destruct (processUdpSources _ _ _ w1) as [w2 [udp|e]] eqn:Hudp; [|discriminate].
  destruct (processTypeSources _ _ _ w2) as [w3 [byType|e]] eqn:Htype; [|discriminate].
  injection Hrun as _ <-.
  apply perKey_rules in Htcp, Hudp, Htype.
  rewrite !Forall_app. repeat split;
    (eapply Forall_impl; [eassumption|]; intros rule (key & _ & Hrule); eauto).
Qed.

(** The rules that [processTypeSources] returns carry a rule type of the
    target.  A rule of type [ALL] has the protocol [-1] and no ports; a rule
    of any other type has the protocol [tcp] and, as both ports, the port
    the table gives for the type: none for a type that is not in the table,
    such as [UDP] or [ICMP]. *)
Theorem processTypeSources_rule_shape (g : Getters) (securityGroupsMap : gmap string string)
  (securityGroupRuleItem : SecurityGroupRuleConfig) (w w' : World)
  (rules : list SecurityGroupRuleInfo) (rule : SecurityGroupRuleInfo) :
  processTypeSources g securityGroupsMap securityGroupRuleItem w = (w', Returned rules) ->
  In rule rules ->
  exists ruleType,
    In ruleType (orEmpty (types securityGroupRuleItem))
    /\ type rule = Some ruleType
    /\ (ruleType = "ALL" ->
        protocol rule = "-1" /\ from rule = None /\ to rule = None)
    /\ (ruleType <> "ALL" ->
        protocol rule = "tcp" /\ from rule = portOf ruleType /\ to rule = portOf ruleType).
Proof.
  intros Hrun Hin. apply perKey_rules in Hrun.
  rewrite List.Forall_forall in Hrun. destruct (Hrun rule Hin) as (ruleType & Hkey & Hrule).
  destruct Hrule as (Hprotocol & Htype & Hfrom & Hto & _).
  exists ruleType. split; [exact Hkey|]. unfold typeRuleProps in *.
  destruct (String.eqb_spec ruleType "ALL") as [Hall|Hother]; simpl in *.
  - split; [exact Htype|]. split; [auto|]. intros Hne. contradiction.
  - split; [exact Htype|]. split; [intros Hall; contradiction | auto].
Qed.

(** A rule of type [UDP] from a CIDR: the rule returned has the protocol
    [tcp] and no ports. *)
Lemma processTypeSources_rule_shape_witness :
  let rule := mkSecurityGroupRuleInfo "tcp" "10.0.0.0/16" "10.0.0.0/16" (Some "UDP") None None
                                      None None in
  processTypeSources testGetters groupsMap
    (mkSecurityGroupRuleConfig None (Some ["UDP"]) None None [StringSource "10.0.0.0/16"])
    groupWorld
  = (groupWorld, Returned [rule])
  /\ exists ruleType,
       type rule = Some ruleType
       /\ (ruleType <> "ALL" ->
           protocol rule = "tcp" /\ from rule = portOf ruleType /\ to rule = portOf ruleType).
Proof.
  intros rule. split; [reflexivity|].
  destruct (processTypeSources_rule_shape testGetters groupsMap
              (mkSecurityGroupRuleConfig None (Some ["UDP"]) None None
                                         [StringSource "10.0.0.0/16"])
              groupWorld groupWorld [rule] rule eq_refl (or_introl eq_refl))
    as (ruleType & _ & Htype & _ & Hother).
  exists ruleType. by split.
Defined.

(** No rule that the rule functions return has a prefix list as its source:
    the branch of the classification for the source type [pl] is never
    taken, and no ingress property assigned to a security group names a
    prefix list. *)
Theorem rulesOf_never_prefix_list (env : Env) (g : Getters)
  (securityGroupsMap securityGroupPhysicalIdMap : gmap string string)
  (securityGroupRuleItem : SecurityGroupRuleConfig) (w w' : World)
  (rules : list SecurityGroupRuleInfo) (rule : SecurityGroupRuleInfo) :
  rulesOf g securityGroupsMap securityGroupRuleItem w = (w', Returned rules) ->
  In rule rules ->
  sourceType rule <> Some "pl"
  /\ forall p, In p (newIngressProperties env securityGroupPhysicalIdMap rule) ->
               sourcePrefixListId p = None.
Proof.
  intros Hrun Hin. apply rulesOf_rules in Hrun. rewrite List.Forall_forall in Hrun.
  destruct (Hrun rule Hin) as (ruleProps & _ & _ & _ & _ & _ & Hsource).
  assert (Hpl : sourceType rule <> Some "pl").
  { destruct Hsource as [(-> & _)|[(-> & _)|(-> & _)]]; discriminate. }
  split; [exact Hpl|]. intros p Hp. unfold newIngressProperties in Hp. cbv zeta in Hp.
  rewrite (bool_decide_eq_false_2 _ Hpl) in Hp.
  repeat (apply in_app_or in Hp as [Hp|Hp]);
    repeat match type of Hp with
           | In _ (if ?c then _ else _) => destruct c
           | In _ [] => destruct Hp
           | In _ [_] => destruct Hp as [<-|[]]; reflexivity
           end.
Qed.

(** The SSH rule from the security group [Mgmt], declared next to a prefix
    list. *)
Lemma rulesOf_never_prefix_list_witness :
  let rule := mkSecurityGroupRuleInfo "tcp" "Mgmt" "MgmtSg" (Some "SSH") (Some 22) (Some 22)
                                      (Some "sg") (Some "admin") in
  sourceType rule <> Some "pl"
  /\ Forall (fun p => sourcePrefixListId p = None)
            (newIngressProperties groupEnv groupsPhysicalIdMap rule).
Proof.
  intros rule.
  destruct (rulesOf_never_prefix_list groupEnv testGetters groupsMap groupsPhysicalIdMap
              (mkSecurityGroupRuleConfig (Some "admin") (Some ["SSH"]) None None
                 [PrefixListSource ["pl-admin"]; SecurityGroupSource ["Mgmt"; "Unknown"]])
              groupWorld groupWorld [rule] rule eq_refl (or_introl eq_refl))
    as [Hpl Hprops].
  split; [exact Hpl|]. apply List.Forall_forall. exact Hprops.
Defined.

Lemma processSecurityGroupSources_prefix_lists g securityGroupsMap securityGroupRuleItem
  ruleProps :
  (forall sourceItem, In sourceItem (sources securityGroupRuleItem) ->
     exists prefixLists, sourceItem = PrefixListSource prefixLists) ->
  pureAt (processSecurityGroupSources g securityGroupsMap securityGroupRuleItem ruleProps) [].
Proof.
  intros Hall w. unfold processSecurityGroupSources.
  induction (sources securityGroupRuleItem) as [|sourceItem l IH]; [reflexivity|].
  destruct (Hall sourceItem ltac:(by left)) as [prefixLists ->].
  cbn [for_fold]. unfold bind. simpl. apply IH. intros s Hs. apply Hall. by right.
Qed.

Lemma perKey_nothing {K : Type} (m : K -> M World (list SecurityGroupRuleInfo))
  (keys : list K) :
  (forall key, pureAt (m key) []) ->
  pureAt (for_fold (fun securityGroupRules key =>
                      rs <- m key ;; ret (securityGroupRules ++ rs)) [] keys) [].
Proof.
  intros Hm w. induction keys as [|key keys IH]; [reflexivity|].
  cbn [for_fold]. unfold bind. rewrite (Hm key w). exact IH.
Qed.

(** A rule of the target all of whose sources are prefix lists gives no rule
    of the group, whatever its ports and rule types: it is neither
    registered nor added to the security group. *)
Theorem rulesOf_prefix_lists_only (g : Getters) (securityGroupsMap : gmap string string)
  (securityGroupRuleItem : SecurityGroupRuleConfig) (w : World) :
  (forall sourceItem, In sourceItem (sources securityGroupRuleItem) ->
     exists prefixLists, sourceItem = PrefixListSource prefixLists) ->
  rulesOf g securityGroupsMap securityGroupRuleItem w = (w, Returned []).
Proof.
  intros Hall.
  assert (Htcp : pureAt (processTcpSources g securityGroupsMap securityGroupRuleItem) []).
  { unfold processTcpSources.
    apply (perKey_nothing
             (fun tcpPort => processSecurityGroupSources g securityGroupsMap
                               securityGroupRuleItem
                               (mkRuleProps Protocol_TCP None (Some tcpPort) (Some tcpPort)))).
    intros key. by apply processSecurityGroupSources_prefix_lists. }
  assert (Hudp : pureAt (processUdpSources g securityGroupsMap securityGroupRuleItem) []).
  { unfold processUdpSources.
    apply (perKey_nothing
             (fun tcpPort => processSecurityGroupSources g securityGroupsMap
                               securityGroupRuleItem
                               (mkRuleProps Protocol_UDP None (Some tcpPort) (Some tcpPort)))).
    intros key. by apply processSecurityGroupSources_prefix_lists. }
  assert (Htype : pureAt (processTypeSources g securityGroupsMap securityGroupRuleItem) []).
  { unfold processTypeSources.
    apply (perKey_nothing
             (fun ruleType => processSecurityGroupSources g securityGroupsMap
                                securityGroupRuleItem (typeRuleProps ruleType))).
    intros key. by apply processSecurityGroupSources_prefix_lists. }
  unfold rulesOf, bind. by rewrite (Htcp w), (Hudp w), (Htype w).
Qed.

Lemma rulesOf_prefix_lists_only_witness :
  rulesOf testGetters groupsMap
    (mkSecurityGroupRuleConfig (Some "admin") (Some ["SSH"; "ALL"]) (Some [8443]) (Some [53])
       [PrefixListSource ["pl-admin"]; PrefixListSource ["pl-ops"]])
    groupWorld
  = (groupWorld, Returned []).
Proof.
  apply (rulesOf_prefix_lists_only testGetters groupsMap
           (mkSecurityGroupRuleConfig (Some "admin") (Some ["SSH"; "ALL"]) (Some [8443])
              (Some [53]) [PrefixListSource ["pl-admin"]; PrefixListSource ["pl-ops"]])
           groupWorld).
  intros sourceItem [<-|[<-|[]]]; by eexists.
Defined.

(** A rule that the rule functions return with a security group as its
    source names a group that the first loop matched to a legacy security
    group, and its source value is the logical identifier of that legacy
    group: a security group that was not matched gives no rule. *)
Theorem rulesOf_security_group_source (g : Getters) (securityGroupsMap : gmap string string)
  (securityGroupRuleItem : SecurityGroupRuleConfig) (w w' : World)
  (rules : list SecurityGroupRuleInfo) (rule : SecurityGroupRuleInfo) :
  rulesOf g securityGroupsMap securityGroupRuleItem w = (w', Returned rules) ->
  In rule rules ->
  sourceType rule = Some "sg" ->
  securityGroupsMap !! source rule = Some (sourceValue rule)
  /\ sourceValue rule <> EmptyString.
Proof.
  intros Hrun Hin Hsg. apply rulesOf_rules in Hrun. rewrite List.Forall_forall in Hrun.
  destruct (Hrun rule Hin) as (ruleProps & _ & _ & _ & _ & _ & Hsource).
  destruct Hsource as [(Hnone & _)|[(Hsubnet & _)|(_ & Hmap & Hne & _)]];
    [congruence | congruence | by split].
Qed.

Lemma rulesOf_security_group_source_witness :
  groupsMap !! "Mgmt" = Some "MgmtSg" /\ "MgmtSg" <> EmptyString.
Proof.
  apply (rulesOf_security_group_source testGetters groupsMap
           (mkSecurityGroupRuleConfig (Some "admin") (Some ["SSH"]) None None
              [PrefixListSource ["pl-admin"]; SecurityGroupSource ["Mgmt"; "Unknown"]])
           groupWorld groupWorld
           [mkSecurityGroupRuleInfo "tcp" "Mgmt" "MgmtSg" (Some "SSH") (Some 22) (Some 22)
                                    (Some "sg") (Some "admin")]
           (mkSecurityGroupRuleInfo "tcp" "Mgmt" "MgmtSg" (Some "SSH") (Some 22) (Some 22)
                                    (Some "sg") (Some "admin"))).
  - reflexivity.
  - by left.
  - reflexivity.
Defined.

Lemma withRegistered_nil w : withRegistered [] w = w.
Proof. destruct w. unfold withRegistered, set_aseaResources. simpl. by rewrite app_nil_r. Qed.

Lemma withRegistered_app a b w :
  withRegistered b (withRegistered a w) = withRegistered (a ++ b) w.
Proof. unfold withRegistered, set_aseaResources. simpl. by rewrite app_assoc. Qed.

(** One classification of the ingress rules of a group registers the rules
    that a legacy rule agrees with and gathers the properties of the
    others. *)
Lemma classifyIngressRule_fold env vpcItem securityGroupItem securityGroupPhysicalIdMap
  ingressRules rules :
  forall acc w,
    for_fold (classifyIngressRule env (vpc_name vpcItem) (sg_name securityGroupItem)
                                  securityGroupPhysicalIdMap ingressRules) acc rules w
    = (withRegistered (existingIngressEntries vpcItem securityGroupItem ingressRules rules) w,
       Returned (acc ++ newIngressRules env securityGroupPhysicalIdMap ingressRules rules)).
Proof.
  unfold existingIngressEntries, newIngressRules.
  induction rules as [|rule rules IH]; intros acc w.
  - simpl. by rewrite withRegistered_nil, app_nil_r.
  - cbn [for_fold List.filter]. unfold bind, classifyIngressRule at 1.
    destruct (existingIngressRuleEntry ingressRules rule); cbn [negb].
    + unfold bind, addAseaResource, modify, ret. rewrite IH. cbn [map].
      fold (withRegistered [(EC2_SECURITY_GROUP_INGRESS,
                             ruleIdentifier (vpc_name vpcItem) (sg_name securityGroupItem)
                                            "ingress" rule)] w).
      by rewrite withRegistered_app.
    + unfold ret. rewrite IH. cbn [flat_map]. by rewrite app_assoc.
Qed.

(** The classification of the egress rules registers egress rules only. *)
Lemma classifyEgressRule_each vpcName securityGroupName egressRules rules :
  forall w, exists entries,
    for_each (classifyEgressRule vpcName securityGroupName egressRules) rules w
    = (withRegistered entries w, Returned tt)
    /\ List.filter isIngressEntry entries = [].
Proof.
  induction rules as [|rule rules IH]; intros w.
  - exists []. by rewrite withRegistered_nil.
  - cbn [for_each]. unfold bind, classifyEgressRule at 1.
    destruct (existingEgressRuleEntry egressRules rule).
    + unfold addAseaResource, modify.
      fold (withRegistered [(EC2_SECURITY_GROUP_EGRESS,
                             ruleIdentifier vpcName securityGroupName "egress" rule)] w).
      destruct (IH (withRegistered [(EC2_SECURITY_GROUP_EGRESS,
                                     ruleIdentifier vpcName securityGroupName "egress" rule)] w))
        as (entries & Hrun & Hnone).
      eexists. rewrite Hrun, withRegistered_app. split; [reflexivity|].
      simpl. exact Hnone.
    + unfold ret. apply IH.
Qed.

Lemma existingIngressEntries_filter vpcItem securityGroupItem ingressRules rules :
  List.filter isIngressEntry (existingIngressEntries vpcItem securityGroupItem ingressRules rules)
  = existingIngressEntries vpcItem securityGroupItem ingressRules rules.
Proof.
  unfold existingIngressEntries.
  induction (List.filter (existingIngressRuleEntry ingressRules) rules) as [|r l IH];
    [reflexivity|]. simpl. by rewrite IH.
Qed.

(** One turn of the loop over the outbound rules of a group. *)
Lemma outboundTurn_spec env g vpcItem securityGroupItem logicalId securityGroupsMap
  securityGroupPhysicalIdMap ingressRules egressRules securityGroupIngressRules
  securityGroupEgressRules egressRuleItem rules w :
  pureAt (rulesOf g securityGroupsMap egressRuleItem) rules ->
  hasResource logicalId w ->
  let new := newIngressRules env securityGroupPhysicalIdMap ingressRules
                             securityGroupIngressRules in
  exists w',
    outboundTurn env g vpcItem securityGroupItem logicalId securityGroupsMap
                 securityGroupPhysicalIdMap ingressRules egressRules
                 securityGroupIngressRules securityGroupEgressRules egressRuleItem w
    = (w', Returned (securityGroupEgressRules ++ rules))
    /\ List.filter isIngressEntry (aseaResources w')
       = List.filter isIngressEntry (aseaResources w)
         ++ existingIngressEntries vpcItem securityGroupItem ingressRules
                                   securityGroupIngressRules
    /\ (forall id, hasResource id w' <-> hasResource id w)
    /\ (new <> [] ->
        attrOf w' logicalId "securityGroupIngress" = Some (JArr (map ingressPropertyVal new)))
    /\ (new = [] -> template w' = template w)
    /\ ssmParameters w' = ssmParameters w.
Proof.
  intros Hrules Hhas new.
  pose (w0 := withRegistered (existingIngressEntries vpcItem securityGroupItem ingressRules
                                securityGroupIngressRules) w).
  pose (w1 := if 0 <? Z.of_nat (length new)
              then writeAttr logicalId "securityGroupIngress"
                             (JArr (map ingressPropertyVal new)) w0
              else w0).
  destruct (classifyEgressRule_each (vpc_name vpcItem) (sg_name securityGroupItem) egressRules
              (securityGroupEgressRules ++ rules) w1) as (entries & Hegress & Hnone).
  exists (withRegistered entries w1). split.
  - unfold outboundTurn. unfold bind at 1. rewrite (Hrules w). cbv zeta.
    unfold bind at 1. rewrite classifyIngressRule_fold. cbn [app]. fold new. fold w0.
    unfold bind at 1. subst w1.
    destruct (0 <? Z.of_nat (length new)) eqn:Hlen.
    + destruct Hhas as [rec Hrec].
      unfold bind at 1.
      rewrite (getResource_Some w0 logicalId rec) by exact Hrec.
      unfold setAttr, modify. unfold bind at 1. rewrite Hegress. reflexivity.
    + unfold ret at 1. unfold bind at 1. rewrite Hegress. reflexivity.
  - assert (Hnew : (0 <? Z.of_nat (length new)) = negb (bool_decide (new = []))).
    { destruct new; reflexivity. }
    subst w1 w0. rewrite Hnew. clear Hegress.
    split; [|split; [|split; [|split]]].
    + destruct (bool_decide (new = [])); cbn [negb withRegistered aseaResources
        set_aseaResources writeAttr set_template];
        rewrite !List.filter_app, Hnone, app_nil_r, existingIngressEntries_filter;
        reflexivity.
    + intros id. destruct (bool_decide (new = [])); cbn [negb]; [reflexivity|].
      unfold hasResource at 1. cbn [template withRegistered set_aseaResources].
      apply (hasResource_writeAttr logicalId "securityGroupIngress"
               (JArr (map ingressPropertyVal new)) id
               (withRegistered (existingIngressEntries vpcItem securityGroupItem ingressRules
                                  securityGroupIngressRules) w)).
    + intros Hne. rewrite bool_decide_eq_false_2 by exact Hne. cbn [negb].
      unfold withRegistered at 1. rewrite attrOf_set_aseaResources.
      apply attrOf_writeAttr_eq. exact Hhas.
    + intros Hnil. rewrite bool_decide_eq_true_2 by exact Hnil. reflexivity.
    + destruct (bool_decide (new = [])); reflexivity.
Qed.

(** The loop over the outbound rules of a group. *)
Lemma outboundTurn_loop env g vpcItem securityGroupItem logicalId securityGroupsMap
  securityGroupPhysicalIdMap ingressRules egressRules securityGroupIngressRules outbound :
  let new := newIngressRules env securityGroupPhysicalIdMap ingressRules
                             securityGroupIngressRules in
  (forall egressRuleItem, In egressRuleItem outbound ->
     exists rules, pureAt (rulesOf g securityGroupsMap egressRuleItem) rules) ->
  forall acc w,
    hasResource logicalId w ->
    exists w' res,
      for_fold (outboundTurn env g vpcItem securityGroupItem logicalId securityGroupsMap
                             securityGroupPhysicalIdMap ingressRules egressRules
                             securityGroupIngressRules) acc outbound w
      = (w', Returned res)
      /\ List.filter isIngressEntry (aseaResources w')
         = List.filter isIngressEntry (aseaResources w)
           ++ concat (replicate (length outbound)
                        (existingIngressEntries vpcItem securityGroupItem ingressRules
                                                securityGroupIngressRules))
      /\ (forall id, hasResource id w' <-> hasResource id w)
      /\ (outbound <> [] -> new <> [] ->
          attrOf w' logicalId "securityGroupIngress" = Some (JArr (map ingressPropertyVal new)))
      /\ (new = [] -> template w' = template w)
      /\ ssmParameters w' = ssmParameters w.
Proof.
  intros new. induction outbound as [|out outbound IH]; intros Hpure acc w Hhas.
  - exists w, acc. split; [reflexivity|]. simpl. rewrite app_nil_r.
    repeat split; auto; tauto.
  - destruct (Hpure out ltac:(by left)) as [rules Hrules].
    destruct (outboundTurn_spec env g vpcItem securityGroupItem logicalId securityGroupsMap
                securityGroupPhysicalIdMap ingressRules egressRules securityGroupIngressRules
                acc out rules w Hrules Hhas)
      as (w1 & Hturn & Hasea1 & Hhas1 & Hattr1 & Htemplate1 & Hssm1).
    destruct (IH (fun o Ho => Hpure o (or_intror Ho)) (acc ++ rules) w1)
      as (w' & res & Hrun & Hasea & Hhas' & Hattr & Htemplate & Hssm).
    { by apply Hhas1. }
    exists w', res. cbn [for_fold]. unfold bind. rewrite Hturn.
    split; [exact Hrun|]. split; [|split; [|split; [|split]]].
    + rewrite Hasea, Hasea1. cbn [length replicate concat]. by rewrite app_assoc.
    + intros id. by rewrite Hhas', Hhas1.
    + intros _ Hne. destruct outbound as [|out' outbound'].
      * simpl in Hrun. injection Hrun as <- _. by apply Hattr1.
      * by apply Hattr.
    + intros Hnil. by rewrite Htemplate, Htemplate1.
    + by rewrite Hssm, Hssm1.
Qed.

(** The classification of the ingress rules is nested in the loop over the
    outbound rules.  For a group of the target that is matched to a legacy
    group of the template, with rules whose sources resolve, the second loop
    returns, and it registers every ingress rule that a legacy rule agrees
    with once per outbound rule of the group: as often as the group has
    outbound rules.  The exports are as before. *)
Theorem securityGroupRules_body_ingress_per_outbound (env : Env) (g : Getters)
  (vpcItem : VpcConfig) (vpcStackInfo : NestedAseaStackInfo)
  (securityGroupsMap securityGroupPhysicalIdMap : gmap string string)
  (securityGroupItem : SecurityGroupConfig) (logicalId : string)
  (securityGroupIngressRules : list SecurityGroupRuleInfo) (w : World) :
  securityGroupsMap !! sg_name securityGroupItem = Some logicalId ->
  logicalId <> EmptyString ->
  hasResource logicalId w ->
  pureAt (inboundRulesOf g securityGroupsMap securityGroupItem) securityGroupIngressRules ->
  (forall egressRuleItem, In egressRuleItem (outboundRules securityGroupItem) ->
     exists rules, pureAt (rulesOf g securityGroupsMap egressRuleItem) rules) ->
  let run := securityGroupRules_body env g vpcItem vpcStackInfo securityGroupsMap
                                     securityGroupPhysicalIdMap securityGroupItem w in
  let ingressRules :=
    filterResourcesByRef g
      (filterResourcesByType (resources vpcStackInfo) RESOURCE_TYPE.SECURITY_GROUP_INGRESS)
      "GroupId" logicalId in
  snd run = Returned tt
  /\ List.filter isIngressEntry (aseaResources (fst run))
     = List.filter isIngressEntry (aseaResources w)
       ++ concat (replicate (length (outboundRules securityGroupItem))
                    (existingIngressEntries vpcItem securityGroupItem ingressRules
                                            securityGroupIngressRules))
  /\ ssmParameters (fst run) = ssmParameters w.
Proof.
  intros Hmap Hne Hhas Hinbound Houtbound run ingressRules.
  destruct (outboundTurn_loop env g vpcItem securityGroupItem logicalId securityGroupsMap
              securityGroupPhysicalIdMap ingressRules
              (filterResourcesByRef g
                 (filterResourcesByType (resources vpcStackInfo)
                                        RESOURCE_TYPE.SECURITY_GROUP_EGRESS)
                 "GroupId" logicalId)
              securityGroupIngressRules (outboundRules securityGroupItem) Houtbound [] w Hhas)
    as (w' & res & Hrun & Hasea & _ & _ & _ & Hssm).
  assert (Hbody : run = (w', Returned tt)).
  { subst run. unfold securityGroupRules_body. cbv zeta. rewrite Hmap.
    rewrite (proj2 (absent_Some_false logicalId) Hne).
    unfold bind at 1. rewrite (Hinbound w). fold ingressRules.
    unfold bind. by rewrite Hrun. }
  rewrite Hbody. by repeat split.
Qed.

(** The group [Web] with two outbound rules: the HTTPS rule that the legacy
    rule agrees with is registered twice. *)
Lemma securityGroupRules_body_ingress_per_outbound_witness :
  let run := securityGroupRules_body groupEnv testGetters scenarioVpc groupContainer groupsMap
               groupsPhysicalIdMap (webGroup [anyOutbound; anyOutbound]) groupWorld in
  snd run = Returned tt
  /\ List.filter isIngressEntry (aseaResources (fst run))
     = [(EC2_SECURITY_GROUP_INGRESS, "Prod/Web/ingress/10.0.0.0/16-443-443-tcp");
        (EC2_SECURITY_GROUP_INGRESS, "Prod/Web/ingress/10.0.0.0/16-443-443-tcp")].
Proof.
  intros run.
  destruct (securityGroupRules_body_ingress_per_outbound groupEnv testGetters scenarioVpc
              groupContainer groupsMap groupsPhysicalIdMap (webGroup [anyOutbound; anyOutbound])
              "WebSg"
              [mkSecurityGroupRuleInfo "tcp" "10.0.0.0/16" "10.0.0.0/16" None (Some 443)
                                       (Some 443) None (Some "web");
               mkSecurityGroupRuleInfo "tcp" "Mgmt" "MgmtSg" (Some "SSH") (Some 22) (Some 22)
                                       (Some "sg") (Some "admin")]
              groupWorld)
    as (Hret & Hasea & _).
  - reflexivity.
  - discriminate.
  - by eexists.
  - intros w. reflexivity.
  - intros egressRuleItem [<-|[<-|[]]]; eexists; intros w; reflexivity.
  - split; [exact Hret|]. exact Hasea.
Defined.

(** Under the same conditions, for a group with at least one outbound rule:
    when some ingress rule of the group is not agreed with by a legacy rule,
    the list of ingress rules of the legacy group in the template is
    replaced by the properties of these new rules, whatever it held; when
    every ingress rule is agreed with, the template is as before. *)
Theorem securityGroupRules_body_replaces_ingress (env : Env) (g : Getters)
  (vpcItem : VpcConfig) (vpcStackInfo : NestedAseaStackInfo)
  (securityGroupsMap securityGroupPhysicalIdMap : gmap string string)
  (securityGroupItem : SecurityGroupConfig) (logicalId : string)
  (securityGroupIngressRules : list SecurityGroupRuleInfo) (w : World) :
  securityGroupsMap !! sg_name securityGroupItem = Some logicalId ->
  logicalId <> EmptyString ->
  hasResource logicalId w ->
  pureAt (inboundRulesOf g securityGroupsMap securityGroupItem) securityGroupIngressRules ->
  (forall egressRuleItem, In egressRuleItem (outboundRules securityGroupItem) ->
     exists rules, pureAt (rulesOf g securityGroupsMap egressRuleItem) rules) ->
  outboundRules securityGroupItem <> [] ->
  let w' := fst (securityGroupRules_body env g vpcItem vpcStackInfo securityGroupsMap
                                         securityGroupPhysicalIdMap securityGroupItem w) in
  let new :=
    newIngressRules env securityGroupPhysicalIdMap
      (filterResourcesByRef g
         (filterResourcesByType (resources vpcStackInfo) RESOURCE_TYPE.SECURITY_GROUP_INGRESS)
         "GroupId" logicalId)
      securityGroupIngressRules in
  (new <> [] ->
   attrOf w' logicalId "securityGroupIngress" = Some (JArr (map ingressPropertyVal new)))
  /\ (new = [] -> template w' = template w).
Proof.
  intros Hmap Hne Hhas Hinbound Houtbound Hsome w1 new.
  destruct (outboundTurn_loop env g vpcItem securityGroupItem logicalId securityGroupsMap
              securityGroupPhysicalIdMap
              (filterResourcesByRef g
                 (filterResourcesByType (resources vpcStackInfo)
                                        RESOURCE_TYPE.SECURITY_GROUP_INGRESS)
                 "GroupId" logicalId)
              (filterResourcesByRef g
                 (filterResourcesByType (resources vpcStackInfo)
                                        RESOURCE_TYPE.SECURITY_GROUP_EGRESS)
                 "GroupId" logicalId)
              securityGroupIngressRules (outboundRules securityGroupItem) Houtbound [] w Hhas)
    as (w' & res & Hrun & _ & _ & Hattr & Htemplate & _).
  assert (Hbody : w1 = w').
  { subst w1. unfold securityGroupRules_body. cbv zeta. rewrite Hmap.
    rewrite (proj2 (absent_Some_false logicalId) Hne).
    unfold bind at 1. rewrite (Hinbound w). unfold bind. by rewrite Hrun. }
  rewrite Hbody. split; [by apply Hattr | exact Htemplate].
Qed.

(** The legacy group [WebSg] holds an ICMP rule in the template; after the
    loop it holds the two properties of the new SSH rule only. *)
Lemma securityGroupRules_body_replaces_ingress_witness :
  attrOf (fst (securityGroupRules_body groupEnv testGetters scenarioVpc groupContainer groupsMap
                 groupsPhysicalIdMap (webGroup [anyOutbound]) groupWorld))
         "WebSg" "securityGroupIngress"
  = Some (JArr [JObj [("ipProtocol", JStr "tcp"); ("description", JStr "admin");
                      ("fromPort", JNum 22); ("toPort", JNum 22)];
                JObj [("ipProtocol", JStr "tcp"); ("description", JStr "admin");
                      ("sourceSecurityGroupId", JStr "sg-0mgmt")]]).
Proof.
  apply (securityGroupRules_body_replaces_ingress groupEnv testGetters scenarioVpc
           groupContainer groupsMap groupsPhysicalIdMap (webGroup [anyOutbound]) "WebSg"
           [mkSecurityGroupRuleInfo "tcp" "10.0.0.0/16" "10.0.0.0/16" None (Some 443)
                                    (Some 443) None (Some "web");
            mkSecurityGroupRuleInfo "tcp" "Mgmt" "MgmtSg" (Some "SSH") (Some 22) (Some 22)
                                    (Some "sg") (Some "admin")]
           groupWorld).
  - reflexivity.
  - discriminate.
  - by eexists.
  - intros w. reflexivity.
  - intros egressRuleItem [<-|[]]. eexists. intros w. reflexivity.
  - discriminate.
  - discriminate.
Defined.

(** ** The subnet merger followed by the NAT gateway merger *)



(** ** The references of a firewall policy to its rule groups *)

Lemma getRuleGroupReferences_fold ruleGroupPath ruleGroupMap references :
  forall acc,
    fold_left
      (fun references reference =>
         let groupArn :=
           match ruleGroupMap with
           | Some m => m !! reference_name reference
           | None => None
           end in
         let groupArn :=
           if absent groupArn then Some (ruleGroupPath (reference_name reference))
           else groupArn in
         match groupArn with
         | Some arn =>
             if absent groupArn then references
             else references ++ [mkRuleGroupReference arn (priority reference)]
         | None => references
         end)
      references acc
    = acc ++ flat_map
               (fun reference =>
                  match createdInRun ruleGroupMap (reference_name reference) with
                  | Some arn => [mkRuleGroupReference arn (priority reference)]
                  | None =>
                      if String.eqb (ruleGroupPath (reference_name reference)) EmptyString
                      then []
                      else [mkRuleGroupReference (ruleGroupPath (reference_name reference))
                                                 (priority reference)]
                  end)
               references.
Proof.
  induction references as [|reference references IH]; intros acc; simpl.
  - by rewrite app_nil_r.
  - rewrite IH. unfold createdInRun, absent. simpl.
    destruct ruleGroupMap as [m|]; simpl.
    + destruct (m !! reference_name reference) as [arn|]; simpl.
      * destruct (String.eqb arn EmptyString) eqn:Harn; simpl.
        -- destruct (String.eqb (ruleGroupPath (reference_name reference)) EmptyString);
             simpl; [reflexivity | by rewrite <- app_assoc].
        -- rewrite Harn. simpl. by rewrite <- app_assoc.
      * destruct (String.eqb (ruleGroupPath (reference_name reference)) EmptyString);
          simpl; [reflexivity | by rewrite <- app_assoc].
    + destruct (String.eqb (ruleGroupPath (reference_name reference)) EmptyString);
        simpl; [reflexivity | by rewrite <- app_assoc].
Qed.

(** The references returned for a policy never name an empty rule group;
    each comes from a reference of the target, with its priority, and names
    the rule group merged in the run when there is one and otherwise the
    path of the exported parameter itself, not a value looked up under it.
    When no path is empty, no reference of the target is dropped and the
    order is kept. *)
Theorem getRuleGroupReferences_one_per_reference (ruleGroupPath : string -> string)
  (ruleGroupReferences : list NfwStatefulRuleGroupReferenceConfig)
  (ruleGroupMap : option (gmap string string)) :
  let references := getRuleGroupReferences ruleGroupPath ruleGroupReferences ruleGroupMap in
  (forall out, In out references ->
     resourceArn out <> EmptyString
     /\ exists reference,
          In reference ruleGroupReferences
          /\ reference_priority out = priority reference
          /\ resourceArn out
             = default (ruleGroupPath (reference_name reference))
                       (createdInRun ruleGroupMap (reference_name reference)))
  /\ ((forall reference, In reference ruleGroupReferences ->
         ruleGroupPath (reference_name reference) <> EmptyString) ->
      map reference_priority references = map priority ruleGroupReferences).
Proof.
  intros references. subst references. unfold getRuleGroupReferences.
  rewrite getRuleGroupReferences_fold. cbn [app]. split.
  - intros out Hout. apply in_flat_map in Hout as (reference & Hin & Hout).
    assert (Hcreated : forall arn, createdInRun ruleGroupMap (reference_name reference) = Some arn ->
                                   arn <> EmptyString).
    { unfold createdInRun. intros arn. destruct ruleGroupMap as [m|]; [|discriminate].
      destruct (m !! reference_name reference) as [a|]; [|discriminate].
      destruct (String.eqb_spec a EmptyString); [discriminate|]. by intros [= <-]. }
    destruct (createdInRun ruleGroupMap (reference_name reference)) as [arn|] eqn:Harn.
    + destruct Hout as [<-|[]]. split; [by apply Hcreated|]. exists reference.
      by rewrite Harn.
    + destruct (String.eqb_spec (ruleGroupPath (reference_name reference)) EmptyString)
        as [Hempty|Hpath]; [destruct Hout|].
      destruct Hout as [<-|[]]. split; [exact Hpath|]. exists reference. by rewrite Harn.
  - intros Hpaths. induction ruleGroupReferences as [|reference l IH]; [reflexivity|].
    cbn [flat_map map]. rewrite map_app, IH by (intros r Hr; apply Hpaths; by right).
    destruct (createdInRun ruleGroupMap (reference_name reference)); [reflexivity|].
    destruct (String.eqb_spec (ruleGroupPath (reference_name reference)) EmptyString)
      as [Hempty|Hpath]; [|reflexivity].
    exfalso. apply (Hpaths reference); [by left | exact Hempty].
Qed.

Lemma getRuleGroupReferences_one_per_reference_witness :
  map reference_priority
      (getRuleGroupReferences (fun name => "/accelerator/network/ruleGroups/" +:+ name)
         [mkNfwStatefulRuleGroupReferenceConfig "domains" (Some 10);
          mkNfwStatefulRuleGroupReferenceConfig "ports" None]
         (Some {[ "domains" := "Ref:DomainsRuleGroup" ]}))
  = [Some 10; None].
Proof.
  apply (getRuleGroupReferences_one_per_reference
           (fun name => "/accelerator/network/ruleGroups/" +:+ name)
           [mkNfwStatefulRuleGroupReferenceConfig "domains" (Some 10);
            mkNfwStatefulRuleGroupReferenceConfig "ports" None]
           (Some {[ "domains" := "Ref:DomainsRuleGroup" ]})).
  intros reference [<-|[<-|[]]]; discriminate.
Defined.
